(** * Utilities/build-script-helper.py: the staged bootstrap orchestrator

    A shallow embedding of the build script.  The script is Python: every
    function receives the one [argparse.Namespace] object [args], reads and
    assigns its attributes, prints to standard output, touches the file system
    and spawns child processes.  The embedding threads all of that through an
    explicit state and models exceptions as a second kind of result.

    The Python semantics followed are those of CPython 3 (a missing
    attribute raises [AttributeError], reading an unassigned local raises
    [UnboundLocalError], a subclass of [NameError], and an uncaught
    exception ends the process with status 1). *)

From Stdlib Require Import ZArith List String Ascii Bool Lia.
From stdpp Require Import base option gmap strings list pretty.

Import ListNotations.
Local Open Scope string_scope.
Local Open Scope Z_scope.
Local Open Scope list_scope.

(** ** Strings and POSIX paths

    The helpers of [str] and [posixpath] the script calls. *)

Module Str.

Definition chars (s : string) : list ascii := list_ascii_of_string s.
Definition of_chars (l : list ascii) : string := string_of_list_ascii l.

(** [sep.join(l)] *)
Definition join (sep : string) (l : list string) : string := String.concat sep l.

(** [s.split(c)] for a one-character separator: never the empty list. *)
Fixpoint split (c : ascii) (s : string) : list string :=
  match s with
  | EmptyString => [EmptyString]
  | String a r =>
      if Ascii.eqb a c then EmptyString :: split c r
      else match split c r with
           | x :: xs => String a x :: xs
           | [] => [String a EmptyString]
           end
  end.

Definition startswith (p s : string) : bool := String.prefix p s.

Definition endswith_char (c : ascii) (s : string) : bool :=
  match rev (chars s) with
  | a :: _ => Ascii.eqb a c
  | [] => false
  end.

(** The members of [string.whitespace]: space, tab, line feed, carriage
    return, vertical tab and form feed. *)
Definition is_space (a : ascii) : bool :=
  let n := nat_of_ascii a in
  (Nat.eqb n 32 || (Nat.leb 9 n && Nat.leb n 13))%bool.

Fixpoint lstrip_chars (p : ascii -> bool) (l : list ascii) : list ascii :=
  match l with
  | a :: r => if p a then lstrip_chars p r else l
  | [] => []
  end.

Definition rstrip_chars (p : ascii -> bool) (l : list ascii) : list ascii :=
  rev (lstrip_chars p (rev l)).

(** [s.strip()] *)
Definition strip (s : string) : string :=
  of_chars (rstrip_chars is_space (lstrip_chars is_space (chars s))).

(** [s.rstrip('/')] *)
Definition rstrip_slash (s : string) : string :=
  of_chars (rstrip_chars (Ascii.eqb "/"%char) (chars s)).

Definition all_slashes (s : string) : bool :=
  forallb (Ascii.eqb "/"%char) (chars s).

End Str.

Module Path.

(** [os.path.join(a, b)] *)
Definition join (a b : string) : string :=
  if Str.startswith "/" b then b
  else if (String.eqb a "" || Str.endswith_char "/" a)%bool then a +:+ b
  else a +:+ "/" +:+ b.

(** [os.path.basename(p)]: what follows the last slash. *)
Definition basename (p : string) : string :=
  List.last (Str.split "/" p) "".

(** [os.path.dirname(p)]: what precedes the last slash, the slash
    included, with trailing slashes removed unless it is all slashes. *)
Definition dirname (p : string) : string :=
  let comps := Str.split "/" p in
  let head :=
    match removelast comps with
    | [] => ""
    | front => Str.join "/" front +:+ "/"
    end in
  if (negb (String.eqb head "") && negb (Str.all_slashes head))%bool
  then Str.rstrip_slash head else head.

Definition isabs (p : string) : bool := Str.startswith "/" p.

(** The loop of [normpath] over the components. *)
Fixpoint norm_comps (initial_slashes : bool) (comps acc : list string)
  : list string :=
  match comps with
  | [] => acc
  | comp :: rest =>
      if (String.eqb comp "" || String.eqb comp ".")%bool
      then norm_comps initial_slashes rest acc
      else if (negb (String.eqb comp "..")
               || (negb initial_slashes && match acc with [] => true | _ => false end)
               || match rev acc with
                  | l :: _ => String.eqb l ".."
                  | [] => false
                  end)%bool
      then norm_comps initial_slashes rest (acc ++ [comp])
      else norm_comps initial_slashes rest (removelast acc)
  end.

(** [os.path.normpath(path)] *)
Definition normpath (path : string) : string :=
  if String.eqb path "" then "."
  else
    let initial_slashes := Str.startswith "/" path in
    let two := (Str.startswith "//" path && negb (Str.startswith "///" path))%bool in
    let comps := norm_comps initial_slashes (Str.split "/" path) [] in
    let body := Str.join "/" comps in
    let res :=
      if initial_slashes then (if two then "//" else "/") +:+ body else body in
    if String.eqb res "" then "." else res.

(** [os.path.abspath(path)] in the working directory [cwd]. *)
Definition abspath (cwd path : string) : string :=
  normpath (if isabs path then path else join cwd path).

End Path.

(** ** Python values and exceptions *)

(** The functions a sub-parser stores in [func]. *)
Inductive func := FClean | FBuild | FTest.

(** The values an attribute of the namespace can hold. *)
Inductive value :=
| VNone
| VBool (b : bool)
| VStr (s : string)
| VList (l : list string)
| VFunc (f : func).

(** Truth value testing. *)
Definition truthy (v : value) : bool :=
  match v with
  | VNone => false
  | VBool b => b
  | VStr s => negb (String.eqb s "")
  | VList l => match l with [] => false | _ => true end
  | VFunc _ => true
  end.

Definition func_name (f : func) : string :=
  match f with FClean => "clean" | FBuild => "build" | FTest => "test" end.

(** [str(v)], as ["%s" % v] uses it.  The [repr] of the strings of a list
    is written without escapes and that of a function without its address. *)
Definition py_str (v : value) : string :=
  match v with
  | VNone => "None"
  | VBool true => "True"
  | VBool false => "False"
  | VStr s => s
  | VList l => "[" +:+ Str.join ", " (map (fun s => "'" +:+ s +:+ "'") l) +:+ "]"
  | VFunc f => "<function " +:+ func_name f +:+ ">"
  end.

Inductive exn :=
| SystemExit (code : Z)
| AttributeError (name : string)
| NameError (name : string)      (* [UnboundLocalError] included *)
| TypeError
| IndexError
| PlainException                 (* [Exception()] *)
| CalledProcessError (status : Z) (cmd : list string)
| OSError (errno : Z).

(** The status the interpreter exits with when [e] reaches the top level. *)
Definition exit_code (e : exn) : Z :=
  match e with
  | SystemExit c => c
  | _ => 1
  end.

Inductive result (A : Type) :=
| Ok (a : A)
| Raise (e : exn).
Arguments Ok {A} a.
Arguments Raise {A} e.

(** The status of the whole process. *)
Definition exit_status {A} (r : result A) : Z :=
  match r with
  | Ok _ => 0
  | Raise e => exit_code e
  end.

(** ** The host

    What the script asks of its surroundings.  The file system is abstract:
    the script only probes it, and a child process changes it as it
    pleases. *)

Inductive proc_result :=
| Exited (status : Z) (out : string)   (* exit status and captured output *)
| SpawnError (errno : Z).              (* the child could not be started *)

Definition proc_ok (r : proc_result) : bool :=
  match r with
  | Exited 0 _ => true
  | _ => false
  end.

Record Host := {
  FS : Type;
  platform_system : string;                 (* [platform.system()] *)
  script_file : string;                     (* [__file__] *)
  argv0 : string;                           (* [sys.argv[0]] *)
  getcwd : string;                          (* [os.getcwd()] *)
  isfile : FS -> string -> bool;
  isdir : FS -> string -> bool;
  path_exists : FS -> string -> bool;       (* [os.path.exists] *)
  realpath : FS -> string -> string;
  (** The three calls below answer [None], or the [errno] of the [OSError]. *)
  makedirs : FS -> string -> option Z * FS;
  symlink : FS -> string -> string -> option Z * FS;
  remove : FS -> string -> option Z * FS;
  (** Running the command vector to completion in a working directory. *)
  spawn : FS -> list string -> option string -> proc_result * FS;
}.

Definition EEXIST : Z := 17.

(** How a child was run: [subprocess.check_call] or
    [subprocess.check_output]. *)
Inductive spawn_kind := CheckCall | CheckOutput.

Record spawn_event := {
  ev_kind : spawn_kind;
  ev_cmd : list string;
  ev_cwd : option string;
  ev_result : proc_result;
}.

Definition is_call (e : spawn_event) : bool :=
  match ev_kind e with CheckCall => true | CheckOutput => false end.

(** A [check_call] child that did not exit with status 0. *)
Definition call_failed (e : spawn_event) : bool :=
  (is_call e && negb (proc_ok (ev_result e)))%bool.

Section Script.

Context (h : Host).

(** ** State *)

Record state := {
  st_fs : FS h;
  st_environ : gmap string string;   (* [os.environ] of this process *)
  st_args : gmap string value;       (* the attributes of [args] *)
  st_sysroot : option string;        (* the global [g_default_sysroot] *)
  st_stdout : list string;           (* the lines printed so far *)
  st_trace : list spawn_event;       (* the children run so far *)
}.

Definition set_fs (f : FS h) (s : state) : state :=
  {| st_fs := f; st_environ := st_environ s; st_args := st_args s;
     st_sysroot := st_sysroot s; st_stdout := st_stdout s; st_trace := st_trace s |}.
Definition set_args (a : gmap string value) (s : state) : state :=
  {| st_fs := st_fs s; st_environ := st_environ s; st_args := a;
     st_sysroot := st_sysroot s; st_stdout := st_stdout s; st_trace := st_trace s |}.
Definition set_sysroot (g : option string) (s : state) : state :=
  {| st_fs := st_fs s; st_environ := st_environ s; st_args := st_args s;
     st_sysroot := g; st_stdout := st_stdout s; st_trace := st_trace s |}.
Definition add_stdout (line : string) (s : state) : state :=
  {| st_fs := st_fs s; st_environ := st_environ s; st_args := st_args s;
     st_sysroot := st_sysroot s; st_stdout := st_stdout s ++ [line];
     st_trace := st_trace s |}.
Definition add_event (e : spawn_event) (s : state) : state :=
  {| st_fs := st_fs s; st_environ := st_environ s; st_args := st_args s;
     st_sysroot := st_sysroot s; st_stdout := st_stdout s;
     st_trace := st_trace s ++ [e] |}.

(** ** The monad of the script: state and exceptions *)

Definition M (A : Type) : Type := state -> result A * state.

Definition ret {A} (a : A) : M A := fun s => (Ok a, s).
Definition raise {A} (e : exn) : M A := fun s => (Raise e, s).
Definition bind {A B} (m : M A) (f : A -> M B) : M B :=
  fun s => match m s with
           | (Ok a, s') => f a s'
           | (Raise e, s') => (Raise e, s')
           end.

(** [try: body except: handler], the bare [except] that catches all. *)
Definition try_except {A} (body : M A) (handler : exn -> M A) : M A :=
  fun s => match body s with
           | (Ok a, s') => (Ok a, s')
           | (Raise e, s') => handler e s'
           end.

Definition when (b : bool) (m : M unit) : M unit := if b then m else ret tt.

End Script.

Arguments ret {h A} a.
Arguments raise {h A} e.
Arguments bind {h A B} m f.
Arguments try_except {h A} body handler.
Arguments when {h} b m.
Arguments st_fs {h} s.
Arguments st_environ {h} s.
Arguments st_args {h} s.
Arguments st_sysroot {h} s.
Arguments st_stdout {h} s.
Arguments st_trace {h} s.

Declare Scope py_scope.
Delimit Scope py_scope with py.
Notation "x <- m ; k" := (bind m (fun x => k))
  (at level 20, m at level 100, k at level 200, only parsing) : py_scope.
Notation "m ;; k" := (bind m (fun _ => k))
  (at level 100, k at level 200, only parsing, right associativity) : py_scope.

Local Open Scope py_scope.

Section Code.

Context (h : Host).

Local Abbreviation M := (M h).

(** ** Primitives *)

(** [args.name] *)
Definition getattr (name : string) : M value :=
  fun s => match st_args s !! name with
           | Some v => (Ok v, s)
           | None => (Raise (AttributeError name), s)
           end.

(** [args.name = v] *)
Definition setattr (name : string) (v : value) : M unit :=
  fun s => (Ok tt, set_args h (<[name := v]> (st_args s)) s).

(** [print(line)] *)
Definition print (line : string) : M unit :=
  fun s => (Ok tt, add_stdout h line s).

(** A string is expected: concatenation with [+] and the functions of
    [os.path] raise [TypeError] on anything else. *)
Definition as_str (v : value) : M string :=
  match v with
  | VStr s => ret s
  | _ => raise TypeError
  end.

(** [os.path.join(a, b)] with [a] read from the namespace. *)
Definition path_join (a : value) (b : string) : M string :=
  s <- as_str a; ret (Path.join s b).

(** [os.path.abspath(v)] *)
Definition os_path_abspath (v : value) : M string :=
  s <- as_str v; ret (Path.abspath (getcwd h) s).

(** [os.getenv(name)] *)
Definition os_getenv (name : string) : M (option string) :=
  fun s => (Ok (st_environ s !! name), s).

Definition os_path_isfile (p : string) : M bool :=
  fun s => (Ok (isfile h (st_fs s) p), s).
Definition os_path_isdir (p : string) : M bool :=
  fun s => (Ok (isdir h (st_fs s) p), s).
Definition os_path_exists (p : string) : M bool :=
  fun s => (Ok (path_exists h (st_fs s) p), s).
Definition os_path_realpath (p : string) : M string :=
  fun s => (Ok (realpath h (st_fs s) p), s).

Definition os_result (r : option Z * FS h) : M unit :=
  fun s => match r with
           | (None, f) => (Ok tt, set_fs h f s)
           | (Some e, f) => (Raise (OSError e), set_fs h f s)
           end.

Definition os_makedirs (p : string) : M unit :=
  fun s => os_result (makedirs h (st_fs s) p) s.
Definition os_symlink (target link_name : string) : M unit :=
  fun s => os_result (symlink h (st_fs s) target link_name) s.
Definition os_remove (p : string) : M unit :=
  fun s => os_result (remove h (st_fs s) p) s.

(** The child of [subprocess.check_call] and [subprocess.check_output]:
    run to completion and recorded; a nonzero status raises
    [CalledProcessError], a child that cannot be started [OSError]. *)
Definition run_child (k : spawn_kind) (cmd : list string) (cwd : option string)
  : M string :=
  fun s =>
    let '(r, f) := spawn h (st_fs s) cmd cwd in
    let s' := add_event h {| ev_kind := k; ev_cmd := cmd; ev_cwd := cwd;
                             ev_result := r |} (set_fs h f s) in
    match r with
    | Exited status out =>
        if status =? 0 then (Ok out, s')
        else (Raise (CalledProcessError status cmd), s')
    | SpawnError e => (Raise (OSError e), s')
    end.

(** The [cwd=] keyword: [None] or a string. *)
Definition as_cwd (v : value) : M (option string) :=
  match v with
  | VNone => ret None
  | VStr s => ret (Some s)
  | _ => raise TypeError
  end.

(** [subprocess.check_call(cmd, cwd=cwd)]: returns 0 or raises. *)
Definition subprocess_check_call (cmd : list string) (cwd : value) : M Z :=
  d <- as_cwd cwd; run_child CheckCall cmd d;; ret 0.

(** [subprocess.check_output(cmd, cwd=cwd, ...)]: the captured output. *)
Definition subprocess_check_output (cmd : list string) (cwd : value) : M string :=
  d <- as_cwd cwd; run_child CheckOutput cmd d.

(** The module-level names. *)
Definition is_darwin : bool := String.eqb (platform_system h) "Darwin".

Definition g_project_root : string :=
  Path.dirname (Path.dirname (Path.abspath (getcwd h) (script_file h))).

(** Reading the global [g_default_sysroot], bound on Darwin only. *)
Definition g_default_sysroot : M string :=
  fun s => match st_sysroot s with
           | Some g => (Ok g, s)
           | None => (Raise (NameError "g_default_sysroot"), s)
           end.

(** The statements run when the module is loaded. *)
Definition module_init : M unit :=
  if is_darwin then
    out <- run_child CheckOutput ["xcrun"; "--sdk"; "macosx"; "--show-sdk-path"] None;
    fun s => (Ok tt, set_sysroot h (Some (Str.strip out)) s)
  else ret tt.

(** ** Shell helper functions *)

Definition note (message : string) : M unit :=
  print ("--- " +:+ Path.basename (argv0 h) +:+ ": note: " +:+ message).

Definition error {A} (message : string) : M A :=
  print ("--- " +:+ Path.basename (argv0 h) +:+ ": error: " +:+ message);;
  raise (SystemExit 1).

Definition symlink_force (target link_name : string) : M unit :=
  d <- os_path_isdir link_name;
  let link_name :=
    if d then Path.join link_name (Path.basename target) else link_name in
  try_except (os_symlink target link_name)
    (fun e => match e with
              | OSError n =>
                  if n =? EEXIST then
                    os_remove link_name;; os_symlink target link_name
                  else raise e
              | _ => raise e
              end).

Definition mkdir_p (path : string) : M unit :=
  try_except (os_makedirs path)
    (fun e => match e with
              | OSError n => if negb (n =? EEXIST) then raise e else ret tt
              | _ => raise e
              end).

(** The [try] block of [call].  It answers how control left the block:
    the binding of the local [result] at that point ([None] while it is
    unassigned) and the exception on its way to the handler, if any. *)
Definition call_try (cmd : list string) (cwd : value)
  : M (option Z * option exn) :=
  fun s => match subprocess_check_call cmd cwd s with
           | (Raise e, s') => (Ok (None, Some e), s')
           | (Ok result, s') =>
               if negb (result =? 0) then (Ok (Some result, Some PlainException), s')
               else (Ok (Some result, None), s')
           end.

(** Reading a local variable. *)
Definition local_var {A} (name : string) (binding : option A) : M A :=
  match binding with
  | Some a => ret a
  | None => raise (NameError name)
  end.

Definition call (cmd : list string) (cwd : value) : M unit :=
  verbose <- getattr "verbose";
  when (truthy verbose) (print (Str.join " " cmd));;
  left_try <- call_try cmd cwd;
  let result := fst left_try in
  match snd left_try with
  | None => ret tt
  | Some _ =>
      verbose <- getattr "verbose";
      when (negb (truthy verbose)) (print (Str.join " " cmd));;
      status <- local_var "result" result;
      error ("command failed with exit status " +:+ pretty status)
  end.

Definition call_output (cmd : list string) (cwd : value) : M string :=
  verbose <- getattr "verbose";
  when (truthy verbose) (print (Str.join " " cmd));;
  subprocess_check_output cmd cwd.

End Code.

Arguments error {h A} message.
Arguments local_var {h A} name binding.

Section Driver.

Context (h : Host).

Local Abbreviation M := (M h).

(** ** Argument clean-up *)

Definition clean_global_args : M unit :=
  build_dir <- getattr h "build_dir";
  p <- os_path_abspath h build_dir;
  setattr h "build_dir" (VStr p).

(** ** Build-related helper functions *)

Definition get_swiftc_path : M value :=
  try_except
    (env <- os_getenv h "SWIFT_EXEC";
     if truthy (from_option VStr VNone env) then
       env <- os_getenv h "SWIFT_EXEC";
       e <- as_str h (from_option VStr VNone env);
       swiftc_path <- os_path_realpath h e;
       let swiftc_path :=
         if String.eqb (Path.basename swiftc_path) "swift"
         then swiftc_path +:+ "c" else swiftc_path in
       ret (VStr swiftc_path)
     else if is_darwin h then
       out <- call_output h ["xcrun"; "--find"; "swiftc"] VNone;
       ret (VStr (Str.strip out))
     else
       out <- call_output h ["which"; "swiftc"] VNone;
       ret (VStr (Str.strip out)))
    (fun _ => error "unable to find 'swiftc' tool for bootstrap build").

Definition get_llbuild_cmake_arg : M string :=
  link_framework <- getattr h "llbuild_link_framework";
  if truthy link_framework then
    d <- getattr h "llbuild_build_dir";
    ret ("-DLLBUILD_FRAMEWORK=" +:+ py_str d)
  else
    d <- getattr h "llbuild_build_dir";
    llbuild_dir <- path_join h d "cmake/modules";
    ret ("-DLLBuild_DIR=" +:+ llbuild_dir).

Definition get_llbuild_source_path : M string :=
  let llbuild_path := Path.join (Path.join (g_project_root h) "..") "llbuild" in
  e <- os_path_exists h llbuild_path;
  if e then ret llbuild_path
  else
    note h "clone llbuild next to swiftpm directory; see development docs: https://github.com/apple/swift-package-manager/blob/master/Documentation/Development.md#using-trunk-snapshot";;
    error ("unable to find llbuild source directory at " +:+ llbuild_path).

Definition get_build_target : M string :=
  if is_darwin h then ret "x86_64-apple-macosx"
  else
    out <- call_output h ["clang"; "--print-target-triple"] VNone;
    ret (Str.strip out).

Definition get_swiftpm_env_cmd : M (list string) :=
  swiftc_path <- getattr h "swiftc_path";
  swiftc_path <- as_str h swiftc_path;
  build_dir <- getattr h "build_dir";
  build_dir <- as_str h build_dir;
  bootstrap_dir <- getattr h "bootstrap_dir";
  pm <- path_join h bootstrap_dir "pm";
  let env_cmd :=
    ["env";
     "SWIFT_EXEC=" +:+ swiftc_path;
     "SWIFTPM_BUILD_DIR=" +:+ build_dir;
     "SWIFTPM_PD_LIBS=" +:+ pm] in
  link_framework <- getattr h "llbuild_link_framework";
  env_cmd <-
    (if truthy link_framework then
       d <- getattr h "llbuild_build_dir";
       ret (env_cmd ++ ["DYLD_FRAMEWORK_PATH=" +:+ py_str d; "SWIFTPM_BOOTSTRAP=1"])
     else ret (env_cmd ++ ["SWIFTCI_USE_LOCAL_DEPS=1"]));
  bootstrap_dir <- getattr h "bootstrap_dir";
  lib1 <- path_join h bootstrap_dir "lib";
  llbuild_build_dir <- getattr h "llbuild_build_dir";
  lib2 <- path_join h llbuild_build_dir "lib";
  let libs_joined := Str.join ":" [lib1; lib2] in
  ret (env_cmd ++ ["DYLD_LIBRARY_PATH=" +:+ libs_joined;
                   "LD_LIBRARY_PATH=" +:+ libs_joined]).

Definition get_swiftpm_flags : M (list string) :=
  let build_flags := ["--disable-index-store"] in
  release <- getattr h "release";
  if truthy release then
    ret (build_flags ++ ["-Xswiftc"; "-enable-testing"; "--configuration"; "release"])
  else ret build_flags.

Definition clean_build_args : M unit :=
  clean_global_args;;
  swiftc_path <- getattr h "swiftc_path";
  (if truthy swiftc_path then
     p <- os_path_abspath h swiftc_path;
     setattr h "swiftc_path" (VStr p)
   else ret tt);;
  swiftc_path <- getattr h "swiftc_path";
  swiftc_path <- (if truthy swiftc_path then ret swiftc_path else get_swiftc_path);
  setattr h "swiftc_path" swiftc_path;;
  build_dir <- getattr h "build_dir";
  target <- get_build_target;
  target_dir <- path_join h build_dir target;
  setattr h "target_dir" (VStr target_dir);;
  release <- getattr h "release";
  setattr h "conf" (VStr (if truthy release then "release" else "debug"));;
  target_dir <- getattr h "target_dir";
  conf <- getattr h "conf";
  conf <- as_str h conf;
  bin_dir <- path_join h target_dir conf;
  setattr h "bin_dir" (VStr bin_dir).

Definition clean_test_args : M unit := clean_build_args.

(** ** Build functions *)

Definition make_symlinks : M unit :=
  target_dir <- getattr h "target_dir";
  runtimes_dir <- path_join h target_dir "lib/swift";
  mkdir_p h runtimes_dir;;
  bootstrap_dir <- getattr h "bootstrap_dir";
  pm <- path_join h bootstrap_dir "pm";
  symlink_force h pm runtimes_dir.

(** The command vector of the configure step. *)
Definition cmake_cmd (swift_flags : string) (swiftc_path : value)
    (cmake_args : list string) (source_path : string) : list string :=
  ["cmake"; "-G"; "Ninja";
   "-DCMAKE_BUILD_TYPE:=Debug";
   "-DCMAKE_Swift_FLAGS=" +:+ swift_flags;
   "-DCMAKE_Swift_COMPILER:=" +:+ py_str swiftc_path]
  ++ cmake_args ++ [source_path].

(** [source_path] is a string here: a command vector holds strings, and
    the one caller that passes a value of the namespace converts it. *)
Definition build_with_cmake (cmake_args : list string) (source_path : string)
    (build_dir : value) : M unit :=
  build_dir <- as_str h build_dir;
  let cache_path := Path.join build_dir "CMakeCache.txt" in
  configured <- os_path_isfile h cache_path;
  (if negb configured then
     swift_flags <-
       (if is_darwin h then g <- g_default_sysroot h; ret ("-sdk " +:+ g)
        else ret "");
     swiftc_path <- getattr h "swiftc_path";
     let cmd := cmake_cmd swift_flags swiftc_path cmake_args source_path in
     verbose <- getattr h "verbose";
     when (truthy verbose) (print h (Str.join " " cmd));;
     mkdir_p h build_dir;;
     call h cmd (VStr build_dir)
   else ret tt);;
  let ninja_cmd := ["ninja"] in
  verbose <- getattr h "verbose";
  let ninja_cmd := if truthy verbose then ninja_cmd ++ ["-v"] else ninja_cmd in
  call h ninja_cmd (VStr build_dir).

Definition build_llbuild : M unit :=
  note h "Building llbuild";;
  target_dir <- getattr h "target_dir";
  d <- path_join h target_dir "llbuild";
  setattr h "llbuild_build_dir" (VStr d);;
  llbuild_build_dir <- getattr h "llbuild_build_dir";
  api_dir <- path_join h llbuild_build_dir ".cmake/api/v1/query";
  mkdir_p h api_dir;;
  call h ["touch"; "codemodel-v2"] (VStr api_dir);;
  source_dir <- getattr h "llbuild_source_dir";
  llbuild_source_dir <-
    (if truthy source_dir then ret source_dir
     else p <- get_llbuild_source_path; ret (VStr p));
  sysroot <- g_default_sysroot h;
  (* the source directory becomes an element of the command vector *)
  llbuild_source_dir <- as_str h llbuild_source_dir;
  llbuild_build_dir <- getattr h "llbuild_build_dir";
  build_with_cmake
    ["-DCMAKE_C_COMPILER:=clang";
     "-DCMAKE_CXX_COMPILER:=clang++";
     "-DLLBUILD_SUPPORT_BINDINGS:=Swift";
     "-DSQLite3_INCLUDE_DIR=" +:+ sysroot +:+ "/usr/include"]
    llbuild_source_dir llbuild_build_dir.

(** [v[0]] *)
Definition index0 (v : value) : M string :=
  match v with
  | VList (x :: _) => ret x
  | VList [] => raise IndexError
  | VStr (String a _) => ret (String a EmptyString)
  | VStr EmptyString => raise IndexError
  | _ => raise TypeError
  end.

Definition build_swiftpm_with_cmake : M unit :=
  note h "Building SwiftPM (with CMake)";;
  llbuild_arg <- get_llbuild_cmake_arg;
  bin_dir <- getattr h "bin_dir";
  bin_dir <- as_str h bin_dir;
  install_prefixes <- getattr h "install_prefixes";
  prefix <- index0 install_prefixes;
  install_libspm <- getattr h "install_libspm";
  bootstrap_dir <- getattr h "bootstrap_dir";
  build_with_cmake
    [llbuild_arg;
     "-DSWIFTPM_BUILD_DIR=" +:+ bin_dir;
     "-DUSE_VENDORED_TSC=ON";
     "-DCMAKE_INSTALL_PREFIX=" +:+ prefix;
     "-DINSTALL_LIBSWIFTPM=" +:+ (if truthy install_libspm then "ON" else "OFF")]
    (g_project_root h) bootstrap_dir;;
  make_symlinks.

Definition call_swiftpm (cmd : list string) : M unit :=
  env_cmd <- get_swiftpm_env_cmd;
  flags <- get_swiftpm_flags;
  let full_cmd := env_cmd ++ cmd ++ flags in
  call h full_cmd (VStr (g_project_root h)).

Definition build_swiftpm_with_swiftpm : M unit :=
  note h "Building SwiftPM (with swift-build)";;
  bootstrap_dir <- getattr h "bootstrap_dir";
  swift_build <- path_join h bootstrap_dir "bin/swift-build";
  call_swiftpm [swift_build; "--build-tests"].

(** ** Actions *)

Definition clean : M unit :=
  note h "Cleaning";;
  clean_global_args;;
  build_dir <- getattr h "build_dir";
  build_dir <- as_str h build_dir;
  call h ["rm"; "-rf"; build_dir] VNone.

Definition build : M unit :=
  clean_build_args;;
  llbuild_build_dir <- getattr h "llbuild_build_dir";
  (if negb (truthy llbuild_build_dir) then build_llbuild else ret tt);;
  build_swiftpm_with_cmake;;
  build_swiftpm_with_swiftpm.

(** [for arg in v] *)
Definition iterate (v : value) : M (list string) :=
  match v with
  | VList l => ret l
  | VStr s => ret (map (fun a => String a EmptyString) (Str.chars s))
  | _ => raise TypeError
  end.

Definition test : M unit :=
  build;;
  note h "Testing";;
  clean_test_args;;
  bin_dir <- getattr h "bin_dir";
  runner <- path_join h bin_dir "swift-test";
  let cmd := [runner] in
  parallel <- getattr h "parallel";
  let cmd := if truthy parallel then cmd ++ ["--parallel"] else cmd in
  filter <- getattr h "filter";
  filters <- iterate filter;
  let cmd := cmd ++ flat_map (fun arg => ["--filter"; arg]) filters in
  call_swiftpm cmd.

Definition install : M unit :=
  build;;
  note h "Installing";;
  bootstrap_dir <- getattr h "bootstrap_dir";
  call h ["ninja"; "install"] bootstrap_dir.

End Driver.

(** ** Argument parsing

    [argparse] is a library: what follows is a model of the part of its
    documented behaviour the parsers of the script exercise (long options,
    their unique prefixes and the [--opt=value] form, clusters of short
    flags, the help option, sub-commands).  It leaves out negative numbers
    as option values and a [--] that directly follows a valued option. *)

Module Argparse.

Inductive action := Store | StoreTrue | Append | Help.

Record argument := {
  option_strings : list string;
  dest : string;
  act : action;
  default_val : value;
}.

Definition takes_value (a : argument) : bool :=
  match act a with Store | Append => true | _ => false end.

(** [ArgumentParser()]: a parser is born with its help option. *)
Definition new_parser : list argument :=
  [{| option_strings := ["-h"; "--help"]; dest := "help"; act := Help;
      default_val := VNone |}].

Definition table (parser : list argument) : list (string * argument) :=
  flat_map (fun a => map (fun o => (o, a)) (option_strings a)) parser.

Definition lookup_exact (parser : list argument) (o : string) : option argument :=
  snd <$> find (fun p => String.eqb (fst p) o) (table parser).

(** [s.split('=', 1)] *)
Fixpoint split_eq (s : string) : string * option string :=
  match s with
  | EmptyString => (EmptyString, None)
  | String a r =>
      if Ascii.eqb a "="%char then (EmptyString, Some r)
      else let '(n, e) := split_eq r in (String a n, e)
  end.

Definition has_space (s : string) : bool :=
  existsb (Ascii.eqb " "%char) (Str.chars s).

Inductive token_class :=
| TPositional
| TUnknown
| TAmbiguous
| TOption (a : argument) (option_string : string) (explicit : option string).

(** The options a token abbreviates. *)
Definition option_tuples (parser : list argument) (t : string)
  : list (argument * string * option string) :=
  if Str.startswith "--" t then
    let '(name, expl) := split_eq t in
    omap (fun p => if Str.startswith name (fst p)
                   then Some (snd p, fst p, expl) else None) (table parser)
  else
    let short_prefix := String.substring 0 2 t in
    let short_expl := String.substring 2 (String.length t - 2) t in
    omap (fun p => if String.eqb (fst p) short_prefix
                   then Some (snd p, fst p, Some short_expl)
                   else if Str.startswith t (fst p)
                        then Some (snd p, fst p, None) else None) (table parser).

Definition classify (parser : list argument) (t : string) : token_class :=
  if negb (Str.startswith "-" t) then TPositional
  else match lookup_exact parser t with
       | Some a => TOption a t None
       | None =>
           if Nat.eqb (String.length t) 1 then TPositional
           else
             let '(name, expl) := split_eq t in
             match (match expl with
                    | Some _ => lookup_exact parser name
                    | None => None
                    end) with
             | Some a => TOption a name expl
             | None =>
                 match option_tuples parser t with
                 | [(a, o, e)] => TOption a o e
                 | [] => if has_space t then TPositional else TUnknown
                 | _ => TAmbiguous
                 end
             end
       end.

Definition apply_action (a : argument) (v : string) (ns : gmap string value)
  : result (gmap string value) :=
  match act a with
  | Store => Ok (<[dest a := VStr v]> ns)
  | StoreTrue => Ok (<[dest a := VBool true]> ns)
  | Append =>
      match ns !! dest a with
      | Some (VList l) => Ok (<[dest a := VList (l ++ [v])]> ns)
      | _ => Ok (<[dest a := VList [v]]> ns)
      end
  | Help => Raise (SystemExit 0)
  end.

Fixpoint apply_actions (l : list (argument * string)) (ns : gmap string value)
  : result (gmap string value) :=
  match l with
  | [] => Ok ns
  | (a, v) :: rest =>
      match apply_action a v ns with
      | Ok ns' => apply_actions rest ns'
      | Raise e => Raise e
      end
  end.

(** A cluster of short flags: the characters that follow a flag without
    value must each name another short option. *)
Fixpoint cluster (parser : list argument) (a : argument) (expl : string)
  : option (list (argument * string)) :=
  if takes_value a then Some [(a, expl)]
  else match expl with
       | EmptyString => Some [(a, EmptyString)]
       | String c r =>
           match lookup_exact parser (String "-"%char (String c EmptyString)) with
           | Some a' => cons (a, EmptyString) <$> cluster parser a' r
           | None => None
           end
       end.

Definition usage_error {A} : result A := Raise (SystemExit 2).

(** The optionals of one parser over its argument strings; [extras]
    tells whether an unrecognized argument was met. *)
Fixpoint parse_optionals (parser : list argument) (argv : list string)
    (ns : gmap string value) (extras : bool) : result (gmap string value * bool) :=
  match argv with
  | [] => Ok (ns, extras)
  | t :: rest =>
      if String.eqb t "--" then
        Ok (ns, (extras || match rest with [] => false | _ => true end)%bool)
      else
        match classify parser t with
        | TPositional | TUnknown => parse_optionals parser rest ns true
        | TAmbiguous => usage_error
        | TOption a o None =>
            if takes_value a then
              match rest with
              | v :: rest' =>
                  match classify parser v with
                  | TPositional =>
                      match apply_action a v ns with
                      | Ok ns' => parse_optionals parser rest' ns' extras
                      | Raise e => Raise e
                      end
                  | _ => usage_error
                  end
              | [] => usage_error
              end
            else
              match apply_action a "" ns with
              | Ok ns' => parse_optionals parser rest ns' extras
              | Raise e => Raise e
              end
        | TOption a o (Some expl) =>
            if Str.startswith "--" o then
              if takes_value a then
                match apply_action a expl ns with
                | Ok ns' => parse_optionals parser rest ns' extras
                | Raise e => Raise e
                end
              else usage_error
            else
              match cluster parser a expl with
              | Some acts =>
                  match apply_actions acts ns with
                  | Ok ns' => parse_optionals parser rest ns' extras
                  | Raise e => Raise e
                  end
              | None => usage_error
              end
        end
  end.

(** The namespace a parser starts from: the default of every argument. *)
Definition defaults (parser : list argument) : gmap string value :=
  fold_left (fun ns a => match act a with
                         | Help => ns
                         | _ => <[dest a := default_val a]> ns
                         end) parser ∅.

End Argparse.

Import Argparse.

(** ** main *)

Definition add_global_args (parser : list argument) : list argument :=
  parser ++
  [{| option_strings := ["--build-dir"]; dest := "build_dir"; act := Store;
      default_val := VStr ".build" |};
   {| option_strings := ["-v"; "--verbose"]; dest := "verbose"; act := StoreTrue;
      default_val := VBool false |}].

Definition add_build_args (parser : list argument) : list argument :=
  add_global_args parser ++
  [{| option_strings := ["--swiftc"]; dest := "swiftc_path"; act := Store;
      default_val := VNone |};
   {| option_strings := ["--release"]; dest := "release"; act := StoreTrue;
      default_val := VBool false |}].

Definition add_test_args (parser : list argument) : list argument :=
  add_build_args parser ++
  [{| option_strings := ["--parallel"]; dest := "parallel"; act := StoreTrue;
      default_val := VBool true |};
   {| option_strings := ["--filter"]; dest := "filter"; act := Append;
      default_val := VList [] |}].

(** The three sub-parsers as [main] sets them up. *)
Definition parser_clean : list argument := add_global_args new_parser.
Definition parser_build : list argument := add_build_args new_parser.
Definition parser_test : list argument := add_build_args new_parser.

Definition subparser (f : func) : list argument :=
  match f with
  | FClean => parser_clean
  | FBuild => parser_build
  | FTest => parser_test
  end.

Definition subcommand (name : string) : option func :=
  if String.eqb name "clean" then Some FClean
  else if String.eqb name "build" then Some FBuild
  else if String.eqb name "test" then Some FTest
  else None.

(** A sub-command and its arguments: the defaults of its parser, the
    function of [set_defaults(func=...)], then its options. *)
Definition parse_subcommand (f : func) (argv : list string) (extras : bool)
  : result (gmap string value) :=
  let ns := <["func" := VFunc f]> (defaults (subparser f)) in
  match parse_optionals (subparser f) argv ns extras with
  | Ok (ns', extras') =>
      if extras' then usage_error
      else Ok (<["command" := VStr (func_name f)]> ns')
  | Raise e => Raise e
  end.

(** [parser.parse_args()] of the top-level parser, whose only option is
    the help option and whose only positional is the sub-command. *)
Fixpoint parse_args (argv : list string) (extras : bool)
  : result (gmap string value) :=
  match argv with
  | [] => if extras then usage_error else Ok {[ "command" := VNone ]}
  | t :: rest =>
      if String.eqb t "--" then
        match rest with
        | c :: rest' =>
            match subcommand c with
            | Some f => parse_subcommand f rest' extras
            | None => usage_error
            end
        | [] => if extras then usage_error else Ok {[ "command" := VNone ]}
        end
      else
        match classify new_parser t with
        | TPositional =>
            match subcommand t with
            | Some f => parse_subcommand f rest extras
            | None => usage_error
            end
        | TUnknown => parse_args rest true
        | TAmbiguous => usage_error
        | TOption a o None => Raise (SystemExit 0)
        | TOption a o (Some expl) =>
            if Str.startswith "--" o then usage_error
            else match cluster new_parser a expl with
                 | Some _ => Raise (SystemExit 0)
                 | None => usage_error
                 end
        end
  end.

Section Main.

Context (h : Host).

(** [f(args)] for the function stored in the namespace. *)
Definition call_func (v : value) : M h unit :=
  match v with
  | VFunc FClean => clean h
  | VFunc FBuild => build h
  | VFunc FTest => test h
  | _ => raise TypeError
  end.

Definition main (argv : list string) : M h unit :=
  (fun s => match parse_args argv false with
            | Ok ns => (Ok tt, set_args h ns s)
            | Raise e => (Raise e, s)
            end);;
  f <- getattr h "func";
  setattr h "func" (if truthy f then f else VFunc FBuild);;
  f <- getattr h "func";
  call_func f.

(** The script run as a program: the module is loaded, then [main()]. *)
Definition script (argv : list string) : M h unit :=
  module_init h;; main argv.

Definition initial_state (fs : FS h) (environ : gmap string string) : state h :=
  {| st_fs := fs; st_environ := environ; st_args := ∅; st_sysroot := None;
     st_stdout := []; st_trace := [] |}.

End Main.

Arguments initial_state h fs environ : clear implicits.

(** ** Concrete hosts

    A small host to run the script on: the file system is the list of the
    regular files that exist, [cmake] succeeds and leaves its cache
    descriptor in its working directory, and the commands [fails] selects
    exit with status 1. *)

Module Demo.

Definition mem (p : string) (fs : list string) : bool :=
  existsb (String.eqb p) fs.

Definition head_is (name : string) (cmd : list string) : bool :=
  match cmd with
  | c :: _ => String.eqb c name
  | [] => false
  end.

Definition run (fails : list string -> bool) (fs : list string)
    (cmd : list string) (cwd : option string) : proc_result * list string :=
  if fails cmd then (Exited 1 "", fs)
  else if head_is "which" cmd then (Exited 0 "/usr/bin/swiftc
", fs)
  else if head_is "xcrun" cmd then (Exited 0 "/Xcode/usr/bin/swiftc
", fs)
  else if head_is "clang" cmd then (Exited 0 "x86_64-unknown-linux-gnu
", fs)
  else if head_is "cmake" cmd then
    (Exited 0 "", Path.join (default "/w" cwd) "CMakeCache.txt" :: fs)
  else (Exited 0 "", fs).

Definition host (system : string) (fails : list string -> bool) : Host :=
  {| FS := list string;
     platform_system := system;
     script_file := "Utilities/build-script-helper.py";
     argv0 := "Utilities/build-script-helper.py";
     getcwd := "/w";
     isfile := fun fs p => mem p fs;
     isdir := fun _ _ => false;
     path_exists := fun fs p => mem p fs;
     realpath := fun _ p => p;
     makedirs := fun fs _ => (None, fs);
     symlink := fun fs _ _ => (None, fs);
     remove := fun fs _ => (None, fs);
     spawn := run fails |}.

Definition never (cmd : list string) : bool := false.

Definition linux : Host := host "Linux" never.
Definition darwin : Host := host "Darwin" never.

Definition start (h : list string -> bool) (system : string)
  : state (host system h) :=
  initial_state (host system h) [] ∅.

End Demo.

(** ** The two halves of [clean_build_args]

    The statements that settle the compiler, followed by [k], and the
    statements that derive the directories, named so that each can be
    specified on its own; the function is their sequence. *)

Section Blocks.

Context (h : Host).

Definition resolve_swiftc_then {A} (k : M h A) : M h A :=
  swiftc_path <- getattr h "swiftc_path";
  (if truthy swiftc_path then
     p <- os_path_abspath h swiftc_path;
     setattr h "swiftc_path" (VStr p)
   else ret tt);;
  swiftc_path <- getattr h "swiftc_path";
  swiftc_path <- (if truthy swiftc_path then ret swiftc_path else get_swiftc_path h);
  setattr h "swiftc_path" swiftc_path;;
  k.

Definition derive_dirs : M h unit :=
  build_dir <- getattr h "build_dir";
  target <- get_build_target h;
  target_dir <- path_join h build_dir target;
  setattr h "target_dir" (VStr target_dir);;
  release <- getattr h "release";
  setattr h "conf" (VStr (if truthy release then "release" else "debug"));;
  target_dir <- getattr h "target_dir";
  conf <- getattr h "conf";
  conf <- as_str h conf;
  bin_dir <- path_join h target_dir conf;
  setattr h "bin_dir" (VStr bin_dir).

End Blocks.

(** * The terms of the specification

    The predicates, reference definitions and scenarios the statements of
    the second part are written with. *)

(** ** Triples and invariants *)

(** [hoare h P m Q X]: run from a state in [P], the computation [m] ends
    in [Q] when it returns and in [X] when it raises. *)
Definition hoare (h : Host) {A} (P : state h -> Prop) (m : M h A)
    (Q : A -> state h -> Prop) (X : exn -> state h -> Prop) : Prop :=
  forall s, P s ->
    match m s with
    | (Ok a, s') => Q a s'
    | (Raise e, s') => X e s'
    end.

(** [m] keeps the invariant [I], also when it raises, and what it raises
    ends the process with status 1. *)
Definition quiet (h : Host) (I : state h -> Prop) {A} (m : M h A) : Prop :=
  hoare h I m (fun _ => I) (fun e s => exit_code e = 1 /\ I s).

(** [m] keeps the invariant [I] when it returns and ends in [X] when it
    raises. *)
Definition keeps (h : Host) (I : state h -> Prop) (X : exn -> state h -> Prop)
    {A} (m : M h A) : Prop :=
  hoare h I m (fun _ => I) X.

(** An invariant that lets every attribute be assigned. *)
Definition any_attribute (k : string) : bool := true.

(** ** Children and traces *)

(** The [cwd=] value of a working directory. *)
Definition cwd_value (d : option string) : value :=
  match d with
  | None => VNone
  | Some p => VStr p
  end.

(** The record of a [check_call] child. *)
Definition call_event (cmd : list string) (d : option string) (r : proc_result)
  : spawn_event :=
  {| ev_kind := CheckCall; ev_cmd := cmd; ev_cwd := d; ev_result := r |}.

(** The [check_call] children of a trace: the commands of the stages. *)
Definition stage_commands (tr : list spawn_event) : list spawn_event :=
  List.filter is_call tr.

(** The trace has grown from [tr0] by [check_call] children only. *)
Definition only_calls (h : Host) (tr0 : list spawn_event) (s : state h) : Prop :=
  exists new, st_trace s = tr0 ++ new /\ Forall (fun ev => is_call ev = true) new.

(** A [check_call] child whose command is [tool]. *)
Definition runs (tool : string) (ev : spawn_event) : bool :=
  (is_call ev &&
   match ev_cmd ev with
   | c :: _ => String.eqb c tool
   | [] => false
   end)%bool.

(** ** Fail-fast *)

Definition all_calls_ok (tr : list spawn_event) : Prop :=
  Forall (fun ev => call_failed ev = false) tr.

(** No [check_call] child has failed so far. *)
Definition no_failure (h : Host) (s : state h) : Prop := all_calls_ok (st_trace s).

(** The failed child is the last child, and its command line the last
    line printed. *)
Definition stopped_at_failure (h : Host) (s : state h) : Prop :=
  exists pre ev,
    st_trace s = pre ++ [ev] /\ all_calls_ok pre /\ call_failed ev = true /\
    last (st_stdout s) = Some (Str.join " " (ev_cmd ev)).

Definition failed_exit (h : Host) (e : exn) (s : state h) : Prop :=
  exit_code e <> 0 /\ (no_failure h s \/ stopped_at_failure h s).

(** What the claim asks of the end of a run: a failed child is the last
    child, the exit status is not 0, and the command line of the failed
    child is the last line printed. *)
Definition fail_fast (h : Host) {A} (out : result A * state h) : Prop :=
  forall pre ev post,
    st_trace (snd out) = pre ++ ev :: post -> call_failed ev = true ->
    post = [] /\ exit_status (fst out) <> 0 /\
    last (st_stdout (snd out)) = Some (Str.join " " (ev_cmd ev)).

(** ** The self-hosted build *)

Definition release_flags : list string :=
  ["-Xswiftc"; "-enable-testing"; "--configuration"; "release"].

(** The overlay as the specification lists it: the compiler path, the
    build root, the directory hint of the dependency libraries, the linkage
    mode, and the two loader variables with the same pair of directories. *)
Definition expected_overlay (swiftc build_dir bootstrap llbuild : string)
    (link_framework : bool) : list string :=
  let libs := Path.join bootstrap "lib" +:+ ":" +:+ Path.join llbuild "lib" in
  ["env";
   "SWIFT_EXEC=" +:+ swiftc;
   "SWIFTPM_BUILD_DIR=" +:+ build_dir;
   "SWIFTPM_PD_LIBS=" +:+ Path.join bootstrap "pm"]
  ++ (if link_framework
      then ["DYLD_FRAMEWORK_PATH=" +:+ llbuild; "SWIFTPM_BOOTSTRAP=1"]
      else ["SWIFTCI_USE_LOCAL_DEPS=1"])
  ++ ["DYLD_LIBRARY_PATH=" +:+ libs; "LD_LIBRARY_PATH=" +:+ libs].

(** The environment of the process is the one of [s0]. *)
Definition same_environ (h : Host) (s0 s : state h) : Prop :=
  st_environ s = st_environ s0.

(** ** The command line *)

(** An attribute of the namespace [parse_args] answers. *)
Definition parsed_attribute (argv : list string) (k : string) : result (option value) :=
  match parse_args argv false with
  | Ok ns => Ok (ns !! k)
  | Raise e => Raise e
  end.

(** The namespace of a command line. *)
Definition namespace_of (argv : list string) : gmap string value :=
  match parse_args argv false with
  | Ok ns => ns
  | Raise _ => ∅
  end.

(** No stage command beyond [calls], and no attribute for a pre-built
    dependency. *)
Definition no_dependency_attribute (h : Host) (calls : list spawn_event)
    (s : state h) : Prop :=
  stage_commands (st_trace s) = calls /\ st_args s !! "llbuild_build_dir" = None.

Definition not_llbuild_build_dir (k : string) : bool :=
  negb (String.eqb k "llbuild_build_dir").

(** ** Configure, then compile *)

(** The configure steps of a trace. *)
Definition configure_steps (tr : list spawn_event) : nat :=
  length (List.filter (runs "cmake") tr).

(** The command vector of the compile step. *)
Definition ninja_cmd (verbose : value) : list string :=
  if truthy verbose then ["ninja"; "-v"] else ["ninja"].

(** The trace has grown from [tr0] by children run in [d], at most [k]
    of them configure steps. *)
Definition grows (h : Host) (d : string) (tr0 : list spawn_event) (k : nat)
    (s : state h) : Prop :=
  exists new,
    st_trace s = tr0 ++ new /\
    Forall (fun ev => is_call ev = true -> ev_cwd ev = Some d) new /\
    (configure_steps new <= k)%nat.

(** ** The directories of a configuration *)

Definition clang_triple_query (out : string) : spawn_event :=
  {| ev_kind := CheckOutput; ev_cmd := ["clang"; "--print-target-triple"];
     ev_cwd := None; ev_result := Exited 0 out |}.

Definition mode_name (release : value) : string :=
  if truthy release then "release" else "debug".

(** [triple] is the target triple of the host as [get_build_target] found
    it: the fixed one on Darwin, elsewhere the stripped output of the
    clang query, the last child of the trace. *)
Definition target_triple_of (h : Host) (s : state h) (triple : string) : Prop :=
  if is_darwin h then triple = "x86_64-apple-macosx"
  else exists out,
      last (st_trace s) = Some (clang_triple_query out) /\ triple = Str.strip out.

(** The namespace holds the absolute build root [B] and the release flag. *)
Definition dirs_known (h : Host) (B : string) (rel : value) (s : state h) : Prop :=
  st_args s !! "build_dir" = Some (VStr B) /\ st_args s !! "release" = Some rel.

(** The namespace holds the directories derived from them. *)
Definition dirs_derived (h : Host) (B : string) (rel : value) (s : state h) : Prop :=
  exists triple,
    target_triple_of h s triple /\
    st_args s !! "build_dir" = Some (VStr B) /\
    st_args s !! "target_dir" = Some (VStr (Path.join B triple)) /\
    st_args s !! "conf" = Some (VStr (mode_name rel)) /\
    st_args s !! "bin_dir" =
      Some (VStr (Path.join (Path.join B triple) (mode_name rel))).

Definition is_swiftc_path (k : string) : bool := String.eqb k "swiftc_path".

Definition not_swiftc_path (k : string) : bool := negb (String.eqb k "swiftc_path").

(** ** Settling the compiler *)

(** The value [argparse] stores for [--swiftc]. *)
Definition flag_value (flag : option string) : value :=
  match flag with
  | Some p => VStr p
  | None => VNone
  end.

(** The suffix rule of [SWIFT_EXEC]: a path whose base name is [swift]
    names the compiler next to it. *)
Definition swift_suffix_rule (p : string) : string :=
  if String.eqb (Path.basename p) "swift" then p +:+ "c" else p.

Definition discovery_cmd (h : Host) : list string :=
  if is_darwin h then ["xcrun"; "--find"; "swiftc"] else ["which"; "swiftc"].

Definition nonempty (o : option string) : option string :=
  match o with
  | Some p => if String.eqb p "" then None else Some p
  | None => None
  end.

(** The compiler path by precedence: the flag made absolute; else the
    environment override through [realpath] and the suffix rule; else the
    stripped output of the discovery command; [None] when that command
    fails. *)
Definition resolved_compiler (h : Host) (fs : FS h) (environ : gmap string string)
    (flag : option string) : option string :=
  match nonempty flag with
  | Some p => Some (Path.abspath (getcwd h) p)
  | None =>
      match nonempty (environ !! "SWIFT_EXEC") with
      | Some e => Some (swift_suffix_rule (realpath h fs e))
      | None =>
          match fst (spawn h fs (discovery_cmd h) None) with
          | Exited 0 out => Some (Str.strip out)
          | _ => None
          end
      end
  end.

Definition tool_not_found_line (h : Host) : string :=
  "--- " +:+ Path.basename (argv0 h)
  +:+ ": error: unable to find 'swiftc' tool for bootstrap build".

(** The state after the discovery command: its echo when verbose, the
    file system as the child left it, the child recorded. *)
Definition after_discovery (h : Host) (v : value) (s : state h) : state h :=
  let s1 := if truthy v then add_stdout h (Str.join " " (discovery_cmd h)) s else s in
  add_event h {| ev_kind := CheckOutput; ev_cmd := discovery_cmd h; ev_cwd := None;
                 ev_result := fst (spawn h (st_fs s) (discovery_cmd h) None) |}
    (set_fs h (snd (spawn h (st_fs s) (discovery_cmd h) None)) s1).

Definition swiftc_is (h : Host) (p : string) (s : state h) : Prop :=
  st_args s !! "swiftc_path" = Some (VStr p).

(** The resolution with the suffix rule on the override (the flag, else
    the environment variable) and with the tool-not-found error whenever
    neither the override nor the discovery yields an existing path. *)
Definition resolution_as_claimed (h : Host) (s : state h) (flag : option string) : Prop :=
  let out := clean_build_args h s in
  let override :=
    match nonempty flag with
    | Some p => Some (Path.abspath (getcwd h) p)
    | None => realpath h (st_fs s) <$> nonempty (st_environ s !! "SWIFT_EXEC")
    end in
  (forall p, override = Some p -> fst out = Ok tt ->
             st_args (snd out) !! "swiftc_path" = Some (VStr (swift_suffix_rule p))) /\
  ((forall p, override = Some p -> path_exists h (st_fs s) p = false) ->
   proc_ok (fst (spawn h (st_fs s) (discovery_cmd h) None)) = false ->
   fst out = Raise (SystemExit 1)).

(** ** Two runs that differ in [verbose] *)

(** The compile command without the [-v] that verbose adds. *)
Definition erase_v (cmd : list string) : list string :=
  if decide (cmd = ["ninja"; "-v"]) then ["ninja"] else cmd.

Definition erase_event (ev : spawn_event) : spawn_event :=
  {| ev_kind := ev_kind ev; ev_cmd := erase_v (ev_cmd ev);
     ev_cwd := ev_cwd ev; ev_result := ev_result ev |}.

(** The same state with another value of [verbose]. *)
Definition with_verbose (h : Host) (v : value) (s : state h) : state h :=
  set_args h (<["verbose" := v]> (st_args s)) s.

(** The children of the host do not depend on the [-v] of the compile
    command. *)
Definition ninja_ignores_v (h : Host) : Prop :=
  forall fs cwd, spawn h fs ["ninja"; "-v"] cwd = spawn h fs ["ninja"] cwd.

(** The states of two runs agree on everything but the value of
    [verbose] and the lines printed, and their traces agree once [-v] is
    erased. *)
Definition sim (h : Host) (s1 s2 : state h) : Prop :=
  st_fs s1 = st_fs s2 /\
  st_environ s1 = st_environ s2 /\
  st_sysroot s1 = st_sysroot s2 /\
  delete "verbose" (st_args s1) = delete "verbose" (st_args s2) /\
  is_Some (st_args s1 !! "verbose") /\
  is_Some (st_args s2 !! "verbose") /\
  map erase_event (st_trace s1) = map erase_event (st_trace s2).

(** From related states, two computations end with the same result in
    related states. *)
Definition related (h : Host) {A} (m1 m2 : M h A) : Prop :=
  forall s1 s2, sim h s1 s2 ->
    fst (m1 s1) = fst (m2 s2) /\ sim h (snd (m1 s1)) (snd (m2 s2)).

(** Two command vectors that are the same child to the host and the
    same once [-v] is erased. *)
Definition cmd_sim (h : Host) (cmd1 cmd2 : list string) : Prop :=
  erase_v cmd1 = erase_v cmd2 /\
  forall fs cwd, spawn h fs cmd1 cwd = spawn h fs cmd2 cwd.

(** Two outcomes with the same result, the same file system and
    environment, and the same children up to the erased [-v]. *)
Definition same_effects {h : Host} {A} (o1 o2 : result A * state h) : Prop :=
  fst o1 = fst o2 /\
  st_fs (snd o1) = st_fs (snd o2) /\
  st_environ (snd o1) = st_environ (snd o2) /\
  map erase_event (st_trace (snd o1)) = map erase_event (st_trace (snd o2)).

(** ** Scenarios

    A namespace with every attribute the stages read, as the parser of the
    complete bootstrap script supplies them, to run the stages on. *)

Definition full_namespace (verbose release : bool) (swiftc llbuild : value)
  : gmap string value :=
  list_to_map
    [("build_dir", VStr ".build"); ("verbose", VBool verbose);
     ("swiftc_path", swiftc); ("release", VBool release);
     ("llbuild_build_dir", llbuild); ("llbuild_link_framework", VBool false);
     ("llbuild_source_dir", VStr "/w/llbuild");
     ("bootstrap_dir", VStr "/w/.build/bootstrap");
     ("install_prefixes", VList ["/usr/local"]);
     ("install_libspm", VBool false);
     ("parallel", VBool true); ("filter", VList ["Foo"; "Bar"])].

Definition state_with (h : Host) (fs : FS h) (ns : gmap string value) : state h :=
  set_args h ns (initial_state h fs ∅).

(** A Linux host where every command succeeds, with the full namespace
    and a pre-built dependency. *)
Definition working_start (verbose release : bool) : state Demo.linux :=
  state_with Demo.linux []
    (full_namespace verbose release (VStr "/usr/bin/swiftc") (VStr "/deps/llbuild")).

(** The same with the cache descriptor of the build directory [/b]. *)
Definition cached_start : state Demo.linux :=
  state_with Demo.linux ["/b/CMakeCache.txt"]
    (full_namespace true false (VStr "/usr/bin/swiftc") (VStr "/deps/llbuild")).

(** A Linux host on which the compile step fails. *)
Definition ninja_fails (cmd : list string) : bool := Demo.head_is "ninja" cmd.

Definition failing_host : Host := Demo.host "Linux" ninja_fails.

Definition failing_start : state failing_host :=
  state_with failing_host []
    (full_namespace false false (VStr "/usr/bin/swiftc") (VStr "/deps/llbuild")).

(** A Linux host without any file, on which [which] finds nothing, and
    the namespace of a command line on it. *)
Definition which_fails (cmd : list string) : bool := Demo.head_is "which" cmd.

Definition bare_host : Host := Demo.host "Linux" which_fails.

Definition bare_start (environ : gmap string string) (argv : list string)
  : state bare_host :=
  set_args bare_host (namespace_of argv) (initial_state bare_host [] environ).

(** ** The namespace of a command line *)

(** The attributes a sub-parser of [main] can assign. *)
Definition attributes (f : func) : list string :=
  ["command"; "func"; "build_dir"; "verbose"]
  ++ match f with
     | FClean => []
     | _ => ["swiftc_path"; "release"]
     end.

(** The namespace of the sub-command [f]: its function, a string for the
    build root, a boolean for [verbose], for [build] and [test] the compiler
    path ([None] or a string) and a boolean for [release], and nothing
    beyond the attributes of [f]. *)
Definition namespace_shape (f : func) (ns : gmap string value) : Prop :=
  ns !! "func" = Some (VFunc f) /\
  (exists bd, ns !! "build_dir" = Some (VStr bd)) /\
  (exists b, ns !! "verbose" = Some (VBool b)) /\
  (f <> FClean ->
   (exists o, ns !! "swiftc_path" = Some (flag_value o)) /\
   (exists r, ns !! "release" = Some (VBool r))) /\
  (forall k, is_Some (ns !! k) -> In k (attributes f)).

(** What the parser raises: the exit of the help option or of a usage
    error. *)
Definition parser_exit (e : exn) : Prop := e = SystemExit 0 \/ e = SystemExit 2.

(** The line [note] prints. *)
Definition note_line (h : Host) (message : string) : string :=
  "--- " +:+ Path.basename (argv0 h) +:+ ": note: " +:+ message.

(** ** Paths *)

(** A string without a slash. *)
Definition slash_free (x : string) : bool :=
  negb (existsb (Ascii.eqb "/"%char) (Str.chars x)).

(** A component of a normalized absolute path: a name that is not empty,
    not [.] and not [..]. *)
Definition plain (x : string) : bool :=
  (negb (String.eqb x "") && negb (String.eqb x ".") && negb (String.eqb x "..")
   && slash_free x)%bool.

(** A normalized absolute path: one slash, or two, then plain components
    separated by single slashes. *)
Definition canonical (p : string) : Prop :=
  exists (two : bool) comps,
    Forall (fun x => plain x = true) comps /\
    p = (if two then "//" else "/") +:+ Str.join "/" comps.

(** The name [symlink_force] gives the link: inside [link_name] when that
    is a directory. *)
Definition link_path (h : Host) (fs : FS h) (target link_name : string) : string :=
  if isdir h fs link_name then Path.join link_name (Path.basename target)
  else link_name.

(** ** Queries *)

(** The record of a [check_output] child run in the working directory of
    the script. *)
Definition query_event (cmd : list string) (r : proc_result) : spawn_event :=
  {| ev_kind := CheckOutput; ev_cmd := cmd; ev_cwd := None; ev_result := r |}.

(** What [subprocess] raises for a child that failed. *)
Definition child_error (cmd : list string) (r : proc_result) : exn :=
  match r with
  | Exited status _ => CalledProcessError status cmd
  | SpawnError n => OSError n
  end.

Definition triple_query : list string := ["clang"; "--print-target-triple"].

Definition sdk_query : list string := ["xcrun"; "--sdk"; "macosx"; "--show-sdk-path"].

(** The trace has grown from [tr0]. *)
Definition extends (h : Host) (tr0 : list spawn_event) (s : state h) : Prop :=
  exists new, st_trace s = tr0 ++ new.

(** The global [g_default_sysroot] is [g]: bound to a path, or unbound. *)
Definition sysroot_is (h : Host) (g : option string) (s : state h) : Prop :=
  st_sysroot s = g.

(** The trace has only grown and the global has not been assigned. *)
Definition grown (h : Host) (tr0 : list spawn_event) (g : option string)
    (s : state h) : Prop :=
  extends h tr0 s /\ sysroot_is h g s.

(** ** The stages, one by one *)

Definition touch_cmd : list string := ["touch"; "codemodel-v2"].

(** The trace has grown from [tr0], the global [g_default_sysroot] is
    unbound, and the stage commands run since are at most [k] and all the
    [touch] of the query directory. *)
Definition stuck_at_touch (h : Host) (tr0 : list spawn_event) (k : nat)
    (s : state h) : Prop :=
  st_sysroot s = None /\
  exists new,
    st_trace s = tr0 ++ new /\
    Forall (fun ev => is_call ev = true -> ev_cmd ev = touch_cmd) new /\
    (length (stage_commands new) <= k)%nat.

(** No pre-built dependency is named. *)
Definition no_prebuilt_llbuild (h : Host) (s : state h) : Prop :=
  forall lv, st_args s !! "llbuild_build_dir" = Some lv -> truthy lv = false.

(** The flags [build_with_cmake] passes for the Swift compiler: the SDK on
    Darwin, where the global is bound, and nothing elsewhere. *)
Definition swift_flags (h : Host) (s : state h) : option string :=
  if is_darwin h then (fun g => "-sdk " +:+ g) <$> st_sysroot s else Some "".

(** The argument of the configure step of Stage 2 that names the
    dependency. *)
Definition llbuild_arg (link_framework : value) (ld : string) : string :=
  if truthy link_framework then "-DLLBUILD_FRAMEWORK=" +:+ ld
  else "-DLLBuild_DIR=" +:+ Path.join ld "cmake/modules".

(** The command vector of the configure step of Stage 2. *)
Definition stage_2_configure (h : Host) (flags sp : string) (lf : value)
    (ld bin prefix : string) (libspm : value) : list string :=
  ["cmake"; "-G"; "Ninja";
   "-DCMAKE_BUILD_TYPE:=Debug";
   "-DCMAKE_Swift_FLAGS=" +:+ flags;
   "-DCMAKE_Swift_COMPILER:=" +:+ sp;
   llbuild_arg lf ld;
   "-DSWIFTPM_BUILD_DIR=" +:+ bin;
   "-DUSE_VENDORED_TSC=ON";
   "-DCMAKE_INSTALL_PREFIX=" +:+ prefix;
   "-DINSTALL_LIBSWIFTPM=" +:+ (if truthy libspm then "ON" else "OFF");
   g_project_root h].

(** The attributes the self-hosted build reads. *)
Record config := {
  cf_swiftc : string;
  cf_build_dir : string;
  cf_bootstrap : string;
  cf_llbuild : string;
  cf_framework : value;
  cf_release : value;
}.

Definition has_config (h : Host) (c : config) (s : state h) : Prop :=
  st_args s !! "swiftc_path" = Some (VStr (cf_swiftc c)) /\
  st_args s !! "build_dir" = Some (VStr (cf_build_dir c)) /\
  st_args s !! "bootstrap_dir" = Some (VStr (cf_bootstrap c)) /\
  st_args s !! "llbuild_build_dir" = Some (VStr (cf_llbuild c)) /\
  st_args s !! "llbuild_link_framework" = Some (cf_framework c) /\
  st_args s !! "release" = Some (cf_release c).

(** The command vector of a child of [call_swiftpm]: the overlay, the
    command, the flags. *)
Definition swiftpm_cmd (c : config) (cmd : list string) : list string :=
  expected_overlay (cf_swiftc c) (cf_build_dir c) (cf_bootstrap c) (cf_llbuild c)
    (truthy (cf_framework c))
  ++ cmd
  ++ ["--disable-index-store"] ++ (if truthy (cf_release c) then release_flags else []).

(** The command of Stage 3. *)
Definition swift_build_cmd (c : config) : list string :=
  swiftpm_cmd c [Path.join (cf_bootstrap c) "bin/swift-build"; "--build-tests"].

(** The elements a [for] loop draws from a value. *)
Definition elements (v : value) : option (list string) :=
  match v with
  | VList l => Some l
  | VStr x => Some (map (fun a => String a EmptyString) (Str.chars x))
  | _ => None
  end.

(** The command of Stage 4. *)
Definition swift_test_cmd (c : config) (bin : string) (parallel : value)
    (filters : list string) : list string :=
  swiftpm_cmd c ([Path.join bin "swift-test"]
                 ++ (if truthy parallel then ["--parallel"] else [])
                 ++ flat_map (fun arg => ["--filter"; arg]) filters).

(** The attributes [clean_build_args] assigns. *)
Definition cleaned (k : string) : bool :=
  existsb (String.eqb k) ["build_dir"; "swiftc_path"; "target_dir"; "conf"; "bin_dir"].

(** Since [s0] no stage command was run and only the attributes of the
    clean-up were assigned. *)
Definition only_cleaned (h : Host) (s0 s : state h) : Prop :=
  stage_commands (st_trace s) = stage_commands (st_trace s0) /\
  forall k, cleaned k = false -> st_args s !! k = st_args s0 !! k.

(** Neither the namespace nor the trace has changed since [s0]. *)
Definition steady (h : Host) (s0 s : state h) : Prop :=
  st_args s = st_args s0 /\ st_trace s = st_trace s0.

(** ** Every child *)

(** A child, of either kind, that did not exit with status 0. *)
Definition child_failed (ev : spawn_event) : bool := negb (proc_ok (ev_result ev)).

Definition all_children_ok (tr : list spawn_event) : Prop :=
  Forall (fun ev => child_failed ev = false) tr.

(** No child has failed so far. *)
Definition no_child_failed (h : Host) (s : state h) : Prop :=
  all_children_ok (st_trace s).

(** The failed child is the last child. *)
Definition stopped_at_child (h : Host) (s : state h) : Prop :=
  exists pre ev,
    st_trace s = pre ++ [ev] /\ all_children_ok pre /\ child_failed ev = true.

Definition failed_child_exit (h : Host) (e : exn) (s : state h) : Prop :=
  no_child_failed h s \/ (exit_code e <> 0 /\ stopped_at_child h s).

(** At the end of a run a failed child is the last child, and the exit
    status is not 0. *)
Definition stops_at_first_failure {h : Host} {A} (out : result A * state h) : Prop :=
  forall pre ev post,
    st_trace (snd out) = pre ++ ev :: post -> child_failed ev = true ->
    post = [] /\ exit_status (fst out) <> 0.

(** The attributes the actions assign. *)
Definition assigned (k : string) : bool :=
  existsb (String.eqb k)
    ["build_dir"; "swiftc_path"; "target_dir"; "conf"; "bin_dir"; "llbuild_build_dir"].

(** The attributes the actions do not assign are those of [s0]. *)
Definition other_attributes_kept (h : Host) (s0 s : state h) : Prop :=
  forall k, assigned k = false -> st_args s !! k = st_args s0 !! k.

(** ** More scenarios *)

(** A host with directories and symbolic links, to run the helpers of the
    file system on: an entry is created once, [remove] deletes a link and
    refuses a directory, and every command succeeds. *)
Module Disk.

Record disk := {
  dirs : list string;
  links : list (string * string);     (* the name of the link, its target *)
}.

Definition has_dir (p : string) (d : disk) : bool := Demo.mem p (dirs d).

Definition has_link (p : string) (d : disk) : bool :=
  existsb (fun l => String.eqb (fst l) p) (links d).

Definition present (p : string) (d : disk) : bool := (has_dir p d || has_link p d)%bool.

Definition ENOENT : Z := 2.
Definition EISDIR : Z := 21.

Definition make (d : disk) (p : string) : option Z * disk :=
  if present p d then (Some EEXIST, d)
  else (None, {| dirs := p :: dirs d; links := links d |}).

Definition link (d : disk) (target link_name : string) : option Z * disk :=
  if present link_name d then (Some EEXIST, d)
  else (None, {| dirs := dirs d; links := (link_name, target) :: links d |}).

Definition unlink (d : disk) (p : string) : option Z * disk :=
  if has_link p d then
    (None, {| dirs := dirs d;
              links := List.filter (fun l => negb (String.eqb (fst l) p)) (links d) |})
  else if has_dir p d then (Some EISDIR, d)
  else (Some ENOENT, d).

Definition host : Host :=
  {| FS := disk;
     platform_system := "Linux";
     script_file := "Utilities/build-script-helper.py";
     argv0 := "Utilities/build-script-helper.py";
     getcwd := "/w";
     isfile := fun _ _ => false;
     isdir := fun d p => has_dir p d;
     path_exists := fun d p => present p d;
     realpath := fun _ p => p;
     makedirs := make;
     symlink := link;
     remove := unlink;
     spawn := fun d _ _ => (Exited 0 "", d) |}.

Definition empty : disk := {| dirs := []; links := [] |}.

(** A state with the two directories [make_symlinks] reads. *)
Definition start (d : disk) : state host :=
  state_with host d
    (list_to_map [("target_dir", VStr "/b/t"); ("bootstrap_dir", VStr "/b/boot")]).

End Disk.

(** A Linux host on which the query of the target triple fails. *)
Definition clang_fails (cmd : list string) : bool := Demo.head_is "clang" cmd.

Definition no_clang_host : Host := Demo.host "Linux" clang_fails.

Definition no_clang_start : state no_clang_host :=
  state_with no_clang_host []
    (full_namespace true false (VStr "/usr/bin/swiftc") (VStr "/deps/llbuild")).

(** The Linux host with the full namespace and no pre-built dependency. *)
Definition bootstrap_start : state Demo.linux :=
  state_with Demo.linux [] (full_namespace false false (VStr "/usr/bin/swiftc") VNone).

(** The working start after the clean-up of the arguments. *)
Definition assembled_start : state Demo.linux :=
  snd (clean_build_args Demo.linux (working_start false false)).

(** The same without any install prefix. *)
Definition no_prefix_start : state Demo.linux :=
  set_args Demo.linux (<["install_prefixes" := VList []]> (st_args assembled_start))
    assembled_start.

(** A Darwin host on which every command succeeds, loaded, with the full
    namespace, no pre-built dependency and the arguments cleaned up. *)
Definition darwin_start : state Demo.darwin :=
  snd (clean_build_args Demo.darwin
         (snd (module_init Demo.darwin
                 (state_with Demo.darwin []
                    (full_namespace false false (VStr "/usr/bin/swiftc") VNone))))).

(** Where [get_llbuild_source_path] looks for the sources of the
    dependency: next to the project, the path not normalized. *)
Definition llbuild_checkout (h : Host) : string :=
  Path.join (Path.join (g_project_root h) "..") "llbuild".

(** The line [error] prints. *)
Definition error_line (h : Host) (message : string) : string :=
  "--- " +:+ Path.basename (argv0 h) +:+ ": error: " +:+ message.

(** The working start with its arguments cleaned upand no source
    directory of the dependency. *)
Definition no_sources_start : state Demo.linux :=
  set_args Demo.linux (<["llbuild_source_dir" := VNone]> (st_args assembled_start))
    assembled_start.

(** * Reasoning *)

(** ** The helpers of strings and paths on examples *)

Example split_ex : Str.split "/" "/a/b" = [""; "a"; "b"].
Proof. reflexivity. Qed.

Example strip_ex : Str.strip "  x86_64-unknown-linux-gnu
" = "x86_64-unknown-linux-gnu".
Proof. reflexivity. Qed.

Example join_ex :
  Path.join "/b" "t" = "/b/t" /\ Path.join "/b/" "t" = "/b/t" /\ Path.join "/b" "/t" = "/t".
Proof. repeat split; reflexivity. Qed.

Example basename_ex :
  Path.basename "/usr/bin/swift" = "swift" /\ Path.dirname "/usr/bin/swift" = "/usr/bin".
Proof. split; reflexivity. Qed.

Example abspath_ex :
  Path.abspath "/w" ".build" = "/w/.build" /\ Path.abspath "/w" "../x/./y/" = "/x/y".
Proof. split; reflexivity. Qed.

(** [clean_build_args] is its two halves in sequence. *)
Lemma clean_build_args_blocks (h : Host) :
  clean_build_args h = (clean_global_args h;; resolve_swiftc_then h (derive_dirs h)).
Proof. reflexivity. Qed.

(** ** A program logic for the script *)

Section Hoare.

Context (h : Host).

Local Abbreviation hoare := (hoare h).

Lemma hoare_bind {A B} P (m : M h A) (f : A -> M h B) Q R X :
  hoare P m Q X -> (forall a, hoare (Q a) (f a) R X) ->
  hoare P (bind m f) R X.
Proof.
  intros Hm Hf s Hs. unfold bind. specialize (Hm s Hs).
  destruct (m s) as [[a|e] s']; [exact (Hf a s' Hm) | exact Hm].
Qed.

Lemma hoare_try {A} P (body : M h A) handler Q X Y :
  hoare P body Q Y -> (forall e, hoare (Y e) (handler e) Q X) ->
  hoare P (try_except body handler) Q X.
Proof.
  intros Hb Hh s Hs. unfold try_except. specialize (Hb s Hs).
  destruct (body s) as [[a|e] s']; [exact Hb | exact (Hh e s' Hb)].
Qed.

Lemma hoare_weaken {A} (P P' : state h -> Prop) (m : M h A) Q X :
  (forall s, P' s -> P s) -> hoare P m Q X -> hoare P' m Q X.
Proof. intros HP Hm s Hs. apply Hm, HP, Hs. Qed.

End Hoare.

(** ** Invariants of a run

    An invariant [I] of the states.  The section proves, function by
    function, that the script keeps [I] as long as the primitive steps
    do: first for the functions that never reach [call], which keep it
    even when they raise, then for the stages. *)

Section Invariant.

Context (h : Host).
Variable I : state h -> Prop.

Hypothesis I_fs : forall f s, I s -> I (set_fs h f s).
Hypothesis I_stdout : forall line s, I s -> I (add_stdout h line s).
Hypothesis I_output :
  forall cmd cwd r s,
    I s -> I (add_event h {| ev_kind := CheckOutput; ev_cmd := cmd;
                            ev_cwd := cwd; ev_result := r |} s).

(** The attributes the invariant lets the script assign. *)
Variable assignable : string -> bool.
Hypothesis I_args :
  forall k v s, assignable k = true -> I s ->
    I (set_args h (<[k := v]> (st_args s)) s).

Local Abbreviation quiet := (quiet h I).

Lemma quiet_bind {A B} (m : M h A) (f : A -> M h B) :
  quiet m -> (forall a, quiet (f a)) -> quiet (bind m f).
Proof. intros; eapply hoare_bind; eauto. Qed.

Lemma quiet_ret {A} (a : A) : quiet (ret a).
Proof. intros s Hs; exact Hs. Qed.

Lemma quiet_raise {A} e : exit_code e = 1 -> quiet (@raise h A e).
Proof. intros He s Hs; simpl; auto. Qed.

Lemma quiet_getattr k : quiet (getattr h k).
Proof.
  intros s Hs; unfold getattr. destruct (st_args s !! k); simpl; auto.
Qed.

Lemma quiet_setattr k v : assignable k = true -> quiet (setattr h k v).
Proof. intros Hk s Hs; simpl; auto. Qed.

Lemma quiet_print line : quiet (print h line).
Proof. intros s Hs; simpl; auto. Qed.

Lemma quiet_note msg : quiet (note h msg).
Proof. apply quiet_print. Qed.

Lemma quiet_error {A} msg : quiet (@error h A msg).
Proof.
  apply quiet_bind; [apply quiet_print | intros _; apply quiet_raise; reflexivity].
Qed.

Lemma quiet_as_str v : quiet (as_str h v).
Proof. destruct v; first [apply quiet_ret | apply quiet_raise; reflexivity]. Qed.

Lemma quiet_as_cwd v : quiet (as_cwd h v).
Proof. destruct v; first [apply quiet_ret | apply quiet_raise; reflexivity]. Qed.

Lemma quiet_index0 v : quiet (index0 h v).
Proof.
  destruct v as [| |[|]|[|]|];
    first [apply quiet_ret | apply quiet_raise; reflexivity].
Qed.

Lemma quiet_iterate v : quiet (iterate h v).
Proof. destruct v; first [apply quiet_ret | apply quiet_raise; reflexivity]. Qed.

Lemma quiet_local_var {A} name (b : option A) : quiet (local_var name b).
Proof. destruct b; first [apply quiet_ret | apply quiet_raise; reflexivity]. Qed.

Lemma quiet_when b m : quiet m -> quiet (when b m).
Proof. destruct b; [auto | intros _; apply quiet_ret]. Qed.

Lemma quiet_getenv k : quiet (os_getenv h k).
Proof. intros s Hs; exact Hs. Qed.
Lemma quiet_isfile p : quiet (os_path_isfile h p).
Proof. intros s Hs; exact Hs. Qed.
Lemma quiet_isdir p : quiet (os_path_isdir h p).
Proof. intros s Hs; exact Hs. Qed.
Lemma quiet_exists p : quiet (os_path_exists h p).
Proof. intros s Hs; exact Hs. Qed.
Lemma quiet_realpath p : quiet (os_path_realpath h p).
Proof. intros s Hs; exact Hs. Qed.

Lemma quiet_sysroot : quiet (g_default_sysroot h).
Proof.
  intros s Hs; unfold g_default_sysroot. destruct (st_sysroot s); simpl; auto.
Qed.

Lemma quiet_run_output cmd cwd : quiet (run_child h CheckOutput cmd cwd).
Proof.
  intros s Hs. unfold run_child.
  destruct (spawn h (st_fs s) cmd cwd) as [[status out|n] f].
  - destruct (status =? 0); simpl; auto.
  - simpl; auto.
Qed.

Lemma quiet_mkdir_p p : quiet (mkdir_p h p).
Proof.
  intros s Hs. unfold mkdir_p, try_except, os_makedirs, os_result.
  destruct (makedirs h (st_fs s) p) as [[n|] f]; simpl; auto.
  destruct (n =? EEXIST); simpl; auto.
Qed.

Lemma quiet_symlink_force target link_name : quiet (symlink_force h target link_name).
Proof.
  intros s Hs. unfold symlink_force, bind, os_path_isdir, try_except.
  set (l := if isdir h (st_fs s) link_name then _ else _). clearbody l.
  unfold os_symlink at 1. unfold os_result.
  destruct (symlink h (st_fs s) target l) as [[n|] f]; simpl; auto.
  destruct (n =? EEXIST); simpl; auto.
  unfold bind, os_remove, os_result; simpl.
  destruct (remove h f l) as [[n1|] f1]; simpl; auto.
  unfold os_symlink, os_result; simpl.
  destruct (symlink h f1 target l) as [[n2|] f2]; simpl; auto.
Qed.

(** [try: body except: error(msg)] *)
Lemma quiet_try_error {A} (body : M h A) msg :
  quiet body -> quiet (try_except body (fun _ => error msg)).
Proof.
  intros Hb. eapply hoare_try; [exact Hb |].
  intros e s [_ Hs]. simpl. auto.
Qed.

Create HintDb quiet discriminated.

Hint Resolve quiet_ret quiet_getattr quiet_setattr quiet_print quiet_note
  quiet_error quiet_as_str quiet_as_cwd quiet_index0 quiet_iterate
  quiet_local_var quiet_getenv quiet_isfile quiet_isdir quiet_exists
  quiet_realpath quiet_sysroot quiet_run_output quiet_mkdir_p
  quiet_symlink_force : quiet.

Ltac quiet_step :=
  lazymatch goal with
  | |- quiet (bind _ _) => apply quiet_bind; [| intros ?]
  | |- quiet (raise _) => apply quiet_raise; reflexivity
  | |- quiet (when _ _) => apply quiet_when
  | |- quiet (try_except _ (fun _ => error _)) => apply quiet_try_error
  | |- quiet (if ?b then _ else _) => destruct b
  | |- quiet (let x := _ in _) => cbv zeta
  | |- quiet _ => solve [auto with quiet]
  end.

Ltac quiet_auto := repeat quiet_step.

Lemma quiet_path_join a b : quiet (path_join h a b).
Proof. unfold path_join. quiet_auto. Qed.

Lemma quiet_abspath v : quiet (os_path_abspath h v).
Proof. unfold os_path_abspath. quiet_auto. Qed.

Lemma quiet_check_output cmd cwd : quiet (subprocess_check_output h cmd cwd).
Proof. unfold subprocess_check_output. quiet_auto. Qed.

Hint Resolve quiet_path_join quiet_abspath quiet_check_output : quiet.

Lemma quiet_call_output cmd cwd : quiet (call_output h cmd cwd).
Proof. unfold call_output. quiet_auto. Qed.

Hint Resolve quiet_call_output : quiet.

Lemma quiet_get_build_target : quiet (get_build_target h).
Proof. unfold get_build_target. quiet_auto. Qed.

Lemma quiet_get_swiftc_path : quiet (get_swiftc_path h).
Proof. unfold get_swiftc_path. quiet_auto. Qed.

Lemma quiet_get_llbuild_cmake_arg : quiet (get_llbuild_cmake_arg h).
Proof. unfold get_llbuild_cmake_arg. quiet_auto. Qed.

Lemma quiet_get_llbuild_source_path : quiet (get_llbuild_source_path h).
Proof. unfold get_llbuild_source_path. quiet_auto. Qed.

Lemma quiet_get_swiftpm_env_cmd : quiet (get_swiftpm_env_cmd h).
Proof. unfold get_swiftpm_env_cmd. quiet_auto. Qed.

Lemma quiet_get_swiftpm_flags : quiet (get_swiftpm_flags h).
Proof. unfold get_swiftpm_flags. quiet_auto. Qed.

Lemma quiet_make_symlinks : quiet (make_symlinks h).
Proof. unfold make_symlinks. quiet_auto. Qed.

Hint Resolve quiet_get_build_target quiet_get_swiftc_path
  quiet_get_llbuild_cmake_arg quiet_get_llbuild_source_path
  quiet_get_swiftpm_env_cmd quiet_get_swiftpm_flags quiet_make_symlinks : quiet.

(** *** Argument clean-up assigns five attributes *)

Hypothesis assign_build_dir : assignable "build_dir" = true.
Hypothesis assign_swiftc_path : assignable "swiftc_path" = true.
Hypothesis assign_target_dir : assignable "target_dir" = true.
Hypothesis assign_conf : assignable "conf" = true.
Hypothesis assign_bin_dir : assignable "bin_dir" = true.

Lemma quiet_clean_global_args : quiet (clean_global_args h).
Proof. unfold clean_global_args. quiet_auto. Qed.

Hint Resolve quiet_clean_global_args : quiet.

Lemma quiet_derive_dirs : quiet (derive_dirs h).
Proof. unfold derive_dirs. quiet_auto. Qed.

Lemma quiet_resolve_swiftc_then {A} (k : M h A) :
  quiet k -> quiet (resolve_swiftc_then h k).
Proof. intros Hk. unfold resolve_swiftc_then. quiet_auto. Qed.

Lemma quiet_clean_build_args : quiet (clean_build_args h).
Proof. unfold clean_build_args. quiet_auto. Qed.

Hint Resolve quiet_clean_build_args : quiet.

(** *** The stages

    An exception of a stage may leave in a state [X] outside the
    invariant, as long as [call] itself goes from [I] to [I] or [X]. *)

Variable X : exn -> state h -> Prop.
Hypothesis X_raise : forall e s, exit_code e = 1 -> I s -> X e s.

Local Abbreviation keeps := (keeps h I X).

Lemma quiet_keeps {A} (m : M h A) : quiet m -> keeps m.
Proof.
  intros Hm s Hs. specialize (Hm s Hs).
  destruct (m s) as [[a|e] s']; [exact Hm | destruct Hm; auto].
Qed.

Lemma keeps_bind {A B} (m : M h A) (f : A -> M h B) :
  keeps m -> (forall a, keeps (f a)) -> keeps (bind m f).
Proof. intros; eapply hoare_bind; eauto. Qed.

Lemma quiet_bind_post {A B} Q (m : M h A) (f : A -> M h B) :
  quiet m -> (forall a, hoare h I (f a) Q X) -> hoare h I (bind m f) Q X.
Proof. intros Hm Hf. eapply hoare_bind; [apply quiet_keeps, Hm | exact Hf]. Qed.

(** Settling the compiler keeps the invariant, whatever follows. *)
Lemma resolve_swiftc_then_post {A} Q (k : M h A) :
  hoare h I k Q X -> hoare h I (resolve_swiftc_then h k) Q X.
Proof.
  intros Hk. unfold resolve_swiftc_then.
  repeat (apply quiet_bind_post; [quiet_auto | intros ?]). exact Hk.
Qed.

Hypothesis keeps_call : forall cmd cwd, keeps (call h cmd cwd).
Hypothesis assign_llbuild_build_dir : assignable "llbuild_build_dir" = true.

Ltac keeps_step :=
  lazymatch goal with
  | |- keeps (bind _ _) => apply keeps_bind; [| intros ?]
  | |- keeps (call _ _ _) => apply keeps_call
  | |- keeps (if ?b then _ else _) => destruct b
  | |- keeps (let x := _ in _) => cbv zeta
  | |- keeps _ => first [assumption | solve [apply quiet_keeps; quiet_auto]]
  end.

Ltac keeps_auto := repeat keeps_step.

Lemma keeps_build_with_cmake cmake_args source_path build_dir :
  keeps (build_with_cmake h cmake_args source_path build_dir).
Proof. unfold build_with_cmake. keeps_auto. Qed.

Lemma keeps_build_llbuild : keeps (build_llbuild h).
Proof. unfold build_llbuild. keeps_auto. apply keeps_build_with_cmake. Qed.

Lemma keeps_build_swiftpm_with_cmake : keeps (build_swiftpm_with_cmake h).
Proof. unfold build_swiftpm_with_cmake. keeps_auto. apply keeps_build_with_cmake. Qed.

Lemma keeps_call_swiftpm cmd : keeps (call_swiftpm h cmd).
Proof. unfold call_swiftpm. keeps_auto. Qed.

Lemma keeps_build_swiftpm_with_swiftpm : keeps (build_swiftpm_with_swiftpm h).
Proof. unfold build_swiftpm_with_swiftpm. keeps_auto. apply keeps_call_swiftpm. Qed.

Lemma keeps_clean : keeps (clean h).
Proof. unfold clean. keeps_auto. Qed.

Lemma keeps_build : keeps (build h).
Proof.
  unfold build. keeps_auto;
    first [ apply keeps_build_llbuild | apply keeps_build_swiftpm_with_cmake
          | apply keeps_build_swiftpm_with_swiftpm ].
Qed.

Lemma keeps_test : keeps (test h).
Proof.
  unfold test, clean_test_args. keeps_auto;
    first [apply keeps_build | apply keeps_call_swiftpm].
Qed.

Lemma keeps_install : keeps (install h).
Proof. unfold install. keeps_auto. apply keeps_build. Qed.

Lemma keeps_call_func v : keeps (call_func h v).
Proof.
  destruct v as [| | | |[]]; simpl;
    first [ apply quiet_keeps, quiet_raise; reflexivity | apply keeps_clean
          | apply keeps_build | apply keeps_test ].
Qed.

(** *** The whole script *)

Hypothesis I_namespace : forall ns s, I s -> I (set_args h ns s).
Hypothesis I_sysroot : forall g s, I s -> I (set_sysroot h g s).
Hypothesis X_exit : forall c s, I s -> X (SystemExit c) s.
Hypothesis assign_func : assignable "func" = true.

Lemma keeps_main argv : keeps (main h argv).
Proof.
  unfold main. apply keeps_bind.
  - intros s Hs. destruct (parse_args argv false) as [ns|e]; simpl; auto.
    destruct e; first [apply X_exit; assumption | apply X_raise; auto].
  - intros _. keeps_auto. apply keeps_call_func.
Qed.

Lemma keeps_module_init : keeps (module_init h).
Proof.
  unfold module_init. keeps_auto. intros s Hs; simpl; auto.
Qed.

Lemma keeps_script argv : keeps (script h argv).
Proof.
  unfold script. apply keeps_bind; [apply keeps_module_init | intros _; apply keeps_main].
Qed.

End Invariant.

(** ** What a single [call] does *)

Section CallFacts.

Context (h : Host).

(** [call] with a working directory that is [None] or a string, in a
    namespace that has [verbose]: the child is run once; when it exits
    with status 0 the call returns, having echoed the command if
    verbose. *)
Lemma call_success cmd d v s out f :
  st_args s !! "verbose" = Some v ->
  spawn h (st_fs s) cmd d = (Exited 0 out, f) ->
  call h cmd (cwd_value d) s =
    (Ok tt,
     add_event h (call_event cmd d (Exited 0 out))
       (set_fs h f (if truthy v then add_stdout h (Str.join " " cmd) s else s))).
Proof.
  intros Hv Hsp.
  unfold call, bind, getattr. rewrite Hv.
  destruct (truthy v) eqn:Ht; simpl;
    unfold call_try, subprocess_check_call, bind, run_child;
    destruct d; simpl; rewrite Hsp; simpl; reflexivity.
Qed.

(** When the child fails, the command line is the last line printed and
    reading [result] raises [NameError]. *)
Lemma call_failure cmd d v s r f :
  st_args s !! "verbose" = Some v ->
  spawn h (st_fs s) cmd d = (r, f) ->
  proc_ok r = false ->
  call h cmd (cwd_value d) s =
    (Raise (NameError "result"),
     add_stdout h (Str.join " " cmd)
       (add_event h (call_event cmd d r) (set_fs h f s))).
Proof.
  intros Hv Hsp Hr.
  unfold call, bind, getattr. rewrite Hv.
  destruct (truthy v) eqn:Ht; simpl;
    unfold call_try, subprocess_check_call, bind, run_child;
    destruct d; simpl; rewrite Hsp; simpl;
    destruct r as [status out|n]; simpl in *;
    try (destruct (status =? 0) eqn:Hz;
         [apply Z.eqb_eq in Hz; subst status; discriminate |]);
    simpl; unfold getattr; simpl; rewrite Hv, Ht; simpl; reflexivity.
Qed.

(** Whatever the namespace and the working directory: [call] runs at
    most one child, a [check_call] of [cmd], leaves the environment and
    the namespace alone, and returns exactly when the child succeeded. *)
Lemma call_cases cmd cwd s :
  let '(r, s') := call h cmd cwd s in
  st_environ s' = st_environ s /\ st_args s' = st_args s /\
  st_sysroot s' = st_sysroot s /\
  ((st_trace s' = st_trace s /\ st_fs s' = st_fs s /\ exists e, r = Raise e /\ exit_code e = 1)
   \/ exists d res,
        cwd = cwd_value d /\
        st_fs s' = snd (spawn h (st_fs s) cmd d) /\
        res = fst (spawn h (st_fs s) cmd d) /\
        st_trace s' = st_trace s ++ [call_event cmd d res] /\
        (if proc_ok res then r = Ok tt
         else r = Raise (NameError "result") /\
              last (st_stdout s') = Some (Str.join " " cmd))).
Proof.
  unfold call, bind, getattr.
  destruct (st_args s !! "verbose") as [v|] eqn:Hv; simpl.
  2:{ repeat split; auto. left. repeat split; eauto. }
  assert (Hcases :
    (exists d, cwd = cwd_value d) \/ as_cwd h cwd = raise TypeError).
  { destruct cwd; simpl; auto; left;
      [exists None | eexists (Some _)]; reflexivity. }
  destruct Hcases as [[d ->]|Hbad].
  - destruct (spawn h (st_fs s) cmd d) as [res f] eqn:Hsp.
    destruct (proc_ok res) eqn:Hok.
    + destruct res as [status out|n]; try discriminate.
      destruct status; try discriminate.
      pose proof (call_success cmd d v s out f Hv Hsp) as Hc.
      unfold call, bind, getattr in Hc. rewrite Hv in Hc. simpl in Hc.
      rewrite Hc. simpl.
      repeat split; try (destruct (truthy v); reflexivity).
      right. exists d, (Exited 0 out). rewrite Hsp. simpl.
      repeat split; destruct (truthy v); reflexivity.
    + pose proof (call_failure cmd d v s res f Hv Hsp Hok) as Hc.
      unfold call, bind, getattr in Hc. rewrite Hv in Hc. simpl in Hc.
      rewrite Hc. simpl.
      repeat split; auto.
      right. exists d, res. rewrite Hsp, Hok. simpl.
      repeat split; auto. apply last_snoc.
  - unfold call_try, subprocess_check_call, bind. rewrite Hbad. simpl.
    unfold getattr.
    destruct (truthy v) eqn:Ht; simpl; rewrite Hv; simpl; rewrite Ht; simpl;
      (repeat split; auto; left; repeat split; eauto).
Qed.

End CallFacts.

(** ** Fail-fast

    The invariant: no [check_call] child has failed so far.  An exception
    may leave with the failed child as the last event of the trace and its
    command line as the last line printed. *)

Section FailFast.

Context (h : Host).

Local Abbreviation no_failure := (no_failure h).
Local Abbreviation stopped_at_failure := (stopped_at_failure h).
Local Abbreviation failed_exit := (failed_exit h).
Local Abbreviation fail_fast := (fail_fast h).

Lemma call_event_failed cmd d res :
  call_failed (call_event cmd d res) = negb (proc_ok res).
Proof. reflexivity. Qed.

Lemma call_fail_fast cmd cwd : keeps h no_failure failed_exit (call h cmd cwd).
Proof.
  intros s Hs. pose proof (call_cases h cmd cwd s) as Hc.
  destruct (call h cmd cwd s) as [r s'].
  destruct Hc as (_ & _ & _ & [(Htr & _ & e & -> & He)|(d & res & _ & _ & _ & Htr & Hr)]).
  - split; [rewrite He; discriminate |].
    left. unfold no_failure. rewrite Htr. exact Hs.
  - destruct (proc_ok res) eqn:Hok.
    + subst r. unfold no_failure, all_calls_ok. rewrite Htr.
      apply Forall_app; split; [exact Hs |].
      constructor; [| constructor]. rewrite call_event_failed, Hok. reflexivity.
    + destruct Hr as [-> Hlast]. split; [discriminate |].
      right. exists (st_trace s), (call_event cmd d res).
      repeat split; auto. rewrite call_event_failed, Hok. reflexivity.
Qed.

Lemma all_calls_ok_split pre ev post :
  all_calls_ok (pre ++ ev :: post) -> call_failed ev = false.
Proof.
  intros H. apply Forall_app in H as [_ H]. inversion H; assumption.
Qed.

Lemma keeps_fail_fast {A} (m : M h A) s :
  keeps h no_failure failed_exit m -> no_failure s -> fail_fast (m s).
Proof.
  intros Hm Hs pre ev post Htr Hev. specialize (Hm s Hs).
  destruct (m s) as [[a|e] s']; simpl in *.
  - unfold no_failure in Hm. rewrite Htr in Hm.
    apply all_calls_ok_split in Hm. congruence.
  - destruct Hm as [He [Hok|(pre' & ev' & Htr' & Hpre & Hev' & Hlast)]].
    + unfold no_failure in Hok. rewrite Htr in Hok.
      apply all_calls_ok_split in Hok. congruence.
    + rewrite Htr in Htr'.
      destruct post as [|x post].
      * apply app_inj_tail in Htr' as [_ <-]. auto.
      * exfalso.
        assert (Hin : all_calls_ok (pre ++ [ev])).
        { replace (pre ++ ev :: x :: post) with ((pre ++ [ev]) ++ x :: post) in Htr'
            by (rewrite <- app_assoc; reflexivity).
          destruct (exists_last (l := x :: post)) as (post' & y & Hp);
            [discriminate |].
          rewrite Hp, app_assoc in Htr'.
          apply app_inj_tail in Htr' as [<- _].
          apply Forall_app in Hpre as [Hpre _]. exact Hpre. }
        apply Forall_app in Hin as [_ Hin]. inversion Hin. congruence.
Qed.

Lemma no_failure_output cmd cwd r (s : state h) :
  no_failure s ->
  no_failure (add_event h {| ev_kind := CheckOutput; ev_cmd := cmd;
                             ev_cwd := cwd; ev_result := r |} s).
Proof.
  intros Hs. unfold no_failure, all_calls_ok; simpl.
  apply Forall_app; split; [exact Hs | constructor; [reflexivity | constructor]].
Qed.

Lemma failed_exit_raise e (s : state h) :
  exit_code e = 1 -> no_failure s -> failed_exit e s.
Proof. intros He Hs; split; [rewrite He; discriminate | left; exact Hs]. Qed.

End FailFast.

(** C2. A [check_call] child that fails ends the run of every action: it
    is the last child run (no later command, so no later stage), the
    process exits with a nonzero status, and the command line of the failed
    child is the last line the script printed, verbose or not. *)
Theorem failing_command_aborts_the_pipeline (h : Host) (s : state h) :
  no_failure h s ->
  fail_fast h (clean h s) /\ fail_fast h (build h s) /\
  fail_fast h (test h s) /\ fail_fast h (install h s).
Proof.
  intros Hs.
  split; [| split; [| split]]; (apply keeps_fail_fast; [| exact Hs]);
    [ apply keeps_clean with (assignable := any_attribute)
    | apply keeps_build with (assignable := any_attribute)
    | apply keeps_test with (assignable := any_attribute)
    | apply keeps_install with (assignable := any_attribute) ];
    first [ reflexivity | apply call_fail_fast | apply failed_exit_raise
          | apply no_failure_output | intros; assumption ].
Qed.

(** [build] where the compile step fails: the failed [ninja] is the last
    child and its command line the last line printed. *)
Example failing_build_run :
  let out := build failing_host failing_start in
  fst out = Raise (NameError "result") /\
  map ev_cmd (st_trace (snd out)) =
    [["clang"; "--print-target-triple"];
     ["cmake"; "-G"; "Ninja"; "-DCMAKE_BUILD_TYPE:=Debug"; "-DCMAKE_Swift_FLAGS=";
      "-DCMAKE_Swift_COMPILER:=/usr/bin/swiftc";
      "-DLLBuild_DIR=/deps/llbuild/cmake/modules";
      "-DSWIFTPM_BUILD_DIR=/w/.build/x86_64-unknown-linux-gnu/debug";
      "-DUSE_VENDORED_TSC=ON"; "-DCMAKE_INSTALL_PREFIX=/usr/local";
      "-DINSTALL_LIBSWIFTPM=OFF"; "/w"];
     ["ninja"]] /\
  map call_failed (st_trace (snd out)) = [false; false; true] /\
  st_stdout (snd out) =
    ["--- build-script-helper.py: note: Building SwiftPM (with CMake)"; "ninja"].
Proof. vm_compute. repeat split; reflexivity. Qed.

Lemma failing_command_aborts_the_pipeline_witness :
  no_failure failing_host failing_start /\
  fail_fast failing_host (build failing_host failing_start).
Proof.
  split; [constructor |].
  exact (proj1 (proj2 (failing_command_aborts_the_pipeline failing_host failing_start
                         (Forall_nil_2 _)))).
Defined.

(** C10. When the child of [call] fails (a nonzero exit status, or a child
    that could not be started), the handler reads the local [result], which
    was never assigned: [call] raises [NameError] and the process ends with
    status 1.  The only line printed is the command line: the
    exit-status diagnostic is not printed and [error], with its
    [SystemExit], is not reached. *)
Theorem call_failure_raises_NameError (h : Host) cmd d v (s : state h) :
  st_args s !! "verbose" = Some v ->
  proc_ok (fst (spawn h (st_fs s) cmd d)) = false ->
  let out := call h cmd (cwd_value d) s in
  fst out = Raise (NameError "result") /\
  exit_status (fst out) = 1 /\
  (forall c, fst out <> Raise (SystemExit c)) /\
  st_stdout (snd out) = st_stdout s ++ [Str.join " " cmd] /\
  st_trace (snd out) = st_trace s ++ [call_event cmd d (fst (spawn h (st_fs s) cmd d))].
Proof.
  intros Hv Hr. destruct (spawn h (st_fs s) cmd d) as [r f] eqn:Hsp. simpl in Hr.
  cbv zeta. rewrite (call_failure h cmd d v s r f Hv Hsp Hr). simpl.
  repeat split; discriminate.
Qed.

Lemma call_failure_raises_NameError_witness :
  st_args failing_start !! "verbose" = Some (VBool false) /\
  proc_ok (fst (spawn failing_host (st_fs failing_start) ["ninja"] (Some "/w"))) = false /\
  fst (call failing_host ["ninja"] (VStr "/w") failing_start) = Raise (NameError "result").
Proof.
  assert (Hv : st_args failing_start !! "verbose" = Some (VBool false))
    by (vm_compute; reflexivity).
  assert (Hr : proc_ok (fst (spawn failing_host (st_fs failing_start) ["ninja"]
                               (Some "/w"))) = false) by reflexivity.
  split; [exact Hv | split; [exact Hr |]].
  exact (proj1 (call_failure_raises_NameError failing_host ["ninja"] (Some "/w")
                  (VBool false) failing_start Hv Hr)).
Defined.

(** ** Stepping through a computation *)

Section Steps.

Context (h : Host).

Lemma bind_ok {A B} (m : M h A) (f : A -> M h B) s a s' :
  m s = (Ok a, s') -> bind m f s = f a s'.
Proof. intros H. unfold bind. rewrite H. reflexivity. Qed.

Lemma bind_raise {A B} (m : M h A) (f : A -> M h B) s e s' :
  m s = (Raise e, s') -> bind m f s = (Raise e, s').
Proof. intros H. unfold bind. rewrite H. reflexivity. Qed.

Lemma getattr_ok k v (s : state h) :
  st_args s !! k = Some v -> getattr h k s = (Ok v, s).
Proof. intros H. unfold getattr. rewrite H. reflexivity. Qed.

Lemma getattr_missing k (s : state h) :
  st_args s !! k = None -> getattr h k s = (Raise (AttributeError k), s).
Proof. intros H. unfold getattr. rewrite H. reflexivity. Qed.

Lemma path_join_str a b (s : state h) :
  path_join h (VStr a) b s = (Ok (Path.join a b), s).
Proof. reflexivity. Qed.

End Steps.

(** ** The flags and the environment of the self-hosted build *)

Section Swiftpm.

Context (h : Host).
Local Abbreviation same_environ := (same_environ h).

Lemma get_swiftpm_flags_eq (s : state h) rel :
  st_args s !! "release" = Some rel ->
  get_swiftpm_flags h s =
    (Ok (["--disable-index-store"] ++ (if truthy rel then release_flags else [])), s).
Proof.
  intros H. unfold get_swiftpm_flags.
  rewrite (bind_ok h _ _ _ _ _ (getattr_ok h _ _ _ H)).
  destruct (truthy rel); reflexivity.
Qed.

Lemma get_swiftpm_env_cmd_eq (s : state h) sp bd bs ld lf :
  st_args s !! "swiftc_path" = Some (VStr sp) ->
  st_args s !! "build_dir" = Some (VStr bd) ->
  st_args s !! "bootstrap_dir" = Some (VStr bs) ->
  st_args s !! "llbuild_build_dir" = Some (VStr ld) ->
  st_args s !! "llbuild_link_framework" = Some lf ->
  get_swiftpm_env_cmd h s = (Ok (expected_overlay sp bd bs ld (truthy lf)), s).
Proof.
  intros Hsp Hbd Hbs Hld Hlf. unfold get_swiftpm_env_cmd, bind, getattr.
  rewrite Hsp; simpl. rewrite Hbd; simpl. rewrite Hbs; simpl. rewrite Hlf; simpl.
  unfold expected_overlay.
  destruct (truthy lf); simpl; rewrite ?Hld; simpl; rewrite ?Hbs; simpl;
    rewrite ?Hld; simpl; reflexivity.
Qed.

(** The one child of [call_swiftpm]: the overlay, the command, the flags. *)
Lemma call_swiftpm_child (s : state h) cmd sp bd bs ld lf rel v :
  st_args s !! "swiftc_path" = Some (VStr sp) ->
  st_args s !! "build_dir" = Some (VStr bd) ->
  st_args s !! "bootstrap_dir" = Some (VStr bs) ->
  st_args s !! "llbuild_build_dir" = Some (VStr ld) ->
  st_args s !! "llbuild_link_framework" = Some lf ->
  st_args s !! "release" = Some rel ->
  st_args s !! "verbose" = Some v ->
  let full_cmd :=
    expected_overlay sp bd bs ld (truthy lf) ++ cmd
    ++ ["--disable-index-store"] ++ (if truthy rel then release_flags else []) in
  let root := Some (g_project_root h) in
  st_trace (snd (call_swiftpm h cmd s)) =
    st_trace s ++ [call_event full_cmd root (fst (spawn h (st_fs s) full_cmd root))].
Proof.
  intros Hsp Hbd Hbs Hld Hlf Hrel Hv full_cmd root. unfold call_swiftpm.
  rewrite (bind_ok h _ _ _ _ _ (get_swiftpm_env_cmd_eq s sp bd bs ld lf Hsp Hbd Hbs Hld Hlf)).
  rewrite (bind_ok h _ _ _ _ _ (get_swiftpm_flags_eq s rel Hrel)).
  fold full_cmd. change (VStr (g_project_root h)) with (cwd_value root).
  destruct (spawn h (st_fs s) full_cmd root) as [r f] eqn:Hsp'.
  destruct (proc_ok r) eqn:Hok.
  - destruct r as [[| |] out|]; try discriminate.
    rewrite (call_success h full_cmd root v s out f Hv Hsp').
    destruct (truthy v); reflexivity.
  - rewrite (call_failure h full_cmd root v s r f Hv Hsp' Hok). reflexivity.
Qed.

(** *** The environment of the process is never assigned *)

Lemma call_same_environ s0 cmd cwd :
  keeps h (same_environ s0) (fun _ => same_environ s0) (call h cmd cwd).
Proof.
  intros s Hs. pose proof (call_cases h cmd cwd s) as Hc.
  destruct (call h cmd cwd s) as [[a|e] s']; destruct Hc as (He & _);
    unfold same_environ in *; congruence.
Qed.

Lemma environ_kept {A} (m : M h A) :
  (forall s0, keeps h (same_environ s0) (fun _ => same_environ s0) m) ->
  forall s, st_environ (snd (m s)) = st_environ s.
Proof.
  intros Hm s. specialize (Hm s s eq_refl).
  destruct (m s) as [[a|e] s']; exact Hm.
Qed.

Lemma actions_keep_environ (s : state h) :
  st_environ (snd (clean h s)) = st_environ s /\
  st_environ (snd (build h s)) = st_environ s /\
  st_environ (snd (test h s)) = st_environ s /\
  st_environ (snd (install h s)) = st_environ s /\
  (forall cmd, st_environ (snd (call_swiftpm h cmd s)) = st_environ s) /\
  (forall argv, st_environ (snd (script h argv s)) = st_environ s).
Proof.
  repeat split; intros; apply environ_kept; intros s0;
    [ apply keeps_clean with (assignable := any_attribute)
    | apply keeps_build with (assignable := any_attribute)
    | apply keeps_test with (assignable := any_attribute)
    | apply keeps_install with (assignable := any_attribute)
    | apply keeps_call_swiftpm
    | apply keeps_script with (assignable := any_attribute) ];
    first [ reflexivity | apply call_same_environ | intros; assumption ].
Qed.

End Swiftpm.

(** C9. The overlay is a list of assignments placed in front of the
    command vector of the child ([env NAME=value ... command]): the
    compiler path, the build root, the directory hint of the dependency
    libraries, the linkage mode, and both loader variables with the same
    colon-joined pair of library directories.  Building it changes nothing,
    and no action ever changes the environment of the process itself. *)
Theorem overlay_is_passed_to_the_child_only (h : Host) (s : state h)
    cmd sp bd bs ld lf rel v :
  st_args s !! "swiftc_path" = Some (VStr sp) ->
  st_args s !! "build_dir" = Some (VStr bd) ->
  st_args s !! "bootstrap_dir" = Some (VStr bs) ->
  st_args s !! "llbuild_build_dir" = Some (VStr ld) ->
  st_args s !! "llbuild_link_framework" = Some lf ->
  st_args s !! "release" = Some rel ->
  st_args s !! "verbose" = Some v ->
  let overlay := expected_overlay sp bd bs ld (truthy lf) in
  get_swiftpm_env_cmd h s = (Ok overlay, s) /\
  (exists flags res,
      st_trace (snd (call_swiftpm h cmd s)) =
        st_trace s ++ [call_event (overlay ++ cmd ++ flags) (Some (g_project_root h)) res]) /\
  st_environ (snd (call_swiftpm h cmd s)) = st_environ s /\
  (forall s0 : state h,
      st_environ (snd (clean h s0)) = st_environ s0 /\
      st_environ (snd (build h s0)) = st_environ s0 /\
      st_environ (snd (test h s0)) = st_environ s0 /\
      st_environ (snd (install h s0)) = st_environ s0 /\
      (forall argv, st_environ (snd (script h argv s0)) = st_environ s0)).
Proof.
  intros Hsp Hbd Hbs Hld Hlf Hrel Hv overlay.
  split; [apply get_swiftpm_env_cmd_eq; assumption |].
  split; [do 2 eexists; eapply call_swiftpm_child; eassumption |].
  split; [apply actions_keep_environ |].
  intros s0. pose proof (actions_keep_environ h s0) as (H1 & H2 & H3 & H4 & _ & H6).
  auto.
Qed.

Lemma overlay_is_passed_to_the_child_only_witness :
  get_swiftpm_env_cmd Demo.linux (working_start false false) =
    (Ok ["env"; "SWIFT_EXEC=/usr/bin/swiftc"; "SWIFTPM_BUILD_DIR=.build";
         "SWIFTPM_PD_LIBS=/w/.build/bootstrap/pm"; "SWIFTCI_USE_LOCAL_DEPS=1";
         "DYLD_LIBRARY_PATH=/w/.build/bootstrap/lib:/deps/llbuild/lib";
         "LD_LIBRARY_PATH=/w/.build/bootstrap/lib:/deps/llbuild/lib"],
     working_start false false).
Proof.
  refine (proj1 (overlay_is_passed_to_the_child_only Demo.linux (working_start false false)
                   ["swift-build"] "/usr/bin/swiftc" ".build" "/w/.build/bootstrap"
                   "/deps/llbuild" (VBool false) (VBool false) (VBool false)
                   _ _ _ _ _ _ _)); vm_compute; reflexivity.
Defined.

(** C7. With [release] set, the flags of the self-hosted build are the
    index-store flag, the testability flag and the release configuration;
    without it, the index-store flag alone.  Stage 3 runs one child and its
    command vector ends with these flags. *)
Theorem release_selects_the_stage_3_flags (h : Host) (s : state h)
    (release : bool) sp bd bs ld lf v :
  st_args s !! "release" = Some (VBool release) ->
  st_args s !! "swiftc_path" = Some (VStr sp) ->
  st_args s !! "build_dir" = Some (VStr bd) ->
  st_args s !! "bootstrap_dir" = Some (VStr bs) ->
  st_args s !! "llbuild_build_dir" = Some (VStr ld) ->
  st_args s !! "llbuild_link_framework" = Some lf ->
  st_args s !! "verbose" = Some v ->
  let flags :=
    if release
    then ["--disable-index-store"; "-Xswiftc"; "-enable-testing";
          "--configuration"; "release"]
    else ["--disable-index-store"] in
  get_swiftpm_flags h s = (Ok flags, s) /\
  (exists res,
      st_trace (snd (build_swiftpm_with_swiftpm h s)) =
        st_trace s ++
        [call_event
           (expected_overlay sp bd bs ld (truthy lf)
            ++ [Path.join bs "bin/swift-build"; "--build-tests"] ++ flags)
           (Some (g_project_root h)) res]).
Proof.
  intros Hrel Hsp Hbd Hbs Hld Hlf Hv flags.
  assert (Hflags : flags = ["--disable-index-store"]
                           ++ (if truthy (VBool release) then release_flags else []))
    by (destruct release; reflexivity).
  split.
  - rewrite (get_swiftpm_flags_eq h s _ Hrel), <- Hflags. reflexivity.
  - eexists. unfold build_swiftpm_with_swiftpm, note.
    rewrite (bind_ok h _ _ _ _ _ (eq_refl : print h _ s = (Ok tt, add_stdout h _ s))).
    rewrite (bind_ok h _ _ _ _ _ (getattr_ok h "bootstrap_dir" _ (add_stdout h _ s) Hbs)).
    rewrite (bind_ok h _ _ _ _ _ (path_join_str h bs _ _)).
    rewrite Hflags.
    apply (call_swiftpm_child h (add_stdout h _ s) _ sp bd bs ld lf (VBool release) v);
      assumption.
Qed.

Lemma release_selects_the_stage_3_flags_witness :
  get_swiftpm_flags Demo.linux (working_start false true) =
    (Ok ["--disable-index-store"; "-Xswiftc"; "-enable-testing";
         "--configuration"; "release"], working_start false true) /\
  get_swiftpm_flags Demo.linux (working_start false false) =
    (Ok ["--disable-index-store"], working_start false false).
Proof.
  split.
  - refine (proj1 (release_selects_the_stage_3_flags Demo.linux (working_start false true)
                     true "/usr/bin/swiftc" ".build" "/w/.build/bootstrap"
                     "/deps/llbuild" (VBool false) (VBool false)
                     _ _ _ _ _ _ _)); vm_compute; reflexivity.
  - refine (proj1 (release_selects_the_stage_3_flags Demo.linux (working_start false false)
                     false "/usr/bin/swiftc" ".build" "/w/.build/bootstrap"
                     "/deps/llbuild" (VBool false) (VBool false)
                     _ _ _ _ _ _ _)); vm_compute; reflexivity.
Defined.

(** The [--release] option sets the attribute the flags depend on. *)
Example release_option :
  parsed_attribute ["build"; "--release"] "release" = Ok (Some (VBool true)) /\
  parsed_attribute ["build"] "release" = Ok (Some (VBool false)).
Proof. split; vm_compute; reflexivity. Qed.

(** ** The parser [main] builds never supplies what [build] reads *)

Section NoStage.

Context (h : Host).

Local Abbreviation no_dependency_attribute := (no_dependency_attribute h).

Lemma clean_build_args_no_stage calls :
  quiet h (no_dependency_attribute calls) (clean_build_args h).
Proof.
  apply quiet_clean_build_args with (assignable := not_llbuild_build_dir);
    try reflexivity; unfold no_dependency_attribute, stage_commands.
  - intros f s Hs; exact Hs.
  - intros line s Hs; exact Hs.
  - intros cmd cwd r s [Hc Ha]; split; [| exact Ha].
    simpl. rewrite List.filter_app. simpl. rewrite app_nil_r. exact Hc.
  - intros k v s Hk [Hc Ha]; split; [exact Hc |].
    simpl. rewrite lookup_insert_ne; [exact Ha |].
    intros ->. discriminate Hk.
Qed.

(** Without the attribute [llbuild_build_dir], [build] raises before
    Stage 1: no [check_call] child is run and the exit status is 1. *)
Lemma build_without_dependency_attribute (s : state h) :
  st_args s !! "llbuild_build_dir" = None ->
  exists e, fst (build h s) = Raise e /\ exit_code e = 1 /\
            stage_commands (st_trace (snd (build h s))) = stage_commands (st_trace s).
Proof.
  intros Ha.
  pose proof (clean_build_args_no_stage (stage_commands (st_trace s)) s
                (conj eq_refl Ha)) as Hq.
  unfold build.
  destruct (clean_build_args h s) as [[[]|e] s1] eqn:Hcb.
  - destruct Hq as [Hc Ha1].
    rewrite (bind_ok h _ _ _ _ _ Hcb).
    rewrite (bind_raise h _ _ _ _ _ (getattr_missing h _ _ Ha1)).
    exists (AttributeError "llbuild_build_dir"). simpl. auto.
  - destruct Hq as [He [Hc _]].
    rewrite (bind_raise h _ _ _ _ _ Hcb). exists e. simpl. auto.
Qed.

Lemma test_without_dependency_attribute (s : state h) :
  st_args s !! "llbuild_build_dir" = None ->
  exists e, fst (test h s) = Raise e /\ exit_code e = 1 /\
            stage_commands (st_trace (snd (test h s))) = stage_commands (st_trace s).
Proof.
  intros Ha. destruct (build_without_dependency_attribute s Ha) as (e & Hr & He & Hc).
  unfold test. destruct (build h s) as [r s1] eqn:Hb. simpl in Hr; subst r.
  rewrite (bind_raise h _ _ _ _ _ Hb). exists e. auto.
Qed.

Lemma module_init_no_stage (s : state h) :
  stage_commands (st_trace (snd (module_init h s))) = stage_commands (st_trace s) /\
  st_args (snd (module_init h s)) = st_args s /\
  match fst (module_init h s) with
  | Ok _ => True
  | Raise e => exit_code e = 1
  end.
Proof.
  unfold module_init. destruct (is_darwin h); [| simpl; auto].
  unfold bind, run_child.
  destruct (spawn h (st_fs s) _ None) as [[status out|n] f]; simpl.
  - destruct (status =? 0); simpl; unfold stage_commands;
      rewrite List.filter_app, app_nil_r; auto.
  - unfold stage_commands. rewrite List.filter_app, app_nil_r; auto.
Qed.

Lemma main_dispatch argv (s : state h) ns f :
  parse_args argv false = Ok ns ->
  ns !! "func" = Some (VFunc f) ->
  main h argv s = call_func h (VFunc f) (set_args h (<["func" := VFunc f]> ns) s).
Proof.
  intros Hp Hf. unfold main, bind. rewrite Hp.
  unfold getattr. simpl. rewrite Hf. simpl. rewrite lookup_insert_eq. reflexivity.
Qed.

Lemma parsed_attribute_ok argv k ov :
  parsed_attribute argv k = Ok ov ->
  exists ns, parse_args argv false = Ok ns /\ ns !! k = ov.
Proof.
  unfold parsed_attribute. destruct (parse_args argv false) as [ns|e]; [| discriminate].
  intros [= <-]. eauto.
Qed.

(** The whole script on a command line that selects [build] or [test]
    and whose namespace has no [llbuild_build_dir]. *)
Lemma script_stops_before_stage_1 argv (s : state h) f :
  parsed_attribute argv "func" = Ok (Some (VFunc f)) ->
  f <> FClean ->
  parsed_attribute argv "llbuild_build_dir" = Ok None ->
  let out := script h argv s in
  exit_status (fst out) = 1 /\
  stage_commands (st_trace (snd out)) = stage_commands (st_trace s).
Proof.
  intros Hf Hne Hl.
  apply parsed_attribute_ok in Hf as (ns & Hp & Hf).
  apply parsed_attribute_ok in Hl as (ns' & Hp' & Hl).
  rewrite Hp in Hp'; injection Hp' as <-.
  cbv zeta. unfold script.
  pose proof (module_init_no_stage s) as (Hc & Ha & Hr).
  destruct (module_init h s) as [[[]|e] s1] eqn:Hm; simpl in *;
    [rewrite (bind_ok h _ _ _ _ _ Hm) | rewrite (bind_raise h _ _ _ _ _ Hm); auto].
  rewrite (main_dispatch argv s1 ns f Hp Hf).
  assert (Hnone : st_args (set_args h (<["func" := VFunc f]> ns) s1)
                    !! "llbuild_build_dir" = None).
  { simpl. rewrite lookup_insert_ne by discriminate. exact Hl. }
  destruct f; [congruence | |]; simpl.
  - destruct (build_without_dependency_attribute _ Hnone) as (e & Hr' & He & Hc').
    rewrite Hr', Hc'. simpl. auto.
  - destruct (test_without_dependency_attribute _ Hnone) as (e & Hr' & He & Hc').
    rewrite Hr', Hc'. simpl. auto.
Qed.

End NoStage.

(** C1, as the code has it.  On every host, the build command on a fresh
    state and with a compiler path ends with exit status 1 before Stage 1:
    the namespace of the build parser has no attribute [llbuild_build_dir],
    which [build] reads first, and no [check_call] child is ever run. *)
Theorem build_command_stops_before_stage_1 (h : Host) (fs : FS h)
    (environ : gmap string string) :
  let out := script h ["build"; "--swiftc"; "/usr/bin/swiftc"]
               (initial_state h fs environ) in
  exit_status (fst out) = 1 /\ stage_commands (st_trace (snd out)) = [].
Proof.
  apply (script_stops_before_stage_1 h _ (initial_state h fs environ) FBuild);
    [vm_compute; reflexivity | discriminate | vm_compute; reflexivity].
Qed.

Example build_command_on_linux :
  let out := script Demo.linux ["build"; "--swiftc"; "/usr/bin/swiftc"]
               (initial_state Demo.linux [] ∅) in
  fst out = Raise (AttributeError "llbuild_build_dir") /\
  map ev_cmd (st_trace (snd out)) = [["clang"; "--print-target-triple"]] /\
  st_stdout (snd out) = [].
Proof. vm_compute. repeat split; reflexivity. Qed.

(** C3, as the code has it.  [main] gives the test sub-parser the build
    arguments, not the test arguments: [--filter] is not an option of it
    and the command line is rejected with the usage status 2, before
    anything is run. *)
Theorem test_filter_is_rejected (h : Host) (s : state h) :
  main h ["test"; "--filter"; "Foo"; "--filter"; "Bar"] s = (Raise (SystemExit 2), s).
Proof.
  unfold main, bind.
  replace (parse_args ["test"; "--filter"; "Foo"; "--filter"; "Bar"] false)
    with (@Raise (gmap string value) (SystemExit 2)) by (vm_compute; reflexivity).
  reflexivity.
Qed.

(** What [test] does with the attributes of [add_test_args], were they
    there: the runner, [--parallel], then each filter. *)
Example test_runner_vector :
  let out := test Demo.linux (working_start false false) in
  fst out = Ok tt /\
  option_map ev_cmd (List.last (map Some (st_trace (snd out))) None) =
    Some (expected_overlay "/usr/bin/swiftc" "/w/.build" "/w/.build/bootstrap"
            "/deps/llbuild" false
          ++ ["/w/.build/x86_64-unknown-linux-gnu/debug/swift-test"; "--parallel";
              "--filter"; "Foo"; "--filter"; "Bar"]
          ++ ["--disable-index-store"]).
Proof. vm_compute. split; reflexivity. Qed.

(** ** Configure, then compile *)

Section Configure.

Context (h : Host).

Lemma call_trace cmd d v (s : state h) :
  st_args s !! "verbose" = Some v ->
  st_trace (snd (call h cmd (cwd_value d) s)) =
    st_trace s ++ [call_event cmd d (fst (spawn h (st_fs s) cmd d))].
Proof.
  intros Hv. destruct (spawn h (st_fs s) cmd d) as [r f] eqn:Hsp.
  destruct (proc_ok r) eqn:Hok.
  - destruct r as [[| |] out|]; try discriminate.
    rewrite (call_success h cmd d v s out f Hv Hsp).
    destruct (truthy v); reflexivity.
  - rewrite (call_failure h cmd d v s r f Hv Hsp Hok). reflexivity.
Qed.

(** With the cache descriptor in place only the compile step runs. *)
Lemma build_with_cmake_cached cmake_args source_path d v (s : state h) :
  st_args s !! "verbose" = Some v ->
  isfile h (st_fs s) (Path.join d "CMakeCache.txt") = true ->
  st_trace (snd (build_with_cmake h cmake_args source_path (VStr d) s)) =
    st_trace s ++ [call_event (ninja_cmd v) (Some d)
                     (fst (spawn h (st_fs s) (ninja_cmd v) (Some d)))].
Proof.
  intros Hv Hc. unfold build_with_cmake.
  rewrite (bind_ok h _ _ s d s eq_refl).
  rewrite (bind_ok h (os_path_isfile h _) _ s _ s eq_refl).
  rewrite Hc. simpl negb. cbv iota.
  rewrite (bind_ok h (ret tt) _ s tt s eq_refl).
  rewrite (bind_ok h _ _ _ _ _ (getattr_ok h "verbose" _ s Hv)).
  change (if truthy v then ["ninja"] ++ ["-v"] else ["ninja"]) with (ninja_cmd v).
  apply (call_trace (ninja_cmd v) (Some d) v s Hv).
Qed.

Variable d : string.
Variable tr0 : list spawn_event.

Local Abbreviation grows := (grows h d tr0).

Lemma grows_mono k k' s : (k <= k')%nat -> grows k s -> grows k' s.
Proof. intros Hk (new & H1 & H2 & H3). exists new. repeat split; auto. lia. Qed.

Lemma grows_event k ev (s : state h) :
  (is_call ev = true -> ev_cwd ev = Some d) ->
  grows k s ->
  grows (k + (if runs "cmake" ev then 1 else 0)) (add_event h ev s).
Proof.
  intros Hev (new & H1 & H2 & H3). exists (new ++ [ev]). simpl.
  split; [rewrite H1, app_assoc; reflexivity |].
  split; [apply Forall_app; split; [exact H2 | constructor; [exact Hev | constructor]] |].
  unfold configure_steps in *. rewrite List.filter_app, length_app. simpl.
  destruct (runs "cmake" ev); simpl; lia.
Qed.

Lemma grows_output k cmd cwd r (s : state h) :
  grows k s ->
  grows k (add_event h {| ev_kind := CheckOutput; ev_cmd := cmd;
                          ev_cwd := cwd; ev_result := r |} s).
Proof.
  intros Hs. apply (grows_event k) with (ev := Build_spawn_event CheckOutput cmd cwd r) in Hs;
    [| discriminate].
  simpl in Hs. rewrite Nat.add_0_r in Hs. exact Hs.
Qed.

Lemma call_grows k cmd :
  hoare h (grows k) (call h cmd (VStr d))
    (fun _ => grows (k + (if runs "cmake" (call_event cmd (Some d) (Exited 0 "")) then 1 else 0)))
    (fun _ => grows (k + (if runs "cmake" (call_event cmd (Some d) (Exited 0 "")) then 1 else 0))).
Proof.
  intros s Hs. pose proof (call_cases h cmd (VStr d) s) as Hc.
  destruct (call h cmd (VStr d) s) as [r s'].
  assert (Hg : grows (k + (if runs "cmake" (call_event cmd (Some d) (Exited 0 "")) then 1 else 0)) s').
  { destruct Hc as (_ & _ & _ & [(Htr & _)|(d' & res & Hd & _ & _ & Htr & _)]).
    - destruct Hs as (new & H1 & H2 & H3). exists new. rewrite Htr.
      repeat split; auto. lia.
    - destruct d' as [p|]; [| discriminate]. injection Hd as <-.
      pose proof (grows_event k (call_event cmd (Some d) res) s (fun _ => eq_refl) Hs)
        as (new & H1 & H2 & H3).
      exists new. rewrite Htr. simpl in H1. auto. }
  destruct r; exact Hg.
Qed.

Lemma grows_quiet_then {A B} k k' (m : M h A) (f : A -> M h B) :
  (k <= k')%nat ->
  quiet h (grows k) m ->
  (forall a, hoare h (grows k) (f a) (fun _ => grows k') (fun _ => grows k')) ->
  hoare h (grows k) (bind m f) (fun _ => grows k') (fun _ => grows k').
Proof.
  intros Hk Hm Hf. eapply hoare_bind; [| exact Hf].
  intros s Hs. specialize (Hm s Hs).
  destruct (m s) as [[a|e] s']; [exact Hm |].
  destruct Hm as [_ Hm]. eapply grows_mono; eauto.
Qed.

Lemma grows_quiet_last {A} k k' (m : M h A) :
  (k <= k')%nat ->
  quiet h (grows k) m ->
  hoare h (grows k) m (fun _ => grows k') (fun _ => grows k').
Proof.
  intros Hk Hm s Hs. specialize (Hm s Hs).
  destruct (m s) as [[a|e] s']; [| destruct Hm as [_ Hm]]; eapply grows_mono; eauto.
Qed.

Lemma grows_fs k f (s : state h) : grows k s -> grows k (set_fs h f s).
Proof. intros Hs; exact Hs. Qed.

Lemma grows_stdout k line (s : state h) : grows k s -> grows k (add_stdout h line s).
Proof. intros Hs; exact Hs. Qed.

Lemma call_grows_le k k' cmd :
  (k + 1 <= k')%nat ->
  hoare h (grows k) (call h cmd (VStr d)) (fun _ => grows k') (fun _ => grows k').
Proof.
  intros Hk s Hs. pose proof (call_grows k cmd s Hs) as Hc.
  destruct (call h cmd (VStr d) s) as [[a|e] s'];
    (eapply grows_mono; [| exact Hc]);
    destruct (runs "cmake" _); lia.
Qed.

Lemma call_grows_other k cmd :
  runs "cmake" (call_event cmd (Some d) (Exited 0 "")) = false ->
  hoare h (grows k) (call h cmd (VStr d)) (fun _ => grows k) (fun _ => grows k).
Proof.
  intros Hr s Hs. pose proof (call_grows k cmd s Hs) as Hc.
  rewrite Hr, Nat.add_0_r in Hc. exact Hc.
Qed.

Lemma hoare_ret_bind {A B} P (a : A) (f : A -> M h B) Q X :
  hoare h P (f a) Q X -> hoare h P (bind (ret a) f) Q X.
Proof. intros Hf; exact Hf. Qed.

(** One run of the procedure on a build directory: at most one
    configure step, and every child runs in that directory. *)
Lemma build_with_cmake_grows cmake_args source_path :
  hoare h (grows 0) (build_with_cmake h cmake_args source_path (VStr d))
    (fun _ => grows 1) (fun _ => grows 1).
Proof.
  unfold build_with_cmake.
  change (as_str h (VStr d)) with (@ret h _ d). apply hoare_ret_bind.
  apply grows_quiet_then; [lia | apply quiet_isfile | intros configured].
  eapply hoare_bind with (Q := fun _ => grows 1).
  - destruct configured; simpl negb; cbv iota.
    + apply grows_quiet_last; [lia | apply quiet_ret].
    + apply grows_quiet_then; [lia | | intros swift_flags].
      { destruct (is_darwin h); [| apply quiet_ret].
        apply quiet_bind; [apply quiet_sysroot | intros g; apply quiet_ret]. }
      apply grows_quiet_then; [lia | apply quiet_getattr | intros swiftc_path].
      cbv zeta.
      apply grows_quiet_then; [lia | apply quiet_getattr | intros verbose].
      apply grows_quiet_then; [lia | | intros _].
      { apply quiet_when, quiet_print. intros; apply grows_stdout; assumption. }
      apply grows_quiet_then;
        [lia | apply quiet_mkdir_p; intros; apply grows_fs; assumption | intros _].
      apply call_grows_le; lia.
  - intros _. cbv zeta.
    apply grows_quiet_then; [lia | apply quiet_getattr | intros verbose].
    apply call_grows_other. destruct (truthy verbose); reflexivity.
Qed.

End Configure.


(** ** The directories of a configuration *)

Section Directories.

Context (h : Host).

Local Abbreviation target_triple_of := (target_triple_of h).

Variable B : string.
Variable rel : value.

Local Abbreviation dirs_known := (dirs_known h B rel).
Local Abbreviation dirs_derived := (dirs_derived h B rel).

Lemma dirs_known_args k v (s : state h) :
  is_swiftc_path k = true -> dirs_known s ->
  dirs_known (set_args h (<[k := v]> (st_args s)) s).
Proof.
  intros Hk [H1 H2]. apply String.eqb_eq in Hk. subst k.
  split; simpl; rewrite lookup_insert_ne by discriminate; assumption.
Qed.

(** The rest of [derive_dirs] once the triple is known. *)
Lemma derive_dirs_rest triple (s : state h) :
  dirs_known s -> target_triple_of s triple ->
  match
    (target_dir <- path_join h (VStr B) triple;
     setattr h "target_dir" (VStr target_dir);;
     release <- getattr h "release";
     setattr h "conf" (VStr (if truthy release then "release" else "debug"));;
     target_dir <- getattr h "target_dir";
     conf <- getattr h "conf";
     conf <- as_str h conf;
     bin_dir <- path_join h target_dir conf;
     setattr h "bin_dir" (VStr bin_dir)) s
  with
  | (Ok _, s') => dirs_derived s'
  | (Raise _, _) => False
  end.
Proof.
  intros [Hb Hr] Ht. unfold bind, path_join, as_str, setattr, getattr, ret. simpl.
  rewrite lookup_insert_ne by discriminate. rewrite Hr. simpl.
  rewrite lookup_insert_ne by discriminate. rewrite lookup_insert_eq. simpl.
  rewrite lookup_insert_eq. simpl.
  exists triple. unfold dirs_derived, mode_name. simpl.
  repeat split.
  - exact Ht.
  - repeat (rewrite lookup_insert_ne by discriminate). exact Hb.
  - repeat (rewrite lookup_insert_ne by discriminate). apply lookup_insert_eq.
  - rewrite lookup_insert_ne by discriminate. apply lookup_insert_eq.
  - apply lookup_insert_eq.
Qed.

Lemma get_build_target_cases (s : state h) :
  match get_build_target h s with
  | (Ok triple, s') => st_args s' = st_args s /\ target_triple_of s' triple
  | (Raise _, _) => True
  end.
Proof.
  unfold get_build_target, target_triple_of.
  destruct (is_darwin h); [simpl; auto |].
  unfold call_output, bind, getattr.
  destruct (st_args s !! "verbose") as [v|]; [| exact I].
  set (s1 := snd (when (truthy v) (print h (Str.join " " ["clang"; "--print-target-triple"])) s)).
  assert (Hs1 : st_args s1 = st_args s) by (subst s1; destruct (truthy v); reflexivity).
  assert (Hw : when (truthy v) (print h (Str.join " " ["clang"; "--print-target-triple"])) s
               = (Ok tt, s1)) by (subst s1; destruct (truthy v); reflexivity).
  rewrite Hw. clearbody s1.
  unfold subprocess_check_output, bind, as_cwd, ret, run_child.
  destruct (spawn h (st_fs s1) ["clang"; "--print-target-triple"] None)
    as [[status out|n] f]; [| exact I].
  destruct (status =? 0) eqn:Hz; [| exact I].
  apply Z.eqb_eq in Hz. subst status. simpl.
  split; [exact Hs1 |]. exists out. split; [apply last_snoc | reflexivity].
Qed.

Lemma derive_dirs_post :
  hoare h dirs_known (derive_dirs h) (fun _ => dirs_derived) (fun _ _ => True).
Proof.
  intros s Hs. pose proof Hs as [Hb Hr]. unfold derive_dirs.
  rewrite (bind_ok h _ _ _ _ _ (getattr_ok h "build_dir" _ s Hb)).
  pose proof (get_build_target_cases s) as Hg.
  destruct (get_build_target h s) as [[triple|e] s1] eqn:Hgt.
  - rewrite (bind_ok h _ _ _ _ _ Hgt). destruct Hg as [Ha Ht].
    assert (Hs1 : dirs_known s1) by (unfold dirs_known; rewrite Ha; exact Hs).
    pose proof (derive_dirs_rest triple s1 Hs1 Ht) as Hrest.
    match goal with |- match ?m with _ => _ end => destruct m as [[a|e] s'] end;
      [exact Hrest | exact I].
  - rewrite (bind_raise h _ _ _ _ _ Hgt). exact I.
Qed.

End Directories.

Section Assemble.

Context (h : Host).

Lemma clean_global_args_eq (s : state h) bd :
  st_args s !! "build_dir" = Some (VStr bd) ->
  clean_global_args h s =
    (Ok tt, set_args h (<["build_dir" := VStr (Path.abspath (getcwd h) bd)]> (st_args s)) s).
Proof.
  intros Hb. unfold clean_global_args.
  rewrite (bind_ok h _ _ _ _ _ (getattr_ok h _ _ s Hb)). reflexivity.
Qed.

Lemma clean_build_args_dirs (s : state h) bd rel :
  st_args s !! "build_dir" = Some (VStr bd) ->
  st_args s !! "release" = Some rel ->
  match clean_build_args h s with
  | (Ok _, s') => dirs_derived h (Path.abspath (getcwd h) bd) rel s'
  | (Raise _, _) => True
  end.
Proof.
  intros Hb Hr. rewrite clean_build_args_blocks.
  rewrite (bind_ok h _ _ _ _ _ (clean_global_args_eq s bd Hb)).
  apply (resolve_swiftc_then_post h (dirs_known h (Path.abspath (getcwd h) bd) rel))
    with (assignable := is_swiftc_path) (X := fun _ _ => True);
    try (intros; assumption); try reflexivity; auto.
  - apply dirs_known_args.
  - apply derive_dirs_post.
  - split; simpl; [apply lookup_insert_eq |].
    rewrite lookup_insert_ne by discriminate. exact Hr.
Qed.

End Assemble.


(** ** Settling the compiler *)

Section Resolve.

Context (h : Host).
Local Abbreviation after_discovery := (after_discovery h).

Lemma normpath_nonempty p : String.eqb (Path.normpath p) "" = false.
Proof.
  unfold Path.normpath. destruct (String.eqb p ""); [reflexivity |].
  cbv zeta.
  match goal with |- context [if String.eqb ?r "" then "." else _] =>
    destruct (String.eqb r "") eqn:E end; [reflexivity | exact E].
Qed.

Lemma abspath_truthy cwd p : truthy (VStr (Path.abspath cwd p)) = true.
Proof. unfold truthy, Path.abspath. rewrite normpath_nonempty. reflexivity. Qed.

Lemma nonempty_some o p : nonempty o = Some p -> o = Some p /\ String.eqb p "" = false.
Proof.
  destruct o as [q|]; simpl; [| discriminate].
  destruct (String.eqb q "") eqn:E; [discriminate |]. intros [= <-]. auto.
Qed.

Lemma nonempty_none o : nonempty o = None -> truthy (from_option VStr VNone o) = false.
Proof.
  destruct o as [q|]; simpl; [| reflexivity].
  destruct (String.eqb q ""); [reflexivity | discriminate].
Qed.

(** [get_swiftc_path] with the override set. *)
Lemma get_swiftc_path_override (s : state h) e :
  nonempty (st_environ s !! "SWIFT_EXEC") = Some e ->
  get_swiftc_path h s = (Ok (VStr (swift_suffix_rule (realpath h (st_fs s) e))), s).
Proof.
  intros He. apply nonempty_some in He as [He Hne].
  unfold get_swiftc_path, try_except, bind, os_getenv. rewrite He. simpl.
  rewrite Hne. simpl. rewrite He. reflexivity.
Qed.

(** [get_swiftc_path] without override: discovery, and the error when
    the discovery command fails. *)
Lemma get_swiftc_path_discovery (s : state h) v :
  nonempty (st_environ s !! "SWIFT_EXEC") = None ->
  st_args s !! "verbose" = Some v ->
  get_swiftc_path h s =
    match fst (spawn h (st_fs s) (discovery_cmd h) None) with
    | Exited 0 out => (Ok (VStr (Str.strip out)), after_discovery v s)
    | _ => (Raise (SystemExit 1),
            add_stdout h (tool_not_found_line h) (after_discovery v s))
    end.
Proof.
  intros He Hv. apply nonempty_none in He.
  unfold get_swiftc_path, try_except, after_discovery, discovery_cmd.
  unfold bind at 1. unfold os_getenv at 1. rewrite He.
  destruct (is_darwin h);
    unfold call_output, bind, getattr; rewrite Hv; simpl;
    destruct (truthy v); simpl;
    unfold subprocess_check_output, bind, run_child; simpl;
    (match goal with |- context [spawn h ?f ?c None] =>
       destruct (spawn h f c None) as [[status out|n] f'] end);
    simpl; try reflexivity;
    (destruct (status =? 0) eqn:Hz;
     [apply Z.eqb_eq in Hz; subst status; reflexivity
      | destruct status; [discriminate | reflexivity | reflexivity]]).
Qed.

End Resolve.

Section Settle.

Context (h : Host).
Local Abbreviation swiftc_is := (swiftc_is h).

(** What [resolve_swiftc_then] comes to: with a compiler settled, the
    continuation runs in a state that differs by [swiftc_path], by what the
    discovery command did and echoed, and by no stage command; with none,
    the error line is printed and [SystemExit(1)] raised. *)
Lemma resolve_swiftc_then_settles {A} (k : M h A) (s : state h) flag v :
  st_args s !! "swiftc_path" = Some (flag_value flag) ->
  st_args s !! "verbose" = Some v ->
  match resolved_compiler h (st_fs s) (st_environ s) flag with
  | Some p =>
      exists s2,
        resolve_swiftc_then h k s = k s2 /\
        st_args s2 = <["swiftc_path" := VStr p]> (st_args s) /\
        stage_commands (st_trace s2) = stage_commands (st_trace s)
  | None =>
      exists s2,
        resolve_swiftc_then h k s = (Raise (SystemExit 1), s2) /\
        last (st_stdout s2) = Some (tool_not_found_line h) /\
        stage_commands (st_trace s2) = stage_commands (st_trace s)
  end.
Proof.
  intros Hf Hv. unfold resolved_compiler, resolve_swiftc_then.
  rewrite (bind_ok h _ _ _ _ _ (getattr_ok h _ _ s Hf)).
  destruct (nonempty flag) as [p|] eqn:Hflag.
  - apply nonempty_some in Hflag as [-> Hp].
    simpl flag_value. unfold truthy at 1. rewrite Hp. simpl negb. cbv iota.
    rewrite (bind_ok h _ _ s tt
               (set_args h (<["swiftc_path" := VStr (Path.abspath (getcwd h) p)]> (st_args s)) s)
               eq_refl).
    rewrite (bind_ok h (getattr h "swiftc_path") _ _ (VStr (Path.abspath (getcwd h) p)) _
               (getattr_ok h _ _ _ (lookup_insert_eq _ _ _))).
    rewrite abspath_truthy.
    eexists. split; [reflexivity |]. simpl.
    split; [apply insert_insert_eq | reflexivity].
  - assert (Hfalsy : truthy (flag_value flag) = false).
    { destruct flag as [q|]; simpl in *; [| reflexivity].
      destruct (String.eqb q ""); [reflexivity | discriminate]. }
    rewrite Hfalsy.
    rewrite (bind_ok h (ret tt) _ s tt s eq_refl).
    rewrite (bind_ok h _ _ _ _ _ (getattr_ok h _ _ s Hf)).
    rewrite Hfalsy.
    destruct (nonempty (st_environ s !! "SWIFT_EXEC")) as [e|] eqn:He.
    + rewrite (bind_ok h _ _ _ _ _ (get_swiftc_path_override h s e He)).
      eexists. split; [reflexivity |]. simpl. auto.
    + pose proof (get_swiftc_path_discovery h s v He Hv) as Hd.
      destruct (fst (spawn h (st_fs s) (discovery_cmd h) None)) as [[| |] out|n];
        [ rewrite (bind_ok h _ _ _ _ _ Hd); eexists; split; [reflexivity |]; simpl;
          split; [destruct (truthy v); reflexivity |]; unfold stage_commands;
          rewrite List.filter_app, app_nil_r; destruct (truthy v); reflexivity
        | rewrite (bind_raise h _ _ _ _ _ Hd); eexists; split; [reflexivity |];
          split; [apply last_snoc |]; simpl; unfold stage_commands;
          rewrite List.filter_app, app_nil_r; destruct (truthy v); reflexivity .. ].
Qed.

Lemma derive_dirs_keeps_swiftc p : quiet h (swiftc_is p) (derive_dirs h).
Proof.
  apply quiet_derive_dirs with (assignable := not_swiftc_path);
    try reflexivity; try (intros; assumption).
  intros k v s Hk Hs. unfold swiftc_is. simpl.
  rewrite lookup_insert_ne; [exact Hs |]. intros ->. discriminate Hk.
Qed.

End Settle.


Example flag_is_taken_as_given :
  let out := clean_build_args bare_host
               (bare_start ∅ ["build"; "--swiftc"; "/usr/bin/swift"]) in
  fst out = Ok tt /\
  st_args (snd out) !! "swiftc_path" = Some (VStr "/usr/bin/swift") /\
  path_exists bare_host (st_fs (snd out)) "/usr/bin/swift" = false.
Proof. vm_compute. repeat split; reflexivity. Qed.

Example override_is_not_checked :
  let out := clean_build_args bare_host
               (bare_start {[ "SWIFT_EXEC" := "/opt/none/swiftc" ]} ["build"]) in
  fst out = Ok tt /\
  st_args (snd out) !! "swiftc_path" = Some (VStr "/opt/none/swiftc") /\
  path_exists bare_host (st_fs (snd out)) "/opt/none/swiftc" = false.
Proof. vm_compute. repeat split; reflexivity. Qed.



Example compiler_from_the_environment :
  st_args (snd (clean_build_args Demo.linux
                  (set_args Demo.linux (namespace_of ["build"])
                     (initial_state Demo.linux [] {[ "SWIFT_EXEC" := "/tc/bin/swift" ]}))))
    !! "swiftc_path" = Some (VStr "/tc/bin/swiftc").
Proof. vm_compute. reflexivity. Qed.


Example configure_then_compile_when_not_cached :
  map ev_cmd
    (st_trace (snd (build_with_cmake Demo.linux ["-DX=1"] "/src" (VStr "/b")
                      (working_start false false)))) =
    [["cmake"; "-G"; "Ninja"; "-DCMAKE_BUILD_TYPE:=Debug"; "-DCMAKE_Swift_FLAGS=";
      "-DCMAKE_Swift_COMPILER:=/usr/bin/swiftc"; "-DX=1"; "/src"];
     ["ninja"]].
Proof. vm_compute. reflexivity. Qed.


Example bin_dir_on_linux :
  st_args (snd (clean_build_args Demo.linux (working_start false true))) !! "bin_dir" =
    Some (VStr "/w/.build/x86_64-unknown-linux-gnu/release").
Proof. vm_compute. reflexivity. Qed.

(** ** Two runs that differ in [verbose]

    The runs are compared step by step.  The states of the two runs are
    related when they agree on everything but the value of [verbose] and
    the lines printed, and their traces agree once the [-v] that verbose
    adds to the compile command is erased. *)

Section Verbose.

Context (h : Host).
Hypothesis Hninja : ninja_ignores_v h.

Local Abbreviation sim := (sim h).
Local Abbreviation related := (related h).
Local Abbreviation cmd_sim := (cmd_sim h).

Lemma rel_bind {A B} (m1 m2 : M h A) (f1 f2 : A -> M h B) :
  related m1 m2 -> (forall a, related (f1 a) (f2 a)) ->
  related (bind m1 f1) (bind m2 f2).
Proof.
  intros Hm Hf s1 s2 Hs. unfold bind. destruct (Hm s1 s2 Hs) as [Hr Hs'].
  destruct (m1 s1) as [r1 t1], (m2 s2) as [r2 t2]. simpl in *. subst r2.
  destruct r1 as [a|e]; [apply Hf; exact Hs' | simpl; auto].
Qed.

Lemma rel_ret {A} (a : A) : related (ret a) (ret a).
Proof. intros s1 s2 Hs; simpl; auto. Qed.

Lemma rel_raise {A} e : related (@raise h A e) (raise e).
Proof. intros s1 s2 Hs; simpl; auto. Qed.

Lemma sim_lookup k s1 s2 :
  k <> "verbose" -> sim s1 s2 -> st_args s1 !! k = st_args s2 !! k.
Proof.
  intros Hk (_ & _ & _ & Hd & _).
  rewrite <- (lookup_delete_ne (st_args s1) "verbose" k) by congruence.
  rewrite <- (lookup_delete_ne (st_args s2) "verbose" k) by congruence.
  rewrite Hd. reflexivity.
Qed.

Lemma rel_getattr k : k <> "verbose" -> related (getattr h k) (getattr h k).
Proof.
  intros Hk s1 s2 Hs. unfold getattr. rewrite (sim_lookup k s1 s2 Hk Hs).
  destruct (st_args s2 !! k); simpl; auto.
Qed.

Lemma rel_setattr k v : k <> "verbose" -> related (setattr h k v) (setattr h k v).
Proof.
  intros Hk s1 s2 (H1 & H2 & H3 & H4 & H5 & H6 & H7). simpl.
  split; [reflexivity |]. unfold sim; simpl.
  rewrite !(delete_insert_ne _ "verbose" k) by congruence.
  rewrite !lookup_insert_ne by congruence. rewrite H4. auto 10.
Qed.

Lemma rel_print l1 l2 : related (print h l1) (print h l2).
Proof. intros s1 s2 Hs; simpl; auto. Qed.

Lemma rel_when b1 b2 l1 l2 : related (when b1 (print h l1)) (when b2 (print h l2)).
Proof. intros s1 s2 Hs. destruct b1, b2; simpl; auto. Qed.

(** Reading [verbose]: the two runs go on with their own values. *)
Lemma rel_verbose {B} (f1 f2 : value -> M h B) :
  (forall v1 v2, related (f1 v1) (f2 v2)) ->
  related (bind (getattr h "verbose") f1) (bind (getattr h "verbose") f2).
Proof.
  intros Hf s1 s2 Hs. pose proof Hs as (_ & _ & _ & _ & [v1 H1] & [v2 H2] & _).
  rewrite (bind_ok h _ _ _ _ _ (getattr_ok h _ _ s1 H1)).
  rewrite (bind_ok h _ _ _ _ _ (getattr_ok h _ _ s2 H2)).
  apply Hf; exact Hs.
Qed.

Lemma rel_as_str v : related (as_str h v) (as_str h v).
Proof. destruct v; first [apply rel_ret | apply rel_raise]. Qed.

Lemma rel_as_cwd v : related (as_cwd h v) (as_cwd h v).
Proof. destruct v; first [apply rel_ret | apply rel_raise]. Qed.

Lemma rel_index0 v : related (index0 h v) (index0 h v).
Proof. destruct v as [| |[|]|[|]|]; first [apply rel_ret | apply rel_raise]. Qed.

Lemma rel_iterate v : related (iterate h v) (iterate h v).
Proof. destruct v; first [apply rel_ret | apply rel_raise]. Qed.

Lemma rel_getenv k : related (os_getenv h k) (os_getenv h k).
Proof. intros s1 s2 Hs. pose proof Hs as (_ & H2 & _). simpl. rewrite H2. auto. Qed.

Lemma rel_isfile p : related (os_path_isfile h p) (os_path_isfile h p).
Proof. intros s1 s2 Hs. pose proof Hs as (H1 & _). simpl. rewrite H1. auto. Qed.
Lemma rel_isdir p : related (os_path_isdir h p) (os_path_isdir h p).
Proof. intros s1 s2 Hs. pose proof Hs as (H1 & _). simpl. rewrite H1. auto. Qed.
Lemma rel_exists p : related (os_path_exists h p) (os_path_exists h p).
Proof. intros s1 s2 Hs. pose proof Hs as (H1 & _). simpl. rewrite H1. auto. Qed.
Lemma rel_realpath p : related (os_path_realpath h p) (os_path_realpath h p).
Proof. intros s1 s2 Hs. pose proof Hs as (H1 & _). simpl. rewrite H1. auto. Qed.

Lemma rel_sysroot : related (g_default_sysroot h) (g_default_sysroot h).
Proof.
  intros s1 s2 Hs. pose proof Hs as (_ & _ & H3 & _). unfold g_default_sysroot.
  rewrite H3. destruct (st_sysroot s2); simpl; auto.
Qed.

Lemma sim_fs f s1 s2 : sim s1 s2 -> sim (set_fs h f s1) (set_fs h f s2).
Proof. intros (H1 & H2 & H3 & H4 & H5 & H6 & H7). unfold sim; simpl; auto 10. Qed.

Lemma sim_stdout l1 l2 s1 s2 :
  sim s1 s2 -> sim (add_stdout h l1 s1) (add_stdout h l2 s2).
Proof. intros Hs; exact Hs. Qed.

Lemma sim_stdout_l l1 s1 s2 : sim s1 s2 -> sim (add_stdout h l1 s1) s2.
Proof. intros Hs; exact Hs. Qed.

Lemma sim_stdout_r l2 s1 s2 : sim s1 s2 -> sim s1 (add_stdout h l2 s2).
Proof. intros Hs; exact Hs. Qed.

Lemma sim_event e1 e2 s1 s2 :
  erase_event e1 = erase_event e2 -> sim s1 s2 ->
  sim (add_event h e1 s1) (add_event h e2 s2).
Proof.
  intros He (H1 & H2 & H3 & H4 & H5 & H6 & H7). unfold sim; simpl.
  rewrite !map_app, H7. simpl. rewrite He. auto 10.
Qed.

Lemma rel_os_result (g : FS h -> option Z * FS h) :
  related (fun s => os_result h (g (st_fs s)) s) (fun s => os_result h (g (st_fs s)) s).
Proof.
  intros s1 s2 Hs. pose proof Hs as (H1 & _). rewrite H1. unfold os_result.
  destruct (g (st_fs s2)) as [[n|] f]; simpl; auto using sim_fs.
Qed.

Lemma rel_makedirs p : related (os_makedirs h p) (os_makedirs h p).
Proof. apply (rel_os_result (fun f => makedirs h f p)). Qed.
Lemma rel_symlink t l : related (os_symlink h t l) (os_symlink h t l).
Proof. apply (rel_os_result (fun f => symlink h f t l)). Qed.
Lemma rel_remove p : related (os_remove h p) (os_remove h p).
Proof. apply (rel_os_result (fun f => remove h f p)). Qed.

Lemma rel_try {A} (b1 b2 : M h A) (h1 h2 : exn -> M h A) :
  related b1 b2 -> (forall e, related (h1 e) (h2 e)) ->
  related (try_except b1 h1) (try_except b2 h2).
Proof.
  intros Hb Hh s1 s2 Hs. unfold try_except. destruct (Hb s1 s2 Hs) as [Hr Hs'].
  destruct (b1 s1) as [r1 t1], (b2 s2) as [r2 t2]. simpl in *. subst r2.
  destruct r1 as [a|e]; [simpl; auto | apply Hh; exact Hs'].
Qed.

Lemma rel_run_child k cmd cwd : related (run_child h k cmd cwd) (run_child h k cmd cwd).
Proof.
  intros s1 s2 Hs. pose proof Hs as (H1 & _). unfold run_child. rewrite H1.
  destruct (spawn h (st_fs s2) cmd cwd) as [[status out|n] f];
    [destruct (status =? 0) |]; simpl;
    (split; [reflexivity | apply sim_event; [reflexivity | apply sim_fs, Hs]]).
Qed.

Lemma rel_note msg : related (note h msg) (note h msg).
Proof. apply rel_print. Qed.

Lemma rel_error {A} msg : related (@error h A msg) (error msg).
Proof. apply rel_bind; [apply rel_print | intros _; apply rel_raise]. Qed.

Lemma rel_mkdir_p p : related (mkdir_p h p) (mkdir_p h p).
Proof.
  apply rel_try; [apply rel_makedirs |].
  intros [| | | | | | |n]; try apply rel_raise.
  destruct (negb (n =? EEXIST)); [apply rel_raise | apply rel_ret].
Qed.

Lemma rel_symlink_force t l : related (symlink_force h t l) (symlink_force h t l).
Proof.
  apply rel_bind; [apply rel_isdir | intros d]. cbv zeta.
  apply rel_try; [apply rel_symlink |].
  intros [| | | | | | |n]; try apply rel_raise.
  destruct (n =? EEXIST); [| apply rel_raise].
  apply rel_bind; [apply rel_remove | intros _; apply rel_symlink].
Qed.

Lemma cmd_sim_refl cmd : cmd_sim cmd cmd.
Proof. split; reflexivity. Qed.

Lemma cmd_sim_ninja v1 v2 :
  cmd_sim (if truthy v1 then ["ninja"] ++ ["-v"] else ["ninja"])
          (if truthy v2 then ["ninja"] ++ ["-v"] else ["ninja"]).
Proof.
  destruct (truthy v1), (truthy v2); split; try reflexivity;
    intros fs cwd; simpl; [apply Hninja | symmetry; apply Hninja].
Qed.

Lemma call_bad_cwd cmd cwd v (s : state h) :
  as_cwd h cwd = raise TypeError ->
  st_args s !! "verbose" = Some v ->
  call h cmd cwd s = (Raise (NameError "result"), add_stdout h (Str.join " " cmd) s).
Proof.
  intros Hbad Hv. unfold call, bind, getattr. rewrite Hv. simpl.
  unfold call_try, subprocess_check_call, bind. rewrite Hbad. simpl.
  unfold getattr.
  destruct (truthy v) eqn:Ht; simpl; rewrite Hv; simpl; rewrite Ht; reflexivity.
Qed.

Lemma rel_call cmd1 cmd2 cwd :
  cmd_sim cmd1 cmd2 -> related (call h cmd1 cwd) (call h cmd2 cwd).
Proof.
  intros [He Hsp] s1 s2 Hs.
  pose proof Hs as (Hfs & _ & _ & _ & [v1 H1] & [v2 H2] & _).
  assert (Hcases :
    (exists d, cwd = cwd_value d) \/ as_cwd h cwd = raise TypeError).
  { destruct cwd; simpl; auto; left;
      [exists None | eexists (Some _)]; reflexivity. }
  destruct Hcases as [[d ->]|Hbad].
  - destruct (spawn h (st_fs s1) cmd1 d) as [r f] eqn:Hsp1.
    assert (Hsp2 : spawn h (st_fs s2) cmd2 d = (r, f))
      by (rewrite <- Hfs, <- Hsp; exact Hsp1).
    assert (Hev : erase_event (call_event cmd1 d r) = erase_event (call_event cmd2 d r))
      by (unfold erase_event; simpl; rewrite He; reflexivity).
    destruct (proc_ok r) eqn:Hok.
    + destruct r as [[| |] out|]; try discriminate.
      rewrite (call_success h cmd1 d v1 s1 out f H1 Hsp1).
      rewrite (call_success h cmd2 d v2 s2 out f H2 Hsp2). simpl.
      split; [reflexivity |]. apply sim_event; [exact Hev |]. apply sim_fs.
      destruct (truthy v1), (truthy v2); exact Hs.
    + rewrite (call_failure h cmd1 d v1 s1 r f H1 Hsp1 Hok).
      rewrite (call_failure h cmd2 d v2 s2 r f H2 Hsp2 Hok). simpl.
      split; [reflexivity |]. apply sim_stdout, sim_event; [exact Hev |].
      apply sim_fs, Hs.
  - rewrite (call_bad_cwd cmd1 cwd v1 s1 Hbad H1).
    rewrite (call_bad_cwd cmd2 cwd v2 s2 Hbad H2). simpl.
    split; [reflexivity | exact Hs].
Qed.

Create HintDb rel discriminated.

Hint Resolve rel_ret rel_raise rel_print rel_when rel_as_str rel_as_cwd rel_index0
  rel_iterate rel_getenv rel_isfile rel_isdir rel_exists rel_realpath rel_sysroot
  rel_run_child rel_mkdir_p rel_symlink_force rel_error rel_note cmd_sim_refl
  cmd_sim_ninja : rel.

Ltac rel_step :=
  lazymatch goal with
  | |- related (bind (getattr _ "verbose") _) (bind (getattr _ "verbose") _) =>
      apply rel_verbose; intros ? ?
  | |- related (bind _ _) (bind _ _) => apply rel_bind; [| intros ?]
  | |- related (getattr _ _) _ => apply rel_getattr; discriminate
  | |- related (setattr _ _ _) _ => apply rel_setattr; discriminate
  | |- related (call _ _ _) (call _ _ _) => apply rel_call; solve [auto with rel]
  | |- related (try_except _ _) (try_except _ _) => apply rel_try; [| intros ?]
  | |- related (if ?b then _ else _) (if ?b then _ else _) => destruct b
  | |- related (let x := _ in _) _ => cbv zeta
  | |- related _ _ => solve [auto with rel]
  end.

Ltac rel_auto := repeat rel_step.

Lemma rel_path_join a b : related (path_join h a b) (path_join h a b).
Proof. unfold path_join. rel_auto. Qed.

Lemma rel_abspath v : related (os_path_abspath h v) (os_path_abspath h v).
Proof. unfold os_path_abspath. rel_auto. Qed.

Lemma rel_call_output cmd cwd : related (call_output h cmd cwd) (call_output h cmd cwd).
Proof. unfold call_output, subprocess_check_output. rel_auto. Qed.

Hint Resolve rel_path_join rel_abspath rel_call_output : rel.

Lemma rel_clean_global_args : related (clean_global_args h) (clean_global_args h).
Proof. unfold clean_global_args. rel_auto. Qed.

Lemma rel_get_swiftc_path : related (get_swiftc_path h) (get_swiftc_path h).
Proof. unfold get_swiftc_path. rel_auto. Qed.

Lemma rel_get_build_target : related (get_build_target h) (get_build_target h).
Proof. unfold get_build_target. rel_auto. Qed.

Lemma rel_get_llbuild_cmake_arg :
  related (get_llbuild_cmake_arg h) (get_llbuild_cmake_arg h).
Proof. unfold get_llbuild_cmake_arg. rel_auto. Qed.

Lemma rel_get_llbuild_source_path :
  related (get_llbuild_source_path h) (get_llbuild_source_path h).
Proof. unfold get_llbuild_source_path. rel_auto. Qed.

Lemma rel_get_swiftpm_env_cmd : related (get_swiftpm_env_cmd h) (get_swiftpm_env_cmd h).
Proof. unfold get_swiftpm_env_cmd. rel_auto. Qed.

Lemma rel_get_swiftpm_flags : related (get_swiftpm_flags h) (get_swiftpm_flags h).
Proof. unfold get_swiftpm_flags. rel_auto. Qed.

Hint Resolve rel_clean_global_args rel_get_swiftc_path rel_get_build_target
  rel_get_llbuild_cmake_arg rel_get_llbuild_source_path rel_get_swiftpm_env_cmd
  rel_get_swiftpm_flags : rel.

Lemma rel_clean_build_args : related (clean_build_args h) (clean_build_args h).
Proof. unfold clean_build_args. rel_auto. Qed.

Lemma rel_make_symlinks : related (make_symlinks h) (make_symlinks h).
Proof. unfold make_symlinks. rel_auto. Qed.

(** The configure command is the same in both runs; the compile command
    differs by [-v]. *)
Lemma rel_build_with_cmake cmake_args source_path build_dir :
  related (build_with_cmake h cmake_args source_path build_dir)
          (build_with_cmake h cmake_args source_path build_dir).
Proof. unfold build_with_cmake. rel_auto. Qed.

Hint Resolve rel_clean_build_args rel_make_symlinks rel_build_with_cmake : rel.

Lemma rel_build_llbuild : related (build_llbuild h) (build_llbuild h).
Proof. unfold build_llbuild. rel_auto. Qed.

Lemma rel_build_swiftpm_with_cmake :
  related (build_swiftpm_with_cmake h) (build_swiftpm_with_cmake h).
Proof. unfold build_swiftpm_with_cmake. rel_auto. Qed.

Lemma rel_call_swiftpm cmd : related (call_swiftpm h cmd) (call_swiftpm h cmd).
Proof. unfold call_swiftpm. rel_auto. Qed.

Hint Resolve rel_build_llbuild rel_build_swiftpm_with_cmake rel_call_swiftpm : rel.

Lemma rel_build_swiftpm_with_swiftpm :
  related (build_swiftpm_with_swiftpm h) (build_swiftpm_with_swiftpm h).
Proof. unfold build_swiftpm_with_swiftpm. rel_auto. Qed.

Hint Resolve rel_build_swiftpm_with_swiftpm : rel.

Lemma rel_clean : related (clean h) (clean h).
Proof. unfold clean. rel_auto. Qed.

Lemma rel_build : related (build h) (build h).
Proof. unfold build. rel_auto. Qed.

Hint Resolve rel_build : rel.

Lemma rel_test : related (test h) (test h).
Proof. unfold test, clean_test_args. rel_auto. Qed.

Lemma rel_install : related (install h) (install h).
Proof. unfold install. rel_auto. Qed.

Lemma sim_with_verbose v1 v2 (s : state h) :
  sim (with_verbose h v1 s) (with_verbose h v2 s).
Proof.
  unfold sim, with_verbose; simpl.
  rewrite !delete_insert_eq, !lookup_insert_eq. eauto 10.
Qed.

End Verbose.

Lemma related_same_effects (h : Host) {A} (m : M h A) (s : state h) v1 v2 :
  related h m m -> same_effects (m (with_verbose h v1 s)) (m (with_verbose h v2 s)).
Proof.
  intros Hm. destruct (Hm _ _ (sim_with_verbose h v1 v2 s)) as [Hr Hs].
  destruct Hs as (H1 & H2 & _ & _ & _ & _ & H7). unfold same_effects. auto.
Qed.




Example verbose_compile_commands :
  List.last (map ev_cmd (st_trace (snd (build_with_cmake Demo.linux [] "/src" (VStr "/b")
                                          (working_start true false))))) [] =
    ["ninja"; "-v"] /\
  List.last (map ev_cmd (st_trace (snd (build_with_cmake Demo.linux [] "/src" (VStr "/b")
                                          (working_start false false))))) [] =
    ["ninja"].
Proof. vm_compute. split; reflexivity. Qed.

(** ** No command line supplies [llbuild_build_dir]

    The parsers of [main] only assign the destinations of their own
    arguments, [func] and [command]. *)

Section ParserFacts.

Variable k : string.
Variable parser : list argument.
Hypothesis Hdest : forall a, In a parser -> dest a <> k.

Lemma table_in o a : In (o, a) (table parser) -> In a parser.
Proof.
  unfold table. rewrite in_flat_map. intros (a' & Ha' & Hin).
  apply in_map_iff in Hin as (o' & [= _ <-] & _). exact Ha'.
Qed.

Lemma lookup_exact_in o a : lookup_exact parser o = Some a -> In a parser.
Proof.
  unfold lookup_exact. destruct (find _ (table parser)) as [[o' a']|] eqn:Hf;
    [| discriminate].
  intros [= <-]. apply find_some in Hf as [Hin _]. exact (table_in _ _ Hin).
Qed.

Lemma omap_in {A B} (f : A -> option B) (l : list A) (b : B) :
  In b (omap f l) -> exists a, In a l /\ f a = Some b.
Proof.
  induction l as [|x l IH]; simpl; [intros [] |].
  destruct (f x) as [y|] eqn:Hx.
  - intros [<-|Hin]; [eauto | destruct (IH Hin) as (a & Ha & Hf); eauto].
  - intros Hin. destruct (IH Hin) as (a & Ha & Hf); eauto.
Qed.

Lemma option_tuples_in t a o e :
  In (a, o, e) (option_tuples parser t) -> In a parser.
Proof.
  unfold option_tuples. destruct (Str.startswith "--" t).
  - destruct (split_eq t) as [name expl]. intros Hin.
    apply omap_in in Hin as ([o' a'] & Hin & Hf). simpl in Hf.
    destruct (Str.startswith name o'); [| discriminate].
    injection Hf as <- _ _. exact (table_in _ _ Hin).
  - intros Hin. apply omap_in in Hin as ([o' a'] & Hin & Hf). simpl in Hf.
    destruct (String.eqb o' _); [injection Hf as <- _ _; exact (table_in _ _ Hin) |].
    destruct (Str.startswith t o'); [| discriminate].
    injection Hf as <- _ _. exact (table_in _ _ Hin).
Qed.

Lemma classify_in t a o e : classify parser t = TOption a o e -> In a parser.
Proof.
  unfold classify. destruct (negb (Str.startswith "-" t)); [discriminate |].
  destruct (lookup_exact parser t) as [a0|] eqn:H0.
  - intros [= <- _ _]. exact (lookup_exact_in _ _ H0).
  - destruct (Nat.eqb (String.length t) 1); [discriminate |].
    destruct (split_eq t) as [name expl].
    destruct (match expl with Some _ => lookup_exact parser name | None => None end)
      as [a1|] eqn:H1.
    + intros [= <- _ _]. destruct expl; [| discriminate].
      exact (lookup_exact_in _ _ H1).
    + destruct (option_tuples parser t) as [|[[a2 o2] e2] [|x l]] eqn:H2.
      * destruct (has_space t); discriminate.
      * intros [= <- _ _]. apply (option_tuples_in t a2 o2 e2). rewrite H2. left; reflexivity.
      * discriminate.
Qed.

Lemma apply_action_absent a v ns ns' :
  In a parser -> ns !! k = None -> apply_action a v ns = Ok ns' -> ns' !! k = None.
Proof.
  intros Ha Hk. apply Hdest in Ha. unfold apply_action.
  destruct (act a); try discriminate.
  - intros [= <-]. rewrite lookup_insert_ne by exact Ha. exact Hk.
  - intros [= <-]. rewrite lookup_insert_ne by exact Ha. exact Hk.
  - destruct (ns !! dest a) as [[| | |l|]|]; intros [= <-];
      rewrite lookup_insert_ne by exact Ha; exact Hk.
Qed.

Lemma apply_actions_absent acts ns ns' :
  Forall (fun p => In (fst p) parser) acts -> ns !! k = None ->
  apply_actions acts ns = Ok ns' -> ns' !! k = None.
Proof.
  revert ns. induction acts as [|[a v] acts IH]; simpl; intros ns Hall Hk.
  - intros [= <-]. exact Hk.
  - inversion Hall as [|? ? Ha Hrest]; subst. simpl in Ha.
    destruct (apply_action a v ns) as [ns1|e] eqn:H1; [| discriminate].
    apply IH; [exact Hrest | exact (apply_action_absent a v ns ns1 Ha Hk H1)].
Qed.

Lemma cluster_in expl : forall a acts,
  In a parser -> cluster parser a expl = Some acts ->
  Forall (fun p => In (fst p) parser) acts.
Proof.
  induction expl as [|c r IH]; intros a acts Ha; simpl.
  - destruct (takes_value a); intros [= <-]; constructor; auto.
  - destruct (takes_value a); [intros [= <-]; constructor; auto |].
    destruct (lookup_exact parser _) as [a'|] eqn:Hl; [| discriminate].
    destruct (cluster parser a' r) as [acts'|] eqn:Hc; [| discriminate].
    intros [= <-]. constructor; [exact Ha |].
    exact (IH a' acts' (lookup_exact_in _ _ Hl) Hc).
Qed.

Lemma parse_optionals_absent n : forall argv ns extras ns' extras',
  (length argv <= n)%nat -> ns !! k = None ->
  parse_optionals parser argv ns extras = Ok (ns', extras') -> ns' !! k = None.
Proof.
  induction n as [|n IH]; intros argv ns extras ns' extras' Hlen Hk.
  - destruct argv; [| simpl in Hlen; lia]. intros [= <- _]. exact Hk.
  - destruct argv as [|t rest]; [intros [= <- _]; exact Hk |].
    simpl in Hlen. simpl.
    destruct (String.eqb t "--"); [intros [= <- _]; exact Hk |].
    destruct (classify parser t) as [| | |a o [expl|]] eqn:Hc;
      try discriminate; try (apply IH; [lia | exact Hk]).
    + pose proof (classify_in _ _ _ _ Hc) as Ha.
      destruct (Str.startswith "--" o).
      * destruct (takes_value a); [| discriminate].
        destruct (apply_action a expl ns) as [ns1|e] eqn:H1; [| discriminate].
        apply IH; [lia | exact (apply_action_absent _ _ _ _ Ha Hk H1)].
      * destruct (cluster parser a expl) as [acts|] eqn:Hcl; [| discriminate].
        destruct (apply_actions acts ns) as [ns1|e] eqn:H1; [| discriminate].
        apply IH; [lia |].
        exact (apply_actions_absent acts ns ns1 (cluster_in expl a acts Ha Hcl) Hk H1).
    + pose proof (classify_in _ _ _ _ Hc) as Ha.
      destruct (takes_value a).
      * destruct rest as [|v rest']; [discriminate |].
        destruct (classify parser v); try discriminate.
        destruct (apply_action a v ns) as [ns1|e] eqn:H1; [| discriminate].
        apply IH; [simpl in Hlen; lia | exact (apply_action_absent _ _ _ _ Ha Hk H1)].
      * destruct (apply_action a "" ns) as [ns1|e] eqn:H1; [| discriminate].
        apply IH; [lia | exact (apply_action_absent _ _ _ _ Ha Hk H1)].
Qed.

End ParserFacts.

Lemma subparser_dest f a :
  In a (subparser f) -> dest a <> "llbuild_build_dir".
Proof.
  destruct f; simpl; intros Hin;
    repeat (destruct Hin as [<-|Hin]; [discriminate |]); destruct Hin.
Qed.

Lemma parse_subcommand_absent f argv extras ns :
  parse_subcommand f argv extras = Ok ns -> ns !! "llbuild_build_dir" = None.
Proof.
  unfold parse_subcommand.
  destruct (parse_optionals _ argv _ extras) as [[ns' e']|e] eqn:Hp; [| discriminate].
  destruct e'; [discriminate |]. intros [= <-].
  rewrite lookup_insert_ne by discriminate.
  apply (parse_optionals_absent "llbuild_build_dir" (subparser f) (subparser_dest f)
           (length argv) argv _ extras ns' false (le_n _)) in Hp; [exact Hp |].
  rewrite lookup_insert_ne by discriminate.
  destruct f; vm_compute; reflexivity.
Qed.

Lemma parse_args_absent argv : forall extras ns,
  parse_args argv extras = Ok ns -> ns !! "llbuild_build_dir" = None.
Proof.
  induction argv as [|t rest IH]; intros extras ns; simpl.
  - destruct extras; [discriminate |]. intros [= <-]. reflexivity.
  - destruct (String.eqb t "--").
    + destruct rest as [|c rest'].
      * destruct extras; [discriminate |]. intros [= <-]. reflexivity.
      * destruct (subcommand c); [apply parse_subcommand_absent | discriminate].
    + destruct (classify new_parser t) as [| | |a o [expl|]]; try discriminate.
      * destruct (subcommand t); [apply parse_subcommand_absent | discriminate].
      * apply IH.
      * destruct (Str.startswith "--" o); [discriminate |].
        destruct (cluster new_parser a expl); discriminate.
Qed.



(** ** The children of the stages

    Every child the stages run, they run through [call]: the commands of
    the stages are the [check_call] children. *)

Section StageChildren.

Context (h : Host).
Variable tr0 : list spawn_event.

Lemma call_only_calls cmd cwd :
  keeps h (only_calls h tr0) (fun _ => only_calls h tr0) (call h cmd cwd).
Proof.
  intros s (new & Htr & Hall). pose proof (call_cases h cmd cwd s) as Hc.
  destruct (call h cmd cwd s) as [r s'].
  assert (Hg : only_calls h tr0 s').
  { destruct Hc as (_ & _ & _ & [(Htr' & _)|(d & res & _ & _ & _ & Htr' & _)]).
    - exists new. rewrite Htr'. auto.
    - exists (new ++ [call_event cmd d res]). rewrite Htr', Htr, app_assoc.
      split; [reflexivity |]. apply Forall_app; split; [exact Hall |].
      constructor; [reflexivity | constructor]. }
  destruct r; exact Hg.
Qed.

Lemma stages_keep_only_calls :
  keeps h (only_calls h tr0) (fun _ => only_calls h tr0) (build_llbuild h) /\
  keeps h (only_calls h tr0) (fun _ => only_calls h tr0) (build_swiftpm_with_cmake h) /\
  keeps h (only_calls h tr0) (fun _ => only_calls h tr0) (build_swiftpm_with_swiftpm h) /\
  (forall cmd, keeps h (only_calls h tr0) (fun _ => only_calls h tr0) (call_swiftpm h cmd)).
Proof.
  split; [| split; [| split; [| intros cmd]]];
    [ apply keeps_build_llbuild with (assignable := any_attribute)
    | apply keeps_build_swiftpm_with_cmake
    | apply keeps_build_swiftpm_with_swiftpm
    | apply keeps_call_swiftpm ];
    first [ reflexivity | apply call_only_calls | intros; assumption ].
Qed.

End StageChildren.

Lemma only_calls_start (h : Host) (s : state h) : only_calls h (st_trace s) s.
Proof. exists []. rewrite app_nil_r. split; [reflexivity | constructor]. Qed.

(** X22. Whatever the state, every child the stage functions
    [build_llbuild], [build_swiftpm_with_cmake],
    [build_swiftpm_with_swiftpm] and [call_swiftpm] run is a [check_call]
    child: they never capture the output of a command. *)
Lemma stages_run_their_children_through_call (h : Host) (s : state h) :
  only_calls h (st_trace s) (snd (build_llbuild h s)) /\
  only_calls h (st_trace s) (snd (build_swiftpm_with_cmake h s)) /\
  only_calls h (st_trace s) (snd (build_swiftpm_with_swiftpm h s)) /\
  (forall cmd, only_calls h (st_trace s) (snd (call_swiftpm h cmd s))).
Proof.
  destruct (stages_keep_only_calls h (st_trace s)) as (H1 & H2 & H3 & H4).
  pose proof (only_calls_start h s) as H0.
  split; [| split; [| split; [| intros cmd]]].
  - specialize (H1 s H0). destruct (build_llbuild h s) as [[a|e] s']; exact H1.
  - specialize (H2 s H0). destruct (build_swiftpm_with_cmake h s) as [[a|e] s']; exact H2.
  - specialize (H3 s H0). destruct (build_swiftpm_with_swiftpm h s) as [[a|e] s']; exact H3.
  - specialize (H4 cmd s H0). destruct (call_swiftpm h cmd s) as [[a|e] s']; exact H4.
Qed.

(** ** The namespace of a command line

    The sub-parsers only assign their own destinations, and each with a
    value of one kind. *)

Section ParserInvariant.

Variable parser : list argument.
Variable P : gmap string value -> Prop.
Hypothesis P_action : forall a v ns ns',
  In a parser -> P ns -> apply_action a v ns = Ok ns' -> P ns'.

Lemma apply_actions_inv acts : forall ns ns',
  Forall (fun p => In (fst p) parser) acts -> P ns ->
  apply_actions acts ns = Ok ns' -> P ns'.
Proof.
  induction acts as [|[a v] acts IH]; simpl; intros ns ns' Hall Hk.
  - intros [= <-]. exact Hk.
  - inversion Hall as [|? ? Ha Hrest]; subst. simpl in Ha.
    destruct (apply_action a v ns) as [ns1|e] eqn:H1; [| discriminate].
    apply IH; [exact Hrest | exact (P_action a v ns ns1 Ha Hk H1)].
Qed.

Lemma parse_optionals_inv n : forall argv ns extras ns' extras',
  (length argv <= n)%nat -> P ns ->
  parse_optionals parser argv ns extras = Ok (ns', extras') -> P ns'.
Proof.
  induction n as [|n IH]; intros argv ns extras ns' extras' Hlen Hk.
  - destruct argv; [| simpl in Hlen; lia]. intros [= <- _]. exact Hk.
  - destruct argv as [|t rest]; [intros [= <- _]; exact Hk |].
    simpl in Hlen. simpl.
    destruct (String.eqb t "--"); [intros [= <- _]; exact Hk |].
    destruct (classify parser t) as [| | |a o [expl|]] eqn:Hc;
      try discriminate; try (apply IH; [lia | exact Hk]).
    + pose proof (classify_in _ _ _ _ _ Hc) as Ha.
      destruct (Str.startswith "--" o).
      * destruct (takes_value a); [| discriminate].
        destruct (apply_action a expl ns) as [ns1|e] eqn:H1; [| discriminate].
        apply IH; [lia | exact (P_action _ _ _ _ Ha Hk H1)].
      * destruct (cluster parser a expl) as [acts|] eqn:Hcl; [| discriminate].
        destruct (apply_actions acts ns) as [ns1|e] eqn:H1; [| discriminate].
        apply IH; [lia |].
        exact (apply_actions_inv acts ns ns1 (cluster_in _ expl a acts Ha Hcl) Hk H1).
    + pose proof (classify_in _ _ _ _ _ Hc) as Ha.
      destruct (takes_value a).
      * destruct rest as [|v rest']; [discriminate |].
        destruct (classify parser v); try discriminate.
        destruct (apply_action a v ns) as [ns1|e] eqn:H1; [| discriminate].
        apply IH; [simpl in Hlen; lia | exact (P_action _ _ _ _ Ha Hk H1)].
      * destruct (apply_action a "" ns) as [ns1|e] eqn:H1; [| discriminate].
        apply IH; [lia | exact (P_action _ _ _ _ Ha Hk H1)].
Qed.

End ParserInvariant.

Lemma namespace_shape_insert f ns k v :
  namespace_shape f ns ->
  In k (attributes f) ->
  k <> "func" ->
  (k = "build_dir" -> exists bd, v = VStr bd) ->
  (k = "verbose" -> exists b, v = VBool b) ->
  (k = "swiftc_path" -> exists o, v = flag_value o) ->
  (k = "release" -> exists r, v = VBool r) ->
  namespace_shape f (<[k := v]> ns).
Proof.
  intros (Hf & Hbd & Hv & Hb & Hdom) Hin Hk Kbd Kv Ks Kr.
  assert (Hget : forall k' (Q : value -> Prop),
            (exists x, ns !! k' = Some x /\ Q x) ->
            (k = k' -> Q v) ->
            exists x, <[k := v]> ns !! k' = Some x /\ Q x).
  { intros k' Q (x & Hx & HQ) Hq. destruct (decide (k = k')) as [->|Hne].
    - exists v. rewrite lookup_insert_eq. auto.
    - exists x. rewrite lookup_insert_ne by exact Hne. auto. }
  split; [rewrite lookup_insert_ne by exact Hk; exact Hf |].
  split.
  { destruct Hbd as (bd & Hbd).
    destruct (Hget "build_dir" (fun x => exists bd, x = VStr bd)) as (x & Hx & (bd' & ->));
      eauto. }
  split.
  { destruct Hv as (b & Hv).
    destruct (Hget "verbose" (fun x => exists b, x = VBool b)) as (x & Hx & (b' & ->));
      eauto. }
  split.
  { intros Hne. destruct (Hb Hne) as ((o & Ho) & (r & Hr)). split.
    - destruct (Hget "swiftc_path" (fun x => exists o, x = flag_value o))
        as (x & Hx & (o' & ->)); eauto.
    - destruct (Hget "release" (fun x => exists r, x = VBool r))
        as (x & Hx & (r' & ->)); eauto. }
  intros k' Hs. destruct (decide (k = k')) as [<-|Hne]; [exact Hin |].
  rewrite lookup_insert_ne in Hs by exact Hne. exact (Hdom k' Hs).
Qed.

Lemma apply_action_shape f a v ns ns' :
  In a (subparser f) -> namespace_shape f ns ->
  apply_action a v ns = Ok ns' -> namespace_shape f ns'.
Proof.
  intros Hin Hns.
  destruct f; simpl in Hin;
    repeat (destruct Hin as [<-|Hin]; [
      unfold apply_action; simpl;
      first [ discriminate
            | intros [= <-]; apply namespace_shape_insert;
              [exact Hns | simpl; tauto | discriminate
              | try discriminate; eauto | try discriminate; eauto
              | try discriminate; intros _; exists (Some v); reflexivity
              | try discriminate; eauto ] ] |]);
    destruct Hin.
Qed.

Lemma defaults_shape f :
  namespace_shape f (<["func" := VFunc f]> (defaults (subparser f))).
Proof.
  destruct f.
  all: split; [reflexivity |].
  all: split; [exists ".build"; vm_compute; reflexivity |].
  all: split; [exists false; vm_compute; reflexivity |].
  all: split; [intros Hne;
               first [ congruence
                     | split; [exists None | exists false]; vm_compute; reflexivity ] |].
  all: intros k [x Hx]; unfold defaults in Hx; simpl in Hx;
    repeat (apply lookup_insert_Some in Hx as [[<- _]|[_ Hx]]; [simpl; tauto |]);
    rewrite lookup_empty in Hx; discriminate.
Qed.

Lemma parse_subcommand_shape f argv extras ns :
  parse_subcommand f argv extras = Ok ns ->
  ns !! "command" = Some (VStr (func_name f)) /\ namespace_shape f ns.
Proof.
  unfold parse_subcommand.
  destruct (parse_optionals _ argv _ extras) as [[ns' e']|e] eqn:Hp; [| discriminate].
  destruct e'; [discriminate |]. intros [= <-].
  split; [apply lookup_insert_eq |].
  apply (parse_optionals_inv (subparser f) (namespace_shape f) (apply_action_shape f)
           (length argv) argv _ extras ns' false (le_n _) (defaults_shape f)) in Hp.
  destruct Hp as (Hf & Hbd & Hv & Hb & Hdom).
  split; [rewrite lookup_insert_ne by discriminate; exact Hf |].
  split; [rewrite lookup_insert_ne by discriminate; exact Hbd |].
  split; [rewrite lookup_insert_ne by discriminate; exact Hv |].
  split.
  - intros Hne. destruct (Hb Hne) as (Ho & Hr).
    rewrite !lookup_insert_ne by discriminate. auto.
  - intros k Hk. destruct (decide ("command" = k)) as [<-|Hne]; [simpl; auto |].
    rewrite lookup_insert_ne in Hk by exact Hne. exact (Hdom k Hk).
Qed.

(** A command line the top-level parser accepts either names no sub-command
    or is handed to the parser of its sub-command. *)
Lemma parse_args_cases argv : forall extras ns,
  parse_args argv extras = Ok ns ->
  ns = {[ "command" := VNone ]} \/
  exists f rest e, parse_subcommand f rest e = Ok ns.
Proof.
  induction argv as [|t rest IH]; intros extras ns; simpl.
  - destruct extras; [discriminate |]. intros [= <-]. left; reflexivity.
  - destruct (String.eqb t "--").
    + destruct rest as [|c rest'].
      * destruct extras; [discriminate |]. intros [= <-]. left; reflexivity.
      * destruct (subcommand c); [| discriminate]. intros H; right; eauto.
    + destruct (classify new_parser t) as [| | |a o [expl|]]; try discriminate.
      * destruct (subcommand t); [| discriminate]. intros H; right; eauto.
      * apply IH.
      * destruct (Str.startswith "--" o); [discriminate |].
        destruct (cluster new_parser a expl); discriminate.
Qed.



(** ** Dispatch, and the [clean] action *)

(** [main] on a command line the parser accepts. *)
Lemma main_parsed (h : Host) argv (s : state h) ns :
  parse_args argv false = Ok ns ->
  (ns = {[ "command" := VNone ]} /\
   main h argv s = (Raise (AttributeError "func"), set_args h ns s)) \/
  (exists f, ns !! "command" = Some (VStr (func_name f)) /\
             ns !! "func" = Some (VFunc f) /\
             main h argv s = call_func h (VFunc f) (set_args h ns s)).
Proof.
  intros Hp.
  destruct (parse_args_cases argv false ns Hp) as [->|(f & rest & e & Hs)].
  - left. split; [reflexivity |]. unfold main, bind. rewrite Hp. reflexivity.
  - right. exists f. apply parse_subcommand_shape in Hs as (Hc & Hf & _).
    split; [exact Hc |]. split; [exact Hf |].
    rewrite (main_dispatch h argv s ns f Hp Hf).
    rewrite insert_id by exact Hf. reflexivity.
Qed.

Lemma main_rejected (h : Host) argv (s : state h) e :
  parse_args argv false = Raise e -> main h argv s = (Raise e, s).
Proof. intros Hp. unfold main, bind. rewrite Hp. reflexivity. Qed.


(** X3. A first word that does not start with a dash and is not one of
    [clean], [build] and [test] is a usage error: [main] exits with status
    2 and nothing is run.  [install] is such a word. *)
Theorem unknown_subcommand_is_a_usage_error (h : Host) t rest (s : state h) :
  Str.startswith "-" t = false ->
  subcommand t = None ->
  main h (t :: rest) s = (Raise (SystemExit 2), s).
Proof.
  intros Hd Hs. unfold main, bind.
  assert (Hp : parse_args (t :: rest) false = Raise (SystemExit 2)).
  { simpl. destruct (String.eqb t "--") eqn:Ht.
    - apply String.eqb_eq in Ht. subst t. discriminate Hd.
    - unfold classify. rewrite Hd. simpl. rewrite Hs. reflexivity. }
  rewrite Hp. reflexivity.
Qed.

Lemma unknown_subcommand_is_a_usage_error_witness :
  main Demo.linux ["install"; "--build-dir"; "/tmp/b"] (Demo.start Demo.never "Linux")
  = (Raise (SystemExit 2), Demo.start Demo.never "Linux").
Proof.
  apply (unknown_subcommand_is_a_usage_error Demo.linux "install"); reflexivity.
Defined.

Section Clean.

Context (h : Host).

Lemma clean_run (s : state h) bd v :
  st_args s !! "build_dir" = Some (VStr bd) ->
  st_args s !! "verbose" = Some v ->
  let cmd := ["rm"; "-rf"; Path.abspath (getcwd h) bd] in
  let res := fst (spawn h (st_fs s) cmd None) in
  let out := clean h s in
  fst out = (if proc_ok res then Ok tt else Raise (NameError "result")) /\
  st_trace (snd out) = st_trace s ++ [call_event cmd None res] /\
  st_stdout (snd out) =
    st_stdout s ++ [note_line h "Cleaning"]
    ++ (if (truthy v || negb (proc_ok res))%bool then [Str.join " " cmd] else []) /\
  st_fs (snd out) = snd (spawn h (st_fs s) cmd None) /\
  st_args (snd out) = <["build_dir" := VStr (Path.abspath (getcwd h) bd)]> (st_args s).
Proof.
  intros Hb Hv cmd res out. subst out. unfold clean.
  set (s1 := add_stdout h (note_line h "Cleaning") s).
  rewrite (bind_ok h (note h "Cleaning") _ s tt s1 eq_refl).
  rewrite (bind_ok h _ _ _ _ _ (clean_global_args_eq h s1 bd Hb)).
  set (s2 := set_args h _ s1).
  assert (Hb2 : st_args s2 !! "build_dir" = Some (VStr (Path.abspath (getcwd h) bd)))
    by apply lookup_insert_eq.
  assert (Hv2 : st_args s2 !! "verbose" = Some v)
    by (simpl; rewrite lookup_insert_ne by discriminate; exact Hv).
  rewrite (bind_ok h _ _ _ _ _ (getattr_ok h _ _ s2 Hb2)).
  rewrite (bind_ok h (as_str h (VStr _)) _ s2 _ s2 eq_refl).
  fold cmd. change VNone with (cwd_value None).
  subst res. change (st_fs s) with (st_fs s2).
  destruct (spawn h (st_fs s2) cmd None) as [r f] eqn:Hsp.
  destruct (proc_ok r) eqn:Hok.
  - destruct r as [[| |] o|]; try discriminate.
    rewrite (call_success h cmd None v s2 o f Hv2 Hsp). simpl.
    rewrite orb_false_r. destruct (truthy v); simpl; repeat split;
      rewrite <- ?app_assoc; reflexivity.
  - rewrite (call_failure h cmd None v s2 r f Hv2 Hsp Hok). simpl.
    rewrite Hok. rewrite orb_true_r. repeat split. rewrite <- app_assoc. reflexivity.
Qed.

End Clean.



(** ** Normalized paths

    [normpath] maps an absolute path to a normalized one and leaves a
    normalized one as it is. *)

Section PathFacts.

Lemma split_not_nil c s : Str.split c s <> [].
Proof.
  destruct s as [|a r]; simpl; [discriminate |].
  destruct (Ascii.eqb a c); [discriminate |].
  destruct (Str.split c r); discriminate.
Qed.

Lemma slash_free_String a x :
  slash_free (String a x) = (negb (Ascii.eqb a "/") && slash_free x)%bool.
Proof.
  unfold slash_free, Str.chars. cbn [list_ascii_of_string existsb].
  rewrite negb_orb, (Ascii.eqb_sym "/" a). reflexivity.
Qed.

Lemma slash_free_cons a x :
  slash_free (String a x) = true -> Ascii.eqb a "/" = false /\ slash_free x = true.
Proof.
  rewrite slash_free_String. intros H. apply andb_prop in H as [H1 H2].
  apply negb_true_iff in H1. auto.
Qed.

Lemma split_slash_free s :
  Forall (fun x => slash_free x = true) (Str.split "/" s).
Proof.
  induction s as [|a r IH]; cbn [Str.split].
  - constructor; [reflexivity | constructor].
  - destruct (Ascii.eqb a "/") eqn:Ha.
    + constructor; [reflexivity | exact IH].
    + destruct (Str.split "/" r) as [|x xs]; [constructor; [| constructor] |].
      * rewrite slash_free_String, Ha. reflexivity.
      * inversion IH as [|? ? Hx Hxs]; subst. constructor; [| exact Hxs].
        rewrite slash_free_String, Ha. exact Hx.
Qed.

(** Splitting what was joined. *)
Lemma split_free x : slash_free x = true -> Str.split "/" x = [x].
Proof.
  induction x as [|a x IH]; [reflexivity |].
  intros Hx. apply slash_free_cons in Hx as [Ha Hx]. cbn [Str.split].
  rewrite Ha, (IH Hx). reflexivity.
Qed.

Lemma split_app x r :
  slash_free x = true -> Str.split "/" (x +:+ String "/" r) = x :: Str.split "/" r.
Proof.
  induction x as [|a x IH]; intros Hx; [reflexivity |].
  apply slash_free_cons in Hx as [Ha Hx].
  change (String a x +:+ String "/" r) with (String a (x +:+ String "/" r)).
  cbn [Str.split]. rewrite Ha, (IH Hx). reflexivity.
Qed.

Lemma split_join comps :
  comps <> [] -> Forall (fun x => slash_free x = true) comps ->
  Str.split "/" (Str.join "/" comps) = comps.
Proof.
  induction comps as [|x [|y rest] IH]; intros Hne Hall; [congruence | |].
  - inversion Hall; subst. simpl. apply split_free. assumption.
  - inversion Hall as [|? ? Hx Hrest]; subst.
    change (Str.join "/" (x :: y :: rest)) with (x +:+ String "/" (Str.join "/" (y :: rest))).
    rewrite (split_app _ _ Hx). f_equal. apply IH; [discriminate | exact Hrest].
Qed.

Lemma plain_slash_free x : plain x = true -> slash_free x = true.
Proof. unfold plain. intros H. repeat (apply andb_prop in H as [H ?]). assumption. Qed.

Lemma plain_cases x :
  plain x = true ->
  String.eqb x "" = false /\ String.eqb x "." = false /\ String.eqb x ".." = false.
Proof.
  unfold plain. intros H. repeat (apply andb_prop in H as [H ?]).
  repeat split; apply negb_true_iff; assumption.
Qed.

(** Plain components go through the loop of [normpath] unchanged. *)
Lemma norm_comps_plain b comps : forall acc,
  Forall (fun x => plain x = true) comps -> Path.norm_comps b comps acc = acc ++ comps.
Proof.
  induction comps as [|x comps IH]; intros acc Hall; simpl; [symmetry; apply app_nil_r |].
  inversion Hall as [|? ? Hx Hrest]; subst.
  destruct (plain_cases x Hx) as (H1 & H2 & H3). rewrite H1, H2, H3. simpl.
  rewrite (IH _ Hrest), <- app_assoc. reflexivity.
Qed.

Lemma last_plain acc :
  Forall (fun x => plain x = true) acc ->
  match rev acc with
  | l :: _ => String.eqb l ".."
  | [] => false
  end = false.
Proof.
  intros Hall. apply Forall_rev in Hall.
  destruct (rev acc) as [|l r]; [reflexivity |].
  inversion Hall; subst. apply plain_cases; assumption.
Qed.

Lemma Forall_removelast {A} (P : A -> Prop) (l : list A) :
  Forall P l -> Forall P (removelast l).
Proof.
  induction l as [|x [|y l] IH]; intros H; simpl; auto.
  inversion H; subst. constructor; auto.
Qed.

(** From the root, the loop of [normpath] leaves plain components only. *)
Lemma norm_comps_root comps : forall acc,
  Forall (fun x => slash_free x = true) comps ->
  Forall (fun x => plain x = true) acc ->
  Forall (fun x => plain x = true) (Path.norm_comps true comps acc).
Proof.
  induction comps as [|x comps IH]; intros acc Hall Hacc; simpl; [exact Hacc |].
  inversion Hall as [|? ? Hx Hrest]; subst.
  destruct (String.eqb x "" || String.eqb x ".")%bool eqn:Hskip; [apply IH; assumption |].
  apply orb_false_iff in Hskip as [H1 H2].
  destruct (String.eqb x "..") eqn:H3; simpl.
  - rewrite (last_plain acc Hacc). apply IH; [exact Hrest |].
    apply Forall_removelast. exact Hacc.
  - apply IH; [exact Hrest |]. apply Forall_app. split; [exact Hacc |].
    constructor; [| constructor]. unfold plain. rewrite H1, H2, H3, Hx. reflexivity.
Qed.

Lemma prefix_cons c s1 a s2 :
  String.prefix (String c s1) (String a s2) = (Ascii.eqb c a && String.prefix s1 s2)%bool.
Proof.
  cbn [String.prefix]. destruct (ascii_dec c a) as [->|Hne].
  - rewrite Ascii.eqb_refl. reflexivity.
  - apply Ascii.eqb_neq in Hne. rewrite Hne. reflexivity.
Qed.

Lemma prefix_empty s : String.prefix "" s = true.
Proof. destruct s; reflexivity. Qed.

Lemma startswith_slash_cons a p : Str.startswith "/" (String a p) = Ascii.eqb a "/".
Proof.
  unfold Str.startswith. rewrite prefix_cons, prefix_empty, andb_true_r.
  apply Ascii.eqb_sym.
Qed.

Lemma startswith_slash_app p q :
  Str.startswith "/" p = true -> Str.startswith "/" (p +:+ q) = true.
Proof.
  destruct p as [|a p]; [discriminate |].
  change (String a p +:+ q) with (String a (p +:+ q)).
  rewrite !startswith_slash_cons. auto.
Qed.

Lemma join_head_not_slash comps :
  Forall (fun x => plain x = true) comps ->
  Str.startswith "/" (Str.join "/" comps) = false.
Proof.
  intros Hall. destruct comps as [|x rest]; [reflexivity |].
  inversion Hall as [|? ? Hx _]; subst.
  destruct (plain_cases x Hx) as (H1 & _).
  apply plain_slash_free in Hx.
  destruct x as [|a x]; [discriminate H1 |].
  apply slash_free_cons in Hx as [Ha _].
  assert (Hj : exists r, Str.join "/" (String a x :: rest) = String a r).
  { destruct rest; cbn [Str.join String.concat]; eauto. }
  destruct Hj as (r & ->). rewrite startswith_slash_cons. exact Ha.
Qed.

Lemma join_plain_split comps :
  Forall (fun x => plain x = true) comps ->
  Path.norm_comps true (Str.split "/" (Str.join "/" comps)) [] = comps.
Proof.
  intros Hall. destruct comps as [|x rest] eqn:Hc; [reflexivity |]. rewrite <- Hc in *.
  rewrite split_join.
  - apply (norm_comps_plain true comps [] Hall).
  - subst; discriminate.
  - eapply Forall_impl; [exact Hall |]. intros y. apply plain_slash_free.
Qed.

(** [normpath] leaves a normalized absolute path as it is. *)
Lemma normpath_canonical p : canonical p -> Path.normpath p = p.
Proof.
  intros (two & comps & Hall & ->).
  pose proof (join_head_not_slash comps Hall) as Hhead.
  pose proof (join_plain_split comps Hall) as Hsplit.
  set (body := Str.join "/" comps) in *.
  assert (Hb : String.prefix "/" body = false) by exact Hhead.
  unfold Path.normpath.
  destruct two.
  - change ("//" +:+ body) with (String "/" (String "/" body)).
    rewrite startswith_slash_cons.
    unfold Str.startswith at 1 2. rewrite !prefix_cons, Hb, prefix_empty.
    cbn [Ascii.eqb Bool.eqb andb negb String.eqb].
    cbn [Str.split Ascii.eqb Bool.eqb].
    cbn [Path.norm_comps String.eqb orb].
    rewrite Hsplit. reflexivity.
  - change ("/" +:+ body) with (String "/" body).
    rewrite startswith_slash_cons.
    unfold Str.startswith at 1 2. rewrite !prefix_cons, Hb.
    cbn [Ascii.eqb Bool.eqb andb negb String.eqb].
    cbn [Str.split Ascii.eqb Bool.eqb].
    cbn [Path.norm_comps String.eqb orb].
    rewrite Hsplit. reflexivity.
Qed.

(** [normpath] of an absolute path is a normalized absolute path. *)
Lemma normpath_absolute p : Path.isabs p = true -> canonical (Path.normpath p).
Proof.
  intros Habs. unfold Path.isabs in Habs. unfold Path.normpath.
  destruct (String.eqb p "") eqn:He;
    [apply String.eqb_eq in He; subst; discriminate |].
  rewrite Habs.
  set (two := (Str.startswith "//" p && negb (Str.startswith "///" p))%bool).
  set (comps := Path.norm_comps true (Str.split "/" p) []).
  assert (Hall : Forall (fun x => plain x = true) comps)
    by (apply norm_comps_root; [apply split_slash_free | constructor]).
  exists two, comps. split; [exact Hall |].
  destruct two; reflexivity.
Qed.

Lemma canonical_isabs p : canonical p -> Path.isabs p = true.
Proof.
  intros (two & comps & _ & ->). unfold Path.isabs.
  destruct two;
    [change ("//" +:+ Str.join "/" comps) with (String "/" (String "/" (Str.join "/" comps)))
    |change ("/" +:+ Str.join "/" comps) with (String "/" (Str.join "/" comps))];
    rewrite startswith_slash_cons; reflexivity.
Qed.

Lemma abspath_canonical cwd p :
  Path.isabs cwd = true -> canonical (Path.abspath cwd p).
Proof.
  intros Hc. unfold Path.abspath. apply normpath_absolute.
  destruct (Path.isabs p) eqn:Hp; [exact Hp |].
  unfold Path.join. unfold Path.isabs in Hp. rewrite Hp.
  destruct (String.eqb cwd "" || Str.endswith_char "/" cwd)%bool;
    apply startswith_slash_app; exact Hc.
Qed.

Lemma abspath_of_canonical cwd p : canonical p -> Path.abspath cwd p = p.
Proof.
  intros Hp. unfold Path.abspath. rewrite (canonical_isabs p Hp).
  apply normpath_canonical. exact Hp.
Qed.

End PathFacts.

(** X5. Where the working directory is absolute, [clean_global_args]
    leaves an absolute, normalized [build_dir], and running it again
    changes nothing. *)
Theorem clean_global_args_is_idempotent (h : Host) (s : state h) bd :
  Path.isabs (getcwd h) = true ->
  st_args s !! "build_dir" = Some (VStr bd) ->
  let s1 := snd (clean_global_args h s) in
  clean_global_args h s1 = (Ok tt, s1) /\
  exists B, st_args s1 !! "build_dir" = Some (VStr B) /\
            Path.isabs B = true /\ Path.normpath B = B.
Proof.
  intros Hc Hb. cbv zeta. rewrite (clean_global_args_eq h s bd Hb). simpl snd.
  pose proof (abspath_canonical (getcwd h) bd Hc) as Hcan.
  set (B := Path.abspath (getcwd h) bd) in *.
  split.
  - rewrite (clean_global_args_eq h _ B) by apply lookup_insert_eq.
    rewrite (abspath_of_canonical _ B Hcan). simpl.
    rewrite insert_insert_eq. reflexivity.
  - exists B. split; [apply lookup_insert_eq |].
    split; [apply canonical_isabs; exact Hcan | apply normpath_canonical; exact Hcan].
Qed.

Lemma clean_global_args_is_idempotent_witness :
  let s1 := snd (clean_global_args Demo.linux (working_start false false)) in
  clean_global_args Demo.linux s1 = (Ok tt, s1) /\
  exists B, st_args s1 !! "build_dir" = Some (VStr B) /\
            Path.isabs B = true /\ Path.normpath B = B.
Proof.
  apply (clean_global_args_is_idempotent Demo.linux (working_start false false) ".build");
    reflexivity.
Defined.

(** ** The helpers of the file system *)

Section MorePathFacts.

Lemma split_app_any x r :
  Str.split "/" (x +:+ String "/" r) = Str.split "/" x ++ Str.split "/" r.
Proof.
  induction x as [|a x IH]; [reflexivity |].
  change (String a x +:+ String "/" r) with (String a (x +:+ String "/" r)).
  cbn [Str.split]. rewrite IH.
  destruct (Ascii.eqb a "/"); [reflexivity |].
  pose proof (split_not_nil "/" x) as Hne.
  destruct (Str.split "/" x) as [|y ys]; [congruence | reflexivity].
Qed.

Lemma last_app_not_nil {A} (l1 l2 : list A) d :
  l2 <> [] -> List.last (l1 ++ l2) d = List.last l2 d.
Proof.
  intros Hne. induction l1 as [|x l1 IH]; [reflexivity |].
  simpl. destruct (l1 ++ l2) eqn:E; [| exact IH].
  apply app_eq_nil in E as [_ ->]. congruence.
Qed.

Lemma basename_after_slash x r : Path.basename (x +:+ String "/" r) = Path.basename r.
Proof.
  unfold Path.basename. rewrite split_app_any.
  apply last_app_not_nil, split_not_nil.
Qed.

Lemma basename_slash_free b : slash_free b = true -> Path.basename b = b.
Proof. intros Hb. unfold Path.basename. rewrite (split_free b Hb). reflexivity. Qed.

Lemma append_cons x (a b : string) : String x a +:+ b = String x (a +:+ b).
Proof. reflexivity. Qed.

Lemma append_assoc (a b c : string) : (a +:+ b) +:+ c = a +:+ (b +:+ c).
Proof.
  induction a as [|x a IH]; [reflexivity |].
  rewrite !append_cons, IH. reflexivity.
Qed.

Lemma endswith_slash a :
  Str.endswith_char "/" a = true -> exists x, a = x +:+ "/".
Proof.
  unfold Str.endswith_char, Str.chars. intros H.
  destruct (rev (list_ascii_of_string a)) as [|c l] eqn:E; [discriminate |].
  apply Ascii.eqb_eq in H. subst c.
  exists (string_of_list_ascii (rev l)).
  rewrite <- (string_of_list_ascii_of_string a).
  rewrite <- (rev_involutive (list_ascii_of_string a)), E. simpl.
  generalize (rev l). intros l'. induction l' as [|y l' IH]; [reflexivity |].
  cbn [app string_of_list_ascii]. rewrite append_cons, IH. reflexivity.
Qed.

(** The base name of a path joined with a name is the name. *)
Lemma basename_join a b :
  slash_free b = true -> String.eqb b "" = false ->
  Path.basename (Path.join a b) = b.
Proof.
  intros Hb Hne. unfold Path.join.
  assert (Hs : Str.startswith "/" b = false).
  { destruct b as [|c b]; [discriminate |]. rewrite startswith_slash_cons.
    apply slash_free_cons in Hb as [Hc _]. exact Hc. }
  rewrite Hs.
  destruct (String.eqb a "") eqn:Ha; simpl orb; cbv iota.
  - apply String.eqb_eq in Ha. subst a. apply basename_slash_free, Hb.
  - destruct (Str.endswith_char "/" a) eqn:He.
    + apply endswith_slash in He as (x & ->).
      rewrite append_assoc. change ("/" +:+ b) with (String "/" b).
      rewrite basename_after_slash. apply basename_slash_free, Hb.
    + change ("/" +:+ b) with (String "/" b).
      rewrite basename_after_slash. apply basename_slash_free, Hb.
Qed.

End MorePathFacts.

Section ShellHelpers.

Context (h : Host).

Lemma mkdir_p_ok p (s : state h) :
  fst (makedirs h (st_fs s) p) = None \/ fst (makedirs h (st_fs s) p) = Some EEXIST ->
  mkdir_p h p s = (Ok tt, set_fs h (snd (makedirs h (st_fs s) p)) s).
Proof.
  unfold mkdir_p, try_except, os_makedirs, os_result.
  destruct (makedirs h (st_fs s) p) as [[n|] f]; simpl;
    intros [H|H]; try discriminate; [injection H as -> |]; reflexivity.
Qed.

(** X6. [mkdir_p] returns exactly when [makedirs] succeeded or failed
    with [EEXIST]; any other errno is raised as the [OSError] it came with.
    The file system is the one [makedirs] left and nothing else changes. *)
Theorem mkdir_p_ignores_only_EEXIST p (s : state h) :
  let r := makedirs h (st_fs s) p in
  let out := mkdir_p h p s in
  snd out = set_fs h (snd r) s /\
  (fst out = Ok tt <-> fst r = None \/ fst r = Some EEXIST) /\
  (forall e, fst out = Raise e <->
             exists n, fst r = Some n /\ n <> EEXIST /\ e = OSError n).
Proof.
  cbv zeta. unfold mkdir_p, try_except, os_makedirs, os_result.
  destruct (makedirs h (st_fs s) p) as [[n|] f]; simpl.
  - destruct (n =? EEXIST) eqn:Hn; simpl.
    + apply Z.eqb_eq in Hn. subst n. split; [reflexivity |]. split.
      * split; auto.
      * intros e. split; [discriminate |]. intros (n & [= <-] & Hne & _). congruence.
    + apply Z.eqb_neq in Hn. split; [reflexivity |]. split.
      * split; [discriminate |]. intros [H|[= H]]; [discriminate | congruence].
      * intros e. split.
        -- intros [= <-]. eauto.
        -- intros (n' & [= <-] & _ & ->). reflexivity.
  - split; [reflexivity |]. split.
    + split; auto.
    + intros e. split; [discriminate |]. intros (n & H & _). discriminate.
Qed.

(** X7. [symlink_force] makes the link under [link_name], or inside it
    under the base name of the target when [link_name] is a directory.
    When the host answers [EEXIST] it removes the entry and tries once
    more; any other errno, a failing [remove] and a failure of the second
    attempt are raised as [OSError]. *)
Theorem symlink_force_retries_once target link_name (s : state h) :
  let l := link_path h (st_fs s) target link_name in
  let out := symlink_force h target link_name s in
  let first := symlink h (st_fs s) target l in
  match fst first with
  | None => out = (Ok tt, set_fs h (snd first) s)
  | Some n =>
      if n =? EEXIST then
        let removed := remove h (snd first) l in
        match fst removed with
        | Some m => out = (Raise (OSError m), set_fs h (snd removed) s)
        | None =>
            let second := symlink h (snd removed) target l in
            out = (match fst second with
                   | None => Ok tt
                   | Some m => Raise (OSError m)
                   end, set_fs h (snd second) s)
        end
      else out = (Raise (OSError n), set_fs h (snd first) s)
  end.
Proof.
  cbv zeta. unfold symlink_force, bind, os_path_isdir, try_except, link_path.
  set (l := if isdir h (st_fs s) link_name then _ else _). clearbody l.
  unfold os_symlink, os_remove, os_result.
  destruct (symlink h (st_fs s) target l) as [[n|] f]; simpl; [| reflexivity].
  destruct (n =? EEXIST); simpl; [| reflexivity].
  destruct (remove h f l) as [[n1|] f1]; simpl; [reflexivity |].
  destruct (symlink h f1 target l) as [[n2|] f2]; reflexivity.
Qed.

(** X8. [make_symlinks] creates [<target_dir>/lib/swift] and hands the
    link to [symlink_force]; with that directory in place the link is
    [<target_dir>/lib/swift/pm], pointing to [<bootstrap_dir>/pm]. *)
Theorem make_symlinks_links_pm (s : state h) td bs :
  st_args s !! "target_dir" = Some (VStr td) ->
  st_args s !! "bootstrap_dir" = Some (VStr bs) ->
  let runtimes := Path.join td "lib/swift" in
  let made := makedirs h (st_fs s) runtimes in
  fst made = None \/ fst made = Some EEXIST ->
  isdir h (snd made) runtimes = true ->
  make_symlinks h s = symlink_force h (Path.join bs "pm") runtimes (set_fs h (snd made) s) /\
  link_path h (snd made) (Path.join bs "pm") runtimes = Path.join runtimes "pm".
Proof.
  intros Ht Hb runtimes made Hm Hd. split.
  - unfold make_symlinks.
    rewrite (bind_ok h _ _ _ _ _ (getattr_ok h _ _ s Ht)).
    rewrite (bind_ok h _ _ _ _ _ (path_join_str h td "lib/swift" s)).
    fold runtimes.
    rewrite (bind_ok h _ _ _ _ _ (mkdir_p_ok runtimes s Hm)). fold made.
    rewrite (bind_ok h (getattr h "bootstrap_dir") _ _ (VStr bs) (set_fs h (snd made) s))
      by (apply getattr_ok; exact Hb).
    reflexivity.
  - unfold link_path. rewrite Hd. f_equal. apply basename_join; reflexivity.
Qed.

End ShellHelpers.

Lemma make_symlinks_links_pm_witness :
  make_symlinks Disk.host (Disk.start Disk.empty) =
    symlink_force Disk.host "/b/boot/pm" "/b/t/lib/swift"
      (set_fs Disk.host {| Disk.dirs := ["/b/t/lib/swift"]; Disk.links := [] |}
         (Disk.start Disk.empty)) /\
  link_path Disk.host {| Disk.dirs := ["/b/t/lib/swift"]; Disk.links := [] |}
    "/b/boot/pm" "/b/t/lib/swift" = "/b/t/lib/swift/pm".
Proof.
  refine (make_symlinks_links_pm Disk.host
            (Disk.start Disk.empty) "/b/t" "/b/boot" _ _ _ _);
    first [ left; reflexivity | vm_compute; reflexivity ].
Defined.

Example make_symlinks_twice :
  let s1 := snd (make_symlinks Disk.host (Disk.start Disk.empty)) in
  let out := make_symlinks Disk.host s1 in
  fst out = Ok tt /\
  Disk.links (st_fs s1) = [("/b/t/lib/swift/pm", "/b/boot/pm")] /\
  Disk.links (st_fs (snd out)) = [("/b/t/lib/swift/pm", "/b/boot/pm")].
Proof. vm_compute. repeat split; reflexivity. Qed.

Example symlink_force_gives_up_on_a_directory :
  fst (symlink_force Disk.host "/b/boot/pm" "/x"
         (Disk.start {| Disk.dirs := ["/x/pm"; "/x"]; Disk.links := [] |}))
  = Raise (OSError Disk.EISDIR).
Proof. vm_compute. reflexivity. Qed.

(** ** Looking up the compiler and the target *)

Section Lookup.

Context (h : Host).

(** X16. [get_swiftc_path] returns a string or raises [SystemExit(1)]
    with the tool-not-found line as the last line printed: its handler
    catches whatever the lookup raises, so no other exception leaves it. *)
Theorem get_swiftc_path_raises_only_SystemExit (s : state h) :
  match get_swiftc_path h s with
  | (Ok v, _) => exists p, v = VStr p
  | (Raise e, s') =>
      e = SystemExit 1 /\ last (st_stdout s') = Some (tool_not_found_line h)
  end.
Proof.
  unfold get_swiftc_path, try_except.
  match goal with |- match (match ?b s with _ => _ end) with _ => _ end =>
    assert (Hb : match b s with (Ok v, _) => exists p, v = VStr p | _ => True end);
    [| destruct (b s) as [[v|e] s1]; [exact Hb |] ]
  end.
  - unfold bind at 1. unfold os_getenv at 1.
    destruct (truthy (from_option VStr VNone (st_environ s !! "SWIFT_EXEC"))) eqn:Ht.
    + unfold bind, os_getenv.
      destruct (st_environ s !! "SWIFT_EXEC") as [e|]; [| discriminate Ht].
      simpl. eauto.
    + destruct (is_darwin h); unfold bind;
        match goal with |- context [call_output h ?c ?d s] =>
          destruct (call_output h c d s) as [[out|e] s1] end; simpl; eauto.
  - simpl. split; [reflexivity | apply last_snoc].
Qed.

Lemma get_build_target_failure (s : state h) v :
  is_darwin h = false ->
  st_args s !! "verbose" = Some v ->
  let res := fst (spawn h (st_fs s) triple_query None) in
  proc_ok res = false ->
  get_build_target h s =
    (Raise (child_error triple_query res),
     add_event h (query_event triple_query res)
       (set_fs h (snd (spawn h (st_fs s) triple_query None))
          (if truthy v then add_stdout h (Str.join " " triple_query) s else s))).
Proof.
  intros Hd Hv res Hok. subst res.
  unfold get_build_target. rewrite Hd. fold triple_query.
  unfold call_output, bind, getattr. rewrite Hv.
  destruct (truthy v); simpl;
    unfold subprocess_check_output, bind, run_child; simpl;
    destruct (spawn h (st_fs s) triple_query None) as [[status o|n] f]; simpl in *;
    try reflexivity;
    (destruct status; [discriminate Hok | reflexivity | reflexivity]).
Qed.

(** X17. Off Darwin, with the compiler given, a failing query of the
    target triple ends [clean_build_args] with the exception of
    [subprocess] itself: exit status 1, no diagnostic of the script, only
    the echo of the query when verbose. *)
Theorem target_triple_failure_is_not_reported (s : state h) bd p v :
  is_darwin h = false ->
  st_args s !! "build_dir" = Some (VStr bd) ->
  st_args s !! "swiftc_path" = Some (VStr p) ->
  String.eqb p "" = false ->
  st_args s !! "verbose" = Some v ->
  let res := fst (spawn h (st_fs s) triple_query None) in
  proc_ok res = false ->
  let out := clean_build_args h s in
  fst out = Raise (child_error triple_query res) /\
  exit_status (fst out) = 1 /\
  st_stdout (snd out) =
    st_stdout s ++ (if truthy v then [Str.join " " triple_query] else []) /\
  st_trace (snd out) = st_trace s ++ [query_event triple_query res].
Proof.
  intros Hd Hb Hp Hne Hv res Hok out.
  assert (Hrun : exists s3,
            st_stdout s3 = st_stdout s /\ st_trace s3 = st_trace s /\
            clean_build_args h s =
              (Raise (child_error triple_query res),
               add_event h (query_event triple_query res)
                 (set_fs h (snd (spawn h (st_fs s) triple_query None))
                    (if truthy v then add_stdout h (Str.join " " triple_query) s3 else s3)))).
  2:{ destruct Hrun as (s3 & H1 & H2 & Hrun). subst out. rewrite Hrun. simpl.
      repeat split.
      - destruct res; reflexivity.
      - destruct (truthy v); simpl; rewrite H1; [reflexivity | rewrite app_nil_r; reflexivity].
      - destruct (truthy v); simpl; rewrite H2; reflexivity. }
  clear out.
  rewrite clean_build_args_blocks.
  rewrite (bind_ok h _ _ _ _ _ (clean_global_args_eq h s bd Hb)).
  set (s1 := set_args h _ s).
  unfold resolve_swiftc_then.
  assert (Hp1 : st_args s1 !! "swiftc_path" = Some (VStr p))
    by (simpl; rewrite lookup_insert_ne by discriminate; exact Hp).
  rewrite (bind_ok h _ _ _ _ _ (getattr_ok h _ _ s1 Hp1)).
  unfold truthy at 1. rewrite Hne. simpl negb. cbv iota.
  rewrite (bind_ok h _ _ s1 tt
             (set_args h (<["swiftc_path" := VStr (Path.abspath (getcwd h) p)]> (st_args s1)) s1)
             eq_refl).
  set (s2 := set_args h _ s1).
  rewrite (bind_ok h (getattr h "swiftc_path") _ s2 (VStr (Path.abspath (getcwd h) p)) s2)
    by (apply getattr_ok; apply lookup_insert_eq).
  rewrite abspath_truthy.
  rewrite (bind_ok h (ret _) _ s2 _ s2 eq_refl).
  rewrite (bind_ok h (setattr h "swiftc_path" _) _ s2 tt
             (set_args h (<["swiftc_path" := VStr (Path.abspath (getcwd h) p)]> (st_args s2)) s2)
             eq_refl).
  set (s3 := set_args h _ s2).
  unfold derive_dirs.
  rewrite (bind_ok h (getattr h "build_dir") _ s3 (VStr (Path.abspath (getcwd h) bd)) s3)
    by (apply getattr_ok; simpl; rewrite !lookup_insert_ne by discriminate;
        apply lookup_insert_eq).
  assert (Hv3 : st_args s3 !! "verbose" = Some v)
    by (simpl; rewrite !lookup_insert_ne by discriminate; exact Hv).
  rewrite (bind_raise h _ _ _ _ _ (get_build_target_failure s3 v Hd Hv3 Hok)).
  exists s3. repeat split.
Qed.

End Lookup.

Lemma target_triple_failure_is_not_reported_witness :
  fst (clean_build_args no_clang_host no_clang_start) =
    Raise (CalledProcessError 1 ["clang"; "--print-target-triple"]) /\
  exit_status (fst (clean_build_args no_clang_host no_clang_start)) = 1 /\
  st_stdout (snd (clean_build_args no_clang_host no_clang_start)) =
    ["clang --print-target-triple"] /\
  st_trace (snd (clean_build_args no_clang_host no_clang_start)) =
    [query_event triple_query (Exited 1 "")].
Proof.
  refine (target_triple_failure_is_not_reported no_clang_host no_clang_start ".build"
            "/usr/bin/swiftc" (VBool true) _ _ _ _ _ _); vm_compute; reflexivity.
Defined.

(** ** The echo of the configure step *)

Section Echo.

Context (h : Host).

Lemma swift_flags_ok (s : state h) flags :
  swift_flags h s = Some flags ->
  (if is_darwin h then g <- g_default_sysroot h; ret ("-sdk " +:+ g) else ret "") s
  = (Ok flags, s).
Proof.
  unfold swift_flags. destruct (is_darwin h); [| intros [= <-]; reflexivity].
  unfold bind, g_default_sysroot. destruct (st_sysroot s); simpl; [| discriminate].
  intros [= <-]. reflexivity.
Qed.

(** The configure branch of [build_with_cmake] up to its child. *)
Lemma build_with_cmake_configure cmake_args source_path d v sp flags (s : state h) :
  st_args s !! "verbose" = Some v ->
  st_args s !! "swiftc_path" = Some sp ->
  isfile h (st_fs s) (Path.join d "CMakeCache.txt") = false ->
  swift_flags h s = Some flags ->
  let made := makedirs h (st_fs s) d in
  fst made = None \/ fst made = Some EEXIST ->
  let cmd := cmake_cmd flags sp cmake_args source_path in
  let s1 := set_fs h (snd made)
              (if truthy v then add_stdout h (Str.join " " cmd) s else s) in
  build_with_cmake h cmake_args source_path (VStr d) s =
    (call h cmd (VStr d);;
     verbose <- getattr h "verbose";
     call h (if truthy verbose then ["ninja"] ++ ["-v"] else ["ninja"]) (VStr d)) s1.
Proof.
  intros Hv Hsp Hc Hf made Hm cmd s1. unfold build_with_cmake.
  rewrite (bind_ok h (as_str h (VStr d)) _ s d s eq_refl).
  rewrite (bind_ok h (os_path_isfile h _) _ s _ s eq_refl).
  rewrite Hc. simpl negb. cbv iota.
  unfold bind at 1. unfold bind at 1.
  rewrite (swift_flags_ok s flags Hf).
  unfold bind at 1. rewrite (getattr_ok h _ _ s Hsp).
  unfold bind at 1. rewrite (getattr_ok h _ _ s Hv).
  fold cmd.
  set (s0 := if truthy v then add_stdout h (Str.join " " cmd) s else s).
  assert (Hw : when (truthy v) (print h (Str.join " " cmd)) s = (Ok tt, s0))
    by (subst s0; destruct (truthy v); reflexivity).
  unfold bind at 1. rewrite Hw.
  assert (Hfs : st_fs s0 = st_fs s) by (subst s0; destruct (truthy v); reflexivity).
  pose proof (mkdir_p_ok h d s0) as Hmk. rewrite Hfs in Hmk. specialize (Hmk Hm).
  unfold bind at 1. rewrite Hmk. reflexivity.
Qed.

(** X19. In verbose mode a configure step is echoed twice in a row: once by
    [build_with_cmake], once by [call]. *)
Theorem verbose_echoes_the_configure_command_twice cmake_args source_path d v sp flags
    (s : state h) :
  st_args s !! "verbose" = Some v ->
  truthy v = true ->
  st_args s !! "swiftc_path" = Some (VStr sp) ->
  isfile h (st_fs s) (Path.join d "CMakeCache.txt") = false ->
  swift_flags h s = Some flags ->
  fst (makedirs h (st_fs s) d) = None \/ fst (makedirs h (st_fs s) d) = Some EEXIST ->
  let line := Str.join " " (cmake_cmd flags (VStr sp) cmake_args source_path) in
  exists rest,
    st_stdout (snd (build_with_cmake h cmake_args source_path (VStr d) s)) =
      st_stdout s ++ [line; line] ++ rest.
Proof.
  intros Hv Ht Hsp Hc Hf Hm line.
  rewrite (build_with_cmake_configure cmake_args source_path d v (VStr sp) flags s Hv Hsp Hc Hf Hm).
  rewrite Ht. fold line.
  set (cmd := cmake_cmd flags (VStr sp) cmake_args source_path) in *.
  set (s1 := set_fs h _ _).
  assert (Hv1 : st_args s1 !! "verbose" = Some v) by exact Hv.
  change (VStr d) with (cwd_value (Some d)).
  destruct (spawn h (st_fs s1) cmd (Some d)) as [r f] eqn:Hsp1.
  destruct (proc_ok r) eqn:Hok.
  - destruct r as [[| |] o|]; try discriminate.
    rewrite (bind_ok h _ _ _ _ _ (call_success h cmd (Some d) v s1 o f Hv1 Hsp1)).
    rewrite Ht. set (s2 := add_event h _ _).
    assert (Hv2 : st_args s2 !! "verbose" = Some v) by exact Hv.
    rewrite (bind_ok h _ _ _ _ _ (getattr_ok h _ _ s2 Hv2)). rewrite Ht.
    set (ninja := ["ninja"] ++ ["-v"]).
    destruct (spawn h (st_fs s2) ninja (Some d)) as [r2 f2] eqn:Hsp2.
    destruct (proc_ok r2) eqn:Hok2.
    + destruct r2 as [[| |] o2|]; try discriminate.
      rewrite (call_success h ninja (Some d) v s2 o2 f2 Hv2 Hsp2). rewrite Ht.
      exists [Str.join " " ninja]. simpl. rewrite <- !app_assoc. reflexivity.
    + rewrite (call_failure h ninja (Some d) v s2 r2 f2 Hv2 Hsp2 Hok2).
      exists [Str.join " " ninja]. simpl. rewrite <- !app_assoc. reflexivity.
  - rewrite (bind_raise h _ _ _ _ _ (call_failure h cmd (Some d) v s1 r f Hv1 Hsp1 Hok)).
    exists []. simpl. rewrite <- !app_assoc. reflexivity.
Qed.

End Echo.

Lemma verbose_echoes_the_configure_command_twice_witness :
  exists rest,
    st_stdout (snd (build_with_cmake Demo.linux ["-DX=1"] "/src" (VStr "/b")
                      (working_start true false))) =
      st_stdout (working_start true false)
      ++ [Str.join " " (cmake_cmd "" (VStr "/usr/bin/swiftc") ["-DX=1"] "/src");
          Str.join " " (cmake_cmd "" (VStr "/usr/bin/swiftc") ["-DX=1"] "/src")]
      ++ rest.
Proof.
  refine (verbose_echoes_the_configure_command_twice Demo.linux ["-DX=1"] "/src" "/b"
            (VBool true) "/usr/bin/swiftc" "" (working_start true false)
            _ _ _ _ _ _);
    first [ left; reflexivity | vm_compute; reflexivity ].
Defined.

Example verbose_configure_echo :
  st_stdout (snd (build_with_cmake Demo.linux ["-DX=1"] "/src" (VStr "/b")
                    (working_start true false))) =
    ["cmake -G Ninja -DCMAKE_BUILD_TYPE:=Debug -DCMAKE_Swift_FLAGS= -DCMAKE_Swift_COMPILER:=/usr/bin/swiftc -DX=1 /src";
     "cmake -G Ninja -DCMAKE_BUILD_TYPE:=Debug -DCMAKE_Swift_FLAGS= -DCMAKE_Swift_COMPILER:=/usr/bin/swiftc -DX=1 /src";
     "ninja -v"].
Proof. vm_compute. reflexivity. Qed.

(** ** Loading the module, and the growth of the trace *)

Section Growth.

Context (h : Host).
Variable tr0 : list spawn_event.
Variable g : option string.

Local Abbreviation grown := (grown h tr0 g).

Lemma call_grown cmd cwd : keeps h grown (fun _ => grown) (call h cmd cwd).
Proof.
  intros s [(new & Htr) Hg]. pose proof (call_cases h cmd cwd s) as Hc.
  destruct (call h cmd cwd s) as [r s'].
  assert (Hs' : grown s').
  { destruct Hc as (_ & _ & Hsys & [(Htr' & _)|(d & res & _ & _ & _ & Htr' & _)]).
    - split; [exists new; congruence | unfold sysroot_is in *; congruence].
    - split; [| unfold sysroot_is in *; congruence].
      exists (new ++ [call_event cmd d res]). rewrite Htr', Htr, app_assoc. reflexivity. }
  destruct r; exact Hs'.
Qed.

Lemma grown_output cmd cwd r (s : state h) :
  grown s ->
  grown (add_event h {| ev_kind := CheckOutput; ev_cmd := cmd; ev_cwd := cwd;
                        ev_result := r |} s).
Proof.
  intros [(new & Htr) Hg]. split; [| exact Hg].
  eexists. simpl. rewrite Htr, <- app_assoc. reflexivity.
Qed.

Lemma main_grown argv : keeps h grown (fun _ => grown) (main h argv).
Proof.
  apply keeps_main with (assignable := any_attribute);
    first [ reflexivity | apply call_grown | apply grown_output
          | intros; assumption ].
Qed.

Lemma build_with_cmake_grown cmake_args source_path d :
  keeps h grown (fun _ => grown) (build_with_cmake h cmake_args source_path d).
Proof.
  apply keeps_build_with_cmake;
    first [ apply call_grown | intros; assumption ].
Qed.

Lemma make_symlinks_grown : keeps h grown (fun _ => grown) (make_symlinks h).
Proof.
  apply quiet_keeps; [intros; assumption |].
  apply quiet_make_symlinks. intros; assumption.
Qed.

End Growth.

Lemma grown_start (h : Host) (s : state h) : grown h (st_trace s) (st_sysroot s) s.
Proof. split; [exists []; rewrite app_nil_r; reflexivity | reflexivity]. Qed.

Lemma grown_run (h : Host) {A} (m : M h A) (s : state h) :
  keeps h (grown h (st_trace s) (st_sysroot s))
    (fun _ => grown h (st_trace s) (st_sysroot s)) m ->
  (exists new, st_trace (snd (m s)) = st_trace s ++ new) /\
  st_sysroot (snd (m s)) = st_sysroot s.
Proof.
  intros Hm. specialize (Hm s (grown_start h s)).
  destruct (m s) as [[a|e] s']; exact Hm.
Qed.

(** On Darwin the module queries the SDK path when it is loaded. *)
Lemma module_init_darwin (h : Host) (s : state h) :
  is_darwin h = true ->
  let res := fst (spawn h (st_fs s) sdk_query None) in
  let s1 := add_event h (query_event sdk_query res)
              (set_fs h (snd (spawn h (st_fs s) sdk_query None)) s) in
  module_init h s =
    match res with
    | Exited 0 o => (Ok tt, set_sysroot h (Some (Str.strip o)) s1)
    | _ => (Raise (child_error sdk_query res), s1)
    end.
Proof.
  intros Hd. cbv zeta. unfold module_init. rewrite Hd. fold sdk_query.
  unfold bind, run_child.
  destruct (spawn h (st_fs s) sdk_query None) as [[status o|n] f]; simpl; [| reflexivity].
  destruct status; reflexivity.
Qed.



(** ** Without the SDK path *)

Section Sysroot.

Context (h : Host).
Variable tr0 : list spawn_event.

Local Abbreviation stuck := (stuck_at_touch h tr0).

Lemma stuck_mono k k' s : (k <= k')%nat -> stuck k s -> stuck k' s.
Proof.
  intros Hk (Hg & new & Htr & Hall & Hlen). split; [exact Hg |].
  exists new. repeat split; auto. lia.
Qed.

Lemma stuck_fs k f s : stuck k s -> stuck k (set_fs h f s).
Proof. intros Hs; exact Hs. Qed.

Lemma stuck_stdout k line s : stuck k s -> stuck k (add_stdout h line s).
Proof. intros Hs; exact Hs. Qed.

Lemma stuck_args k a s : stuck k s -> stuck k (set_args h a s).
Proof. intros Hs; exact Hs. Qed.

Lemma stuck_output k cmd cwd r s :
  stuck k s ->
  stuck k (add_event h {| ev_kind := CheckOutput; ev_cmd := cmd; ev_cwd := cwd;
                          ev_result := r |} s).
Proof.
  intros (Hg & new & Htr & Hall & Hlen). split; [exact Hg |].
  eexists. simpl. rewrite Htr, <- app_assoc. split; [reflexivity |]. split.
  - apply Forall_app. split; [exact Hall |]. constructor; [discriminate | constructor].
  - unfold stage_commands in *. rewrite List.filter_app, length_app. simpl. lia.
Qed.

Lemma call_touch cwd :
  hoare h (stuck 0) (call h touch_cmd cwd) (fun _ => stuck 1)
    (fun e s => exit_code e = 1 /\ stuck 1 s).
Proof.
  intros s (Hg & new & Htr & Hall & Hlen).
  pose proof (call_cases h touch_cmd cwd s) as Hc.
  destruct (call h touch_cmd cwd s) as [r s'].
  assert (Hs' : stuck 1 s' /\ forall e, r = Raise e -> exit_code e = 1).
  { destruct Hc as (_ & _ & Hsys & [(Htr' & _ & e & -> & He)|(d & res & _ & _ & _ & Htr' & Hr)]).
    - split; [| intros e' [= <-]; exact He].
      split; [congruence |]. exists new.
      split; [congruence |]. split; [exact Hall | lia].
    - split.
      + split; [congruence |].
        exists (new ++ [call_event touch_cmd d res]).
        rewrite Htr', Htr, app_assoc. split; [reflexivity |]. split.
        * apply Forall_app. split; [exact Hall |]. constructor; [reflexivity | constructor].
        * unfold stage_commands in *. rewrite List.filter_app, length_app. simpl. lia.
      + intros e ->. destruct (proc_ok res); [discriminate |].
        destruct Hr as [[= ->] _]. reflexivity. }
  destruct Hs' as [Hs' He]. destruct r as [[]|e]; [exact Hs' | split; [apply He; reflexivity | exact Hs']].
Qed.

(** Without the SDK path, [build_llbuild] does not get past the assembly of
    the configure command. *)
Lemma build_llbuild_stuck :
  hoare h (stuck 0) (build_llbuild h) (fun _ _ => False)
    (fun e s => exit_code e = 1 /\ stuck 1 s).
Proof.
  assert (X0 : forall e s, exit_code e = 1 -> stuck 0 s -> exit_code e = 1 /\ stuck 1 s)
    by (intros e s He Hs; split; [exact He | apply (stuck_mono 0 1); [lia | exact Hs]]).
  assert (X1 : forall e s, exit_code e = 1 -> stuck 1 s -> exit_code e = 1 /\ stuck 1 s)
    by auto.
  unfold build_llbuild.
  apply (quiet_bind_post h _ _ X0); [apply quiet_note; apply stuck_stdout | intros _].
  apply (quiet_bind_post h _ _ X0); [apply quiet_getattr | intros target_dir].
  apply (quiet_bind_post h _ _ X0); [apply quiet_path_join | intros d].
  apply (quiet_bind_post h _ _ X0);
    [apply quiet_setattr with (assignable := any_attribute);
       [intros; apply stuck_args; assumption | reflexivity] | intros _].
  apply (quiet_bind_post h _ _ X0); [apply quiet_getattr | intros lbd].
  apply (quiet_bind_post h _ _ X0); [apply quiet_path_join | intros api_dir].
  apply (quiet_bind_post h _ _ X0); [apply quiet_mkdir_p; apply stuck_fs | intros _].
  eapply hoare_bind; [apply call_touch | intros ?; cbv beta].
  apply (quiet_bind_post h _ _ X1); [apply quiet_getattr | intros source_dir].
  apply (quiet_bind_post h _ _ X1).
  { destruct (truthy source_dir); [apply quiet_ret |].
    apply quiet_bind; [apply quiet_get_llbuild_source_path; apply stuck_stdout |].
    intros p. apply quiet_ret. }
  intros lsd s Hs. unfold bind, g_default_sysroot.
  destruct Hs as [Hg Hrest]. rewrite Hg. simpl. split; [reflexivity |].
  split; assumption.
Qed.

End Sysroot.

(** X9. Where [g_default_sysroot] is unbound, as off Darwin, and no
    pre-built dependency is named, [build] always fails with exit status
    1: of the stage commands it runs at most the [touch] of the query
    directory, never a configure or a compile step. *)
Theorem build_of_llbuild_needs_the_sdk_path (h : Host) (s : state h) :
  st_sysroot s = None ->
  no_prebuilt_llbuild h s ->
  let out := build h s in
  (exists e, fst out = Raise e /\ exit_code e = 1) /\
  stuck_at_touch h (st_trace s) 1 (snd out).
Proof.
  intros Hg Hl. cbv zeta.
  set (I0 := fun s' : state h => stuck_at_touch h (st_trace s) 0 s' /\ no_prebuilt_llbuild h s').
  assert (H0 : I0 s).
  { split; [| exact Hl]. split; [exact Hg |]. exists []. rewrite app_nil_r.
    repeat split; [constructor | simpl; lia]. }
  assert (Hq : quiet h I0 (clean_build_args h)).
  { apply quiet_clean_build_args with (assignable := not_llbuild_build_dir);
      try reflexivity; unfold I0.
    - intros f s' Hs'; exact Hs'.
    - intros line s' Hs'; exact Hs'.
    - intros cmd cwd r s' [Hs' Hl']. split; [apply stuck_output; exact Hs' | exact Hl'].
    - intros k v s' Hk [Hs' Hl']. split; [exact Hs' |].
      intros lv. simpl. rewrite lookup_insert_ne; [apply Hl' |].
      intros ->. discriminate Hk. }
  assert (Hrun : match build h s with
                 | (Ok _, _) => False
                 | (Raise e, s') => exit_code e = 1 /\ stuck_at_touch h (st_trace s) 1 s'
                 end).
  { unfold build. specialize (Hq s H0).
    destruct (clean_build_args h s) as [[[]|e] s1] eqn:Hcb.
    - destruct Hq as [Hs1 Hl1].
      rewrite (bind_ok h _ _ _ _ _ Hcb).
      unfold bind at 1. unfold getattr.
      destruct (st_args s1 !! "llbuild_build_dir") as [lv|] eqn:Hlv.
      + rewrite (Hl1 lv Hlv). simpl negb. cbv iota.
        pose proof (build_llbuild_stuck h (st_trace s) s1 Hs1) as Hb.
        unfold bind. destruct (build_llbuild h s1) as [[[]|e] s2]; [destruct Hb |].
        exact Hb.
      + split; [reflexivity |]. apply (stuck_mono h _ 0 1); [lia | exact Hs1].
    - rewrite (bind_raise h _ _ _ _ _ Hcb). destruct Hq as [He [Hs1 _]].
      split; [exact He |]. apply (stuck_mono h _ 0 1); [lia | exact Hs1]. }
  destruct (build h s) as [[[]|e] s']; [destruct Hrun |].
  destruct Hrun as [He Hs']. simpl. split; [eauto | exact Hs'].
Qed.

Lemma build_of_llbuild_needs_the_sdk_path_witness :
  (exists e, fst (build Demo.linux bootstrap_start) = Raise e /\ exit_code e = 1) /\
  stuck_at_touch Demo.linux (st_trace bootstrap_start) 1 (snd (build Demo.linux bootstrap_start)).
Proof.
  apply (build_of_llbuild_needs_the_sdk_path Demo.linux bootstrap_start); [reflexivity |].
  intros lv Hlv. vm_compute in Hlv. injection Hlv as <-. reflexivity.
Defined.

Example build_of_llbuild_on_linux :
  let out := build Demo.linux bootstrap_start in
  fst out = Raise (NameError "g_default_sysroot") /\
  map ev_cmd (stage_commands (st_trace (snd out))) = [["touch"; "codemodel-v2"]].
Proof. vm_compute. split; reflexivity. Qed.

(** ** The configure step of Stage 2 *)

Section Stage2.

Context (h : Host).

Lemma get_llbuild_cmake_arg_eq (s : state h) lf ld :
  st_args s !! "llbuild_link_framework" = Some lf ->
  st_args s !! "llbuild_build_dir" = Some (VStr ld) ->
  get_llbuild_cmake_arg h s = (Ok (llbuild_arg lf ld), s).
Proof.
  intros Hlf Hld. unfold get_llbuild_cmake_arg, llbuild_arg.
  rewrite (bind_ok h _ _ _ _ _ (getattr_ok h _ _ s Hlf)).
  destruct (truthy lf); rewrite (bind_ok h _ _ _ _ _ (getattr_ok h _ _ s Hld)); reflexivity.
Qed.

(** X11. With no cache descriptor in [bootstrap_dir], the first child of
    Stage 2 is the configure step, run in [bootstrap_dir]: the generator
    and the build type, the Swift flags and compiler, the argument that
    names the dependency, then the products directory, the vendored
    flag, the first install prefix and the library switch, and the
    project root as the source. *)
Theorem stage_2_configure_command (s : state h) lf ld bin p ps il bs sp v flags :
  st_args s !! "llbuild_link_framework" = Some lf ->
  st_args s !! "llbuild_build_dir" = Some (VStr ld) ->
  st_args s !! "bin_dir" = Some (VStr bin) ->
  st_args s !! "install_prefixes" = Some (VList (p :: ps)) ->
  st_args s !! "install_libspm" = Some il ->
  st_args s !! "bootstrap_dir" = Some (VStr bs) ->
  st_args s !! "swiftc_path" = Some (VStr sp) ->
  st_args s !! "verbose" = Some v ->
  isfile h (st_fs s) (Path.join bs "CMakeCache.txt") = false ->
  swift_flags h s = Some flags ->
  let made := makedirs h (st_fs s) bs in
  fst made = None \/ fst made = Some EEXIST ->
  let cmd := stage_2_configure h flags sp lf ld bin p il in
  exists rest,
    st_trace (snd (build_swiftpm_with_cmake h s)) =
      st_trace s ++ call_event cmd (Some bs) (fst (spawn h (snd made) cmd (Some bs))) :: rest.
Proof.
  intros Hlf Hld Hbin Hip Hil Hbs Hsp Hv Hc Hf made Hm cmd.
  unfold build_swiftpm_with_cmake.
  set (s0 := add_stdout h (note_line h "Building SwiftPM (with CMake)") s).
  rewrite (bind_ok h (note h _) _ s tt s0 eq_refl).
  rewrite (bind_ok h _ _ _ _ _ (get_llbuild_cmake_arg_eq s0 lf ld Hlf Hld)).
  rewrite (bind_ok h _ _ _ _ _ (getattr_ok h _ _ s0 Hbin)).
  rewrite (bind_ok h (as_str h (VStr bin)) _ s0 bin s0 eq_refl).
  rewrite (bind_ok h _ _ _ _ _ (getattr_ok h _ _ s0 Hip)).
  rewrite (bind_ok h (index0 h (VList (p :: ps))) _ s0 p s0 eq_refl).
  rewrite (bind_ok h _ _ _ _ _ (getattr_ok h _ _ s0 Hil)).
  rewrite (bind_ok h _ _ _ _ _ (getattr_ok h _ _ s0 Hbs)).
  unfold bind at 1.
  rewrite (build_with_cmake_configure h _ _ bs v (VStr sp) flags s0 Hv Hsp Hc Hf Hm).
  change (cmake_cmd flags (VStr sp) _ (g_project_root h)) with cmd.
  change (st_fs s0) with (st_fs s). fold made.
  set (s1 := set_fs h (snd made) _).
  assert (Hv1 : st_args s1 !! "verbose" = Some v)
    by (subst s1; destruct (truthy v); exact Hv).
  assert (Htr1 : st_trace s1 = st_trace s) by (subst s1; destruct (truthy v); reflexivity).
  assert (Hfs1 : st_fs s1 = snd made) by reflexivity.
  pose proof (call_trace h cmd (Some bs) v s1 Hv1) as Hct.
  rewrite Htr1, Hfs1 in Hct. simpl cwd_value in Hct.
  set (ev := call_event cmd (Some bs) _) in *.
  unfold bind at 1.
  destruct (call h cmd (VStr bs) s1) as [[[]|e] s2] eqn:Hcall; simpl in Hct.
  - match goal with |- context [snd (let (r, s') := ?m s2 in _)] =>
      destruct (grown_run h m s2) as ((new & Htr) & _);
        [| destruct (m s2) as [[[]|e'] s3] eqn:Hm2 ]
    end.
    + apply keeps_bind; [apply quiet_keeps; [intros; assumption | apply quiet_getattr] |].
      intros ?. apply call_grown.
    + simpl in Htr.
      destruct (grown_run h (make_symlinks h) s3 (make_symlinks_grown h _ _))
        as ((new' & Htr') & _).
      exists (new ++ new'). rewrite Htr', Htr, Hct, <- !app_assoc. reflexivity.
    + simpl in *. exists new. rewrite Htr, Hct, <- !app_assoc. reflexivity.
  - simpl. exists []. exact Hct.
Qed.

(** X12. With an empty list of install prefixes Stage 2 raises
    [IndexError] before it runs anything: only its note is printed. *)
Theorem no_install_prefix_is_an_IndexError (s : state h) lf ld bin :
  st_args s !! "llbuild_link_framework" = Some lf ->
  st_args s !! "llbuild_build_dir" = Some (VStr ld) ->
  st_args s !! "bin_dir" = Some (VStr bin) ->
  st_args s !! "install_prefixes" = Some (VList []) ->
  build_swiftpm_with_cmake h s =
    (Raise IndexError, add_stdout h (note_line h "Building SwiftPM (with CMake)") s).
Proof.
  intros Hlf Hld Hbin Hip. unfold build_swiftpm_with_cmake.
  set (s0 := add_stdout h (note_line h "Building SwiftPM (with CMake)") s).
  rewrite (bind_ok h (note h _) _ s tt s0 eq_refl).
  rewrite (bind_ok h _ _ _ _ _ (get_llbuild_cmake_arg_eq s0 lf ld Hlf Hld)).
  rewrite (bind_ok h _ _ _ _ _ (getattr_ok h _ _ s0 Hbin)).
  rewrite (bind_ok h (as_str h (VStr bin)) _ s0 bin s0 eq_refl).
  rewrite (bind_ok h _ _ _ _ _ (getattr_ok h _ _ s0 Hip)).
  reflexivity.
Qed.

End Stage2.

Lemma stage_2_configure_command_witness :
  exists rest,
    st_trace (snd (build_swiftpm_with_cmake Demo.linux assembled_start)) =
      st_trace assembled_start
      ++ call_event
           (stage_2_configure Demo.linux "" "/usr/bin/swiftc" (VBool false)
              "/deps/llbuild" "/w/.build/x86_64-unknown-linux-gnu/debug" "/usr/local"
              (VBool false))
           (Some "/w/.build/bootstrap")
           (fst (spawn Demo.linux (snd (makedirs Demo.linux (st_fs assembled_start)
                                          "/w/.build/bootstrap"))
                   (stage_2_configure Demo.linux "" "/usr/bin/swiftc" (VBool false)
                      "/deps/llbuild" "/w/.build/x86_64-unknown-linux-gnu/debug"
                      "/usr/local" (VBool false))
                   (Some "/w/.build/bootstrap")))
      :: rest.
Proof.
  refine (stage_2_configure_command Demo.linux assembled_start (VBool false)
            "/deps/llbuild" "/w/.build/x86_64-unknown-linux-gnu/debug" "/usr/local" []
            (VBool false) "/w/.build/bootstrap" "/usr/bin/swiftc" (VBool false) ""
            _ _ _ _ _ _ _ _ _ _ _);
    first [ left; reflexivity | vm_compute; reflexivity ].
Defined.

Lemma no_install_prefix_is_an_IndexError_witness :
  build_swiftpm_with_cmake Demo.linux no_prefix_start =
    (Raise IndexError,
     add_stdout Demo.linux (note_line Demo.linux "Building SwiftPM (with CMake)")
       no_prefix_start).
Proof.
  refine (no_install_prefix_is_an_IndexError Demo.linux no_prefix_start (VBool false)
            "/deps/llbuild" "/w/.build/x86_64-unknown-linux-gnu/debug" _ _ _ _);
    vm_compute; reflexivity.
Defined.

(** ** The runs that return

    What a function has done can be read back from the fact that it
    returned: every step before its end returned as well. *)

Section Returns.

Context (h : Host).

Lemma bind_ok_inv {A B} (m : M h A) (f : A -> M h B) s b s' :
  bind m f s = (Ok b, s') -> exists a s1, m s = (Ok a, s1) /\ f a s1 = (Ok b, s').
Proof.
  unfold bind. destruct (m s) as [[a|e] s1]; [eauto | discriminate].
Qed.

Lemma getattr_inv k v (s s' : state h) :
  getattr h k s = (Ok v, s') -> s' = s /\ st_args s !! k = Some v.
Proof.
  unfold getattr. destruct (st_args s !! k); [| discriminate]. intros [= <- <-]. auto.
Qed.

Lemma as_str_inv v x (s s' : state h) :
  as_str h v s = (Ok x, s') -> s' = s /\ v = VStr x.
Proof. destruct v; try discriminate. intros [= <- <-]. auto. Qed.

Lemma path_join_inv a b x (s s' : state h) :
  path_join h a b s = (Ok x, s') -> s' = s /\ exists p, a = VStr p /\ x = Path.join p b.
Proof. destruct a; try discriminate. intros [= <- <-]. eauto. Qed.

Lemma iterate_inv v l (s s' : state h) :
  iterate h v s = (Ok l, s') -> s' = s /\ elements v = Some l.
Proof. destruct v; try discriminate; intros [= <- <-]; auto. Qed.

(** A [call] that returns has run its child to status 0. *)
Lemma call_ok_inv cmd cwd (s s' : state h) :
  call h cmd cwd s = (Ok tt, s') ->
  exists v d o f,
    st_args s !! "verbose" = Some v /\ cwd = cwd_value d /\
    spawn h (st_fs s) cmd d = (Exited 0 o, f) /\
    s' = add_event h (call_event cmd d (Exited 0 o))
           (set_fs h f (if truthy v then add_stdout h (Str.join " " cmd) s else s)).
Proof.
  intros Hc. pose proof (call_cases h cmd cwd s) as Hcases. rewrite Hc in Hcases.
  destruct Hcases as (_ & _ & _ & [(_ & _ & e & He & _)|(d & res & -> & _ & Hres & _ & Hr)]);
    [discriminate He |].
  destruct (st_args s !! "verbose") as [v|] eqn:Hv.
  2:{ unfold call, bind, getattr in Hc. rewrite Hv in Hc. discriminate Hc. }
  destruct (spawn h (st_fs s) cmd d) as [r f] eqn:Hsp. simpl in Hres. subst res.
  destruct (proc_ok r) eqn:Hok; [| destruct Hr as [Hr _]; discriminate Hr].
  destruct r as [[| |] o|]; try discriminate.
  rewrite (call_success h cmd d v s o f Hv Hsp) in Hc. injection Hc as <-.
  exists v, d, o, f. auto.
Qed.

Lemma call_ok_trace cmd cwd (s s' : state h) :
  call h cmd cwd s = (Ok tt, s') ->
  exists d o,
    cwd = cwd_value d /\ st_args s' = st_args s /\
    st_trace s' = st_trace s ++ [call_event cmd d (Exited 0 o)].
Proof.
  intros Hc. apply call_ok_inv in Hc as (v & d & o & f & _ & -> & _ & ->).
  exists d, o. destruct (truthy v); auto.
Qed.

(** A computation that keeps every invariant leaves the state as it is. *)
Lemma unchanged {A} (m : M h A) (s : state h) r s1 :
  (forall I, quiet h I m) -> m s = (r, s1) -> s1 = s.
Proof.
  intros Hq Hm. specialize (Hq (fun x => x = s) s eq_refl). rewrite Hm in Hq.
  destruct r; [exact Hq | exact (proj2 Hq)].
Qed.

Lemma steady_refl (s : state h) : steady h s s.
Proof. split; reflexivity. Qed.

Lemma steady_quiet {A} (m : M h A) (s : state h) :
  quiet h (steady h s) m -> steady h s (snd (m s)).
Proof.
  intros Hm. specialize (Hm s (steady_refl s)).
  destruct (m s) as [[a|e] s']; [exact Hm | exact (proj2 Hm)].
Qed.

Lemma note_steady msg (s : state h) : steady h s (snd (note h msg s)).
Proof. split; reflexivity. Qed.

Lemma mkdir_p_steady p (s : state h) : steady h s (snd (mkdir_p h p s)).
Proof. apply steady_quiet, quiet_mkdir_p. intros f s' Hs'; exact Hs'. Qed.

Lemma make_symlinks_steady (s : state h) : steady h s (snd (make_symlinks h s)).
Proof. apply steady_quiet, quiet_make_symlinks. intros f s' Hs'; exact Hs'. Qed.

Lemma get_swiftpm_flags_inv flags (s s' : state h) :
  get_swiftpm_flags h s = (Ok flags, s') ->
  s' = s /\ exists rel,
    st_args s !! "release" = Some rel /\
    flags = ["--disable-index-store"] ++ (if truthy rel then release_flags else []).
Proof.
  intros H. unfold get_swiftpm_flags in H.
  apply bind_ok_inv in H as (rel & s1 & H1 & H). apply getattr_inv in H1 as [-> Hrel].
  destruct (truthy rel) eqn:Ht; injection H as <- <-; split; auto;
    exists rel; rewrite Ht; auto.
Qed.

Lemma get_swiftpm_env_cmd_inv env (s s' : state h) :
  get_swiftpm_env_cmd h s = (Ok env, s') ->
  s' = s /\ exists sp bd bs ld lf,
    st_args s !! "swiftc_path" = Some (VStr sp) /\
    st_args s !! "build_dir" = Some (VStr bd) /\
    st_args s !! "bootstrap_dir" = Some (VStr bs) /\
    st_args s !! "llbuild_build_dir" = Some (VStr ld) /\
    st_args s !! "llbuild_link_framework" = Some lf /\
    env = expected_overlay sp bd bs ld (truthy lf).
Proof.
  intros H. unfold get_swiftpm_env_cmd in H.
  apply bind_ok_inv in H as (spv & s1 & H1 & H). apply getattr_inv in H1 as [-> Hsp].
  apply bind_ok_inv in H as (sp & s1 & H1 & H). apply as_str_inv in H1 as [-> ->].
  apply bind_ok_inv in H as (bdv & s1 & H1 & H). apply getattr_inv in H1 as [-> Hbd].
  apply bind_ok_inv in H as (bd & s1 & H1 & H). apply as_str_inv in H1 as [-> ->].
  apply bind_ok_inv in H as (bsv & s1 & H1 & H). apply getattr_inv in H1 as [-> Hbs].
  apply bind_ok_inv in H as (pm & s1 & H1 & H).
  apply path_join_inv in H1 as [-> (bs & -> & ->)].
  apply bind_ok_inv in H as (lf & s1 & H1 & H). apply getattr_inv in H1 as [-> Hlf].
  apply bind_ok_inv in H as (env1 & s1 & H1 & H).
  apply bind_ok_inv in H as (bsv' & s2 & H2 & H). apply getattr_inv in H2 as [-> Hbs'].
  apply bind_ok_inv in H as (lib1 & s2 & H2 & H).
  apply path_join_inv in H2 as [-> (bs' & -> & ->)].
  apply bind_ok_inv in H as (ldv & s2 & H2 & H). apply getattr_inv in H2 as [-> Hld].
  apply bind_ok_inv in H as (lib2 & s2 & H2 & H).
  apply path_join_inv in H2 as [-> (ld & -> & ->)].
  injection H as <- <-.
  assert (Hs1 : s1 = s /\
                env1 = ["env"; "SWIFT_EXEC=" +:+ sp; "SWIFTPM_BUILD_DIR=" +:+ bd;
                        "SWIFTPM_PD_LIBS=" +:+ Path.join bs "pm"]
                       ++ (if truthy lf
                           then ["DYLD_FRAMEWORK_PATH=" +:+ ld; "SWIFTPM_BOOTSTRAP=1"]
                           else ["SWIFTCI_USE_LOCAL_DEPS=1"])).
  { destruct (truthy lf).
    - apply bind_ok_inv in H1 as (d & s3 & H3 & H1). apply getattr_inv in H3 as [-> Hd].
      injection H1 as <- <-.
      assert (d = VStr ld) by congruence. subst d. auto.
    - injection H1 as <- <-. auto. }
  destruct Hs1 as [-> ->]. split; [reflexivity |].
  assert (bs' = bs) by congruence. subst bs'.
  exists sp, bd, bs, ld, lf. repeat split; auto.
Qed.

(** A [call_swiftpm] that returns has run one child, the command between
    the overlay and the flags, in the project root. *)
Lemma call_swiftpm_ok cmd (s s' : state h) :
  call_swiftpm h cmd s = (Ok tt, s') ->
  exists c o,
    has_config h c s /\ st_args s' = st_args s /\
    st_trace s' =
      st_trace s ++ [call_event (swiftpm_cmd c cmd) (Some (g_project_root h)) (Exited 0 o)].
Proof.
  intros H. unfold call_swiftpm in H.
  apply bind_ok_inv in H as (env & s1 & H1 & H).
  apply get_swiftpm_env_cmd_inv in H1 as (-> & sp & bd & bs & ld & lf & Hsp & Hbd & Hbs & Hld & Hlf & ->).
  apply bind_ok_inv in H as (flags & s1 & H1 & H).
  apply get_swiftpm_flags_inv in H1 as (-> & rel & Hrel & ->).
  apply call_ok_trace in H as (d & o & Hd & Ha & Htr).
  destruct d as [d|]; [| discriminate Hd]. injection Hd as <-.
  exists {| cf_swiftc := sp; cf_build_dir := bd; cf_bootstrap := bs; cf_llbuild := ld;
            cf_framework := lf; cf_release := rel |}, o.
  split; [repeat split; assumption |]. split; [exact Ha | exact Htr].
Qed.

Lemma has_config_args c (s s' : state h) :
  st_args s' = st_args s -> has_config h c s -> has_config h c s'.
Proof. unfold has_config. intros ->. auto. Qed.

Lemma build_swiftpm_with_swiftpm_ok (s s' : state h) :
  build_swiftpm_with_swiftpm h s = (Ok tt, s') ->
  exists c o,
    has_config h c s' /\ st_args s' = st_args s /\
    st_trace s' =
      st_trace s ++ [call_event (swift_build_cmd c) (Some (g_project_root h)) (Exited 0 o)].
Proof.
  intros H. unfold build_swiftpm_with_swiftpm in H.
  apply bind_ok_inv in H as ([] & s0 & H0 & H).
  pose proof (note_steady "Building SwiftPM (with swift-build)" s) as [Ha0 Ht0].
  rewrite H0 in Ha0, Ht0. simpl in Ha0, Ht0. clear H0.
  apply bind_ok_inv in H as (bsv & s1 & H1 & H). apply getattr_inv in H1 as [-> Hbs].
  apply bind_ok_inv in H as (sb & s1 & H1 & H).
  apply path_join_inv in H1 as [-> (bs & -> & ->)].
  apply call_swiftpm_ok in H as (c & o & Hc & Ha & Htr).
  exists c, o.
  assert (Hbs' : cf_bootstrap c = bs).
  { destruct Hc as (_ & _ & Hb & _). congruence. }
  split; [apply (has_config_args c _ s' Ha Hc) |]. split; [congruence |].
  unfold swift_build_cmd. rewrite Hbs', <- Ht0. exact Htr.
Qed.

(** A [build_with_cmake] that returns has run the compile step last,
    after at most one configure step, both in the build directory. *)
Lemma build_with_cmake_ok cmake_args source_path bdv (s s' : state h) :
  build_with_cmake h cmake_args source_path bdv s = (Ok tt, s') ->
  exists d v pre o,
    bdv = VStr d /\ st_args s !! "verbose" = Some v /\ st_args s' = st_args s /\
    st_trace s' = st_trace s ++ pre ++ [call_event (ninja_cmd v) (Some d) (Exited 0 o)] /\
    (pre = [] \/
     exists args o0, pre = [call_event ("cmake" :: args) (Some d) (Exited 0 o0)]).
Proof.
  intros H. unfold build_with_cmake in H.
  apply bind_ok_inv in H as (d & s1 & H1 & H). apply as_str_inv in H1 as [-> ->].
  apply bind_ok_inv in H as (configured & s1 & H1 & H). injection H1 as <- <-.
  apply bind_ok_inv in H as ([] & s1 & H1 & H).
  assert (Hconf : st_args s1 = st_args s /\
                  exists pre, st_trace s1 = st_trace s ++ pre /\
                    (pre = [] \/
                     exists args o0, pre = [call_event ("cmake" :: args) (Some d) (Exited 0 o0)])).
  { destruct (isfile h (st_fs s) (Path.join d "CMakeCache.txt")); simpl in H1.
    - injection H1 as <-. split; [reflexivity |]. exists []. rewrite app_nil_r. auto.
    - apply bind_ok_inv in H1 as (flags & s2 & H2 & H1).
      assert (Hs2 : s2 = s).
      { destruct (is_darwin h); [| injection H2 as _ <-; reflexivity].
        apply bind_ok_inv in H2 as (g & s3 & H3 & H2). injection H2 as _ <-.
        unfold g_default_sysroot in H3. destruct (st_sysroot s); [| discriminate].
        injection H3 as _ <-. reflexivity. }
      subst s2.
      apply bind_ok_inv in H1 as (sp & s2 & Hg & H1). apply getattr_inv in Hg as [-> Hsp].
      apply bind_ok_inv in H1 as (v & s2 & Hg & H1). apply getattr_inv in Hg as [-> Hv].
      apply bind_ok_inv in H1 as ([] & s2 & Hw & H1).
      assert (Hs2 : steady h s s2)
        by (destruct (truthy v); injection Hw as <-; split; reflexivity).
      apply bind_ok_inv in H1 as ([] & s3 & H3 & H1).
      pose proof (mkdir_p_steady d s2) as Hs3. rewrite H3 in Hs3. simpl in Hs3.
      apply call_ok_trace in H1 as (d' & o0 & Hd & Ha & Htr).
      destruct d' as [d'|]; [| discriminate Hd]. injection Hd as <-.
      destruct Hs2 as [Ha2 Ht2]. destruct Hs3 as [Ha3 Ht3].
      split; [congruence |].
      eexists. split; [rewrite Htr, Ht3, Ht2; reflexivity |].
      right. unfold cmake_cmd. simpl. eauto. }
  destruct Hconf as (Ha1 & pre & Htr1 & Hpre).
  apply bind_ok_inv in H as (v & s2 & H2 & H). apply getattr_inv in H2 as [-> Hv].
  apply call_ok_trace in H as (d' & o & Hd & Ha & Htr).
  destruct d' as [d'|]; [| discriminate Hd]. injection Hd as <-.
  exists d, v, pre, o. split; [reflexivity |].
  split; [rewrite <- Ha1; exact Hv |]. split; [congruence |].
  split; [| exact Hpre].
  rewrite Htr, Htr1, <- app_assoc. unfold ninja_cmd.
  destruct (truthy v); reflexivity.
Qed.

Lemma build_swiftpm_with_cmake_ok (s s' : state h) :
  build_swiftpm_with_cmake h s = (Ok tt, s') ->
  exists bs v pre o,
    st_args s !! "bootstrap_dir" = Some (VStr bs) /\
    st_args s !! "verbose" = Some v /\ st_args s' = st_args s /\
    st_trace s' = st_trace s ++ pre ++ [call_event (ninja_cmd v) (Some bs) (Exited 0 o)] /\
    (pre = [] \/
     exists args o0, pre = [call_event ("cmake" :: args) (Some bs) (Exited 0 o0)]).
Proof.
  intros H. unfold build_swiftpm_with_cmake in H.
  apply bind_ok_inv in H as ([] & s0 & H0 & H).
  pose proof (note_steady "Building SwiftPM (with CMake)" s) as [Ha0 Ht0].
  rewrite H0 in Ha0, Ht0. simpl in Ha0, Ht0. clear H0.
  apply bind_ok_inv in H as (arg & s1 & H1 & H).
  apply (unchanged _ _ _ _ (fun I => quiet_get_llbuild_cmake_arg h I)) in H1. subst s1.
  apply bind_ok_inv in H as (binv & s1 & H1 & H). apply getattr_inv in H1 as [-> _].
  apply bind_ok_inv in H as (bin & s1 & H1 & H). apply as_str_inv in H1 as [-> _].
  apply bind_ok_inv in H as (ipv & s1 & H1 & H). apply getattr_inv in H1 as [-> _].
  apply bind_ok_inv in H as (prefix & s1 & H1 & H).
  apply (unchanged _ _ _ _ (fun I => quiet_index0 h I ipv)) in H1. subst s1.
  apply bind_ok_inv in H as (il & s1 & H1 & H). apply getattr_inv in H1 as [-> _].
  apply bind_ok_inv in H as (bsv & s1 & H1 & H). apply getattr_inv in H1 as [-> Hbs].
  apply bind_ok_inv in H as ([] & s1 & H1 & H).
  apply build_with_cmake_ok in H1 as (bs & v & pre & o & -> & Hv & Ha & Htr & Hpre).
  pose proof (make_symlinks_steady s1) as Hms. rewrite H in Hms. simpl in Hms.
  destruct Hms as [Ha' Ht'].
  exists bs, v, pre, o. repeat split; auto; congruence.
Qed.

Section CleanUp.

Variable s0 : state h.

Lemma clean_build_args_only_cleaned :
  quiet h (only_cleaned h s0) (clean_build_args h).
Proof.
  apply quiet_clean_build_args with (assignable := cleaned);
    try reflexivity; unfold only_cleaned.
  - intros f s Hs; exact Hs.
  - intros line s Hs; exact Hs.
  - intros cmd cwd r s [Hc Ha]. split; [| exact Ha].
    simpl. unfold stage_commands in *. rewrite List.filter_app. simpl.
    rewrite app_nil_r. exact Hc.
  - intros k v s Hk [Hc Ha]. split; [exact Hc |].
    intros k' Hk'. simpl. rewrite lookup_insert_ne; [apply Ha; exact Hk' |].
    intros ->. congruence.
Qed.

End CleanUp.

Lemma clean_build_args_ok (s s' : state h) :
  clean_build_args h s = (Ok tt, s') -> only_cleaned h s s'.
Proof.
  intros H. pose proof (clean_build_args_only_cleaned s s) as Hq.
  rewrite H in Hq. apply Hq. split; auto.
Qed.

Lemma stage_commands_app tr new :
  Forall (fun ev => is_call ev = true) new ->
  stage_commands (tr ++ new) = stage_commands tr ++ new.
Proof.
  intros Hall. unfold stage_commands. rewrite List.filter_app. f_equal.
  induction Hall as [|ev l Hev _ IH]; [reflexivity |]. simpl. rewrite Hev, IH. reflexivity.
Qed.

End Returns.

(** X13. A [build] that returns with a pre-built dependency has run, as
    its stage commands and in this order: at most one configure step and
    the compile step, both in [bootstrap_dir], then [swift-build
    --build-tests] between the overlay and the flags, in the project
    root; every one of them exited with status 0. *)
Theorem build_runs_stage_2_then_stage_3 (h : Host) (s : state h) lv :
  st_args s !! "llbuild_build_dir" = Some lv ->
  truthy lv = true ->
  fst (build h s) = Ok tt ->
  let s' := snd (build h s) in
  exists c v pre o2 o3,
    has_config h c s' /\ st_args s' !! "verbose" = Some v /\
    stage_commands (st_trace s') =
      stage_commands (st_trace s) ++ pre
      ++ [call_event (ninja_cmd v) (Some (cf_bootstrap c)) (Exited 0 o2);
          call_event (swift_build_cmd c) (Some (g_project_root h)) (Exited 0 o3)] /\
    (pre = [] \/
     exists args o1,
       pre = [call_event ("cmake" :: args) (Some (cf_bootstrap c)) (Exited 0 o1)]).
Proof.
  intros Hl Ht Hok. cbv zeta.
  destruct (build h s) as [r s'] eqn:H. simpl in Hok. subst r. simpl snd.
  unfold build in H.
  apply bind_ok_inv in H as ([] & s1 & H1 & H).
  apply clean_build_args_ok in H1 as [Hc1 Ha1].
  apply bind_ok_inv in H as (lv' & s2 & H2 & H). apply getattr_inv in H2 as [-> Hlv'].
  rewrite (Ha1 "llbuild_build_dir" eq_refl), Hl in Hlv'. injection Hlv' as <-.
  rewrite Ht in H. simpl negb in H. cbv iota in H.
  apply bind_ok_inv in H as ([] & s2 & H2 & H). injection H2 as <-.
  apply bind_ok_inv in H as ([] & s2 & H2 & H).
  apply build_swiftpm_with_cmake_ok in H2 as (bs & v & pre & o2 & Hbs & Hv & Ha2 & Htr2 & Hpre).
  apply build_swiftpm_with_swiftpm_ok in H as (c & o3 & Hc & Ha3 & Htr3).
  exists c, v, pre, o2, o3.
  assert (Hbs' : cf_bootstrap c = bs).
  { destruct Hc as (_ & _ & Hb & _). rewrite Ha3, Ha2, Hbs in Hb. congruence. }
  split; [exact Hc |]. split; [rewrite Ha3, Ha2; exact Hv |].
  rewrite Hbs'. split; [| exact Hpre].
  rewrite Htr3, Htr2, <- !app_assoc.
  rewrite stage_commands_app, Hc1; [reflexivity |].
  destruct Hpre as [->|(args & o1 & ->)]; repeat constructor.
Qed.

Lemma build_runs_stage_2_then_stage_3_witness :
  exists c v pre o2 o3,
    has_config Demo.linux c (snd (build Demo.linux (working_start false false))) /\
    st_args (snd (build Demo.linux (working_start false false))) !! "verbose" = Some v /\
    stage_commands (st_trace (snd (build Demo.linux (working_start false false)))) =
      stage_commands (st_trace (working_start false false)) ++ pre
      ++ [call_event (ninja_cmd v) (Some (cf_bootstrap c)) (Exited 0 o2);
          call_event (swift_build_cmd c) (Some (g_project_root Demo.linux)) (Exited 0 o3)] /\
    (pre = [] \/
     exists args o1,
       pre = [call_event ("cmake" :: args) (Some (cf_bootstrap c)) (Exited 0 o1)]).
Proof.
  refine (build_runs_stage_2_then_stage_3 Demo.linux (working_start false false)
            (VStr "/deps/llbuild") _ _ _); vm_compute; reflexivity.
Defined.

(** A [build] that returns ends with Stage 3, with the configuration in
    the namespace. *)
Lemma build_ok_config (h : Host) (s s' : state h) :
  build h s = (Ok tt, s') ->
  exists c pre o,
    has_config h c s' /\
    st_trace s' =
      pre ++ [call_event (swift_build_cmd c) (Some (g_project_root h)) (Exited 0 o)].
Proof.
  intros H. unfold build in H.
  apply bind_ok_inv in H as ([] & s1 & _ & H).
  apply bind_ok_inv in H as (lv & s2 & _ & H).
  apply bind_ok_inv in H as ([] & s3 & _ & H).
  apply bind_ok_inv in H as ([] & s4 & _ & H).
  apply build_swiftpm_with_swiftpm_ok in H as (c & o & Hc & _ & Htr).
  exists c, (st_trace s4), o. auto.
Qed.

(** X14. A [test] that returns has run the test runner last, in the
    project root: the overlay, [<bin_dir>/swift-test], [--parallel] when
    [parallel] is true, one [--filter] pair for each element of [filter],
    then the flags. *)
Theorem test_runs_the_test_runner_last (h : Host) (s : state h) :
  fst (test h s) = Ok tt ->
  let s' := snd (test h s) in
  exists c bin parallel filter filters pre o,
    has_config h c s' /\
    st_args s' !! "bin_dir" = Some (VStr bin) /\
    st_args s' !! "parallel" = Some parallel /\
    st_args s' !! "filter" = Some filter /\
    elements filter = Some filters /\
    st_trace s' =
      pre ++ [call_event (swift_test_cmd c bin parallel filters)
                (Some (g_project_root h)) (Exited 0 o)].
Proof.
  intros Hok. cbv zeta.
  destruct (test h s) as [r s'] eqn:H. simpl in Hok. subst r. simpl snd.
  unfold test in H.
  apply bind_ok_inv in H as ([] & s1 & _ & H).
  apply bind_ok_inv in H as ([] & s2 & _ & H).
  apply bind_ok_inv in H as ([] & s3 & _ & H).
  apply bind_ok_inv in H as (binv & s4 & H4 & H). apply getattr_inv in H4 as [-> Hbin].
  apply bind_ok_inv in H as (runner & s4 & H4 & H).
  apply path_join_inv in H4 as [-> (bin & -> & ->)].
  apply bind_ok_inv in H as (par & s4 & H4 & H). apply getattr_inv in H4 as [-> Hpar].
  apply bind_ok_inv in H as (fil & s4 & H4 & H). apply getattr_inv in H4 as [-> Hfil].
  apply bind_ok_inv in H as (filters & s4 & H4 & H). apply iterate_inv in H4 as [-> Hel].
  apply call_swiftpm_ok in H as (c & o & Hc & Ha & Htr).
  exists c, bin, par, fil, filters, (st_trace s3), o.
  split; [apply (has_config_args h c _ s' Ha Hc) |].
  rewrite Ha. repeat split; auto.
  rewrite Htr. unfold swift_test_cmd. destruct (truthy par); reflexivity.
Qed.

Lemma test_runs_the_test_runner_last_witness :
  exists c bin parallel filter filters pre o,
    has_config Demo.linux c (snd (test Demo.linux (working_start false false))) /\
    st_args (snd (test Demo.linux (working_start false false))) !! "bin_dir" = Some (VStr bin) /\
    st_args (snd (test Demo.linux (working_start false false))) !! "parallel" = Some parallel /\
    st_args (snd (test Demo.linux (working_start false false))) !! "filter" = Some filter /\
    elements filter = Some filters /\
    st_trace (snd (test Demo.linux (working_start false false))) =
      pre ++ [call_event (swift_test_cmd c bin parallel filters)
                (Some (g_project_root Demo.linux)) (Exited 0 o)].
Proof.
  refine (test_runs_the_test_runner_last Demo.linux (working_start false false) _).
  vm_compute. reflexivity.
Defined.

(** X15. An [install] that returns has run [ninja install] last, in
    [bootstrap_dir]. *)
Theorem install_runs_ninja_install_last (h : Host) (s : state h) :
  fst (install h s) = Ok tt ->
  let s' := snd (install h s) in
  exists bs pre o,
    st_args s' !! "bootstrap_dir" = Some (VStr bs) /\
    st_trace s' = pre ++ [call_event ["ninja"; "install"] (Some bs) (Exited 0 o)].
Proof.
  intros Hok. cbv zeta.
  destruct (install h s) as [r s'] eqn:H. simpl in Hok. subst r. simpl snd.
  unfold install in H.
  apply bind_ok_inv in H as ([] & s1 & H1 & H).
  apply build_ok_config in H1 as (c & pre & o3 & Hc & _).
  apply bind_ok_inv in H as ([] & s2 & H2 & H). injection H2 as <-.
  apply bind_ok_inv in H as (bsv & s2 & H2 & H). apply getattr_inv in H2 as [-> Hbs].
  destruct Hc as (_ & _ & Hb & _). simpl in Hbs. rewrite Hb in Hbs. injection Hbs as <-.
  apply call_ok_trace in H as (d & o & Hd & Ha & Htr).
  destruct d as [d|]; [| discriminate Hd]. injection Hd as <-.
  exists (cf_bootstrap c), (st_trace s1), o.
  split; [rewrite Ha; exact Hb | exact Htr].
Qed.

Lemma install_runs_ninja_install_last_witness :
  exists bs pre o,
    st_args (snd (install Demo.linux (working_start false false))) !! "bootstrap_dir"
      = Some (VStr bs) /\
    st_trace (snd (install Demo.linux (working_start false false))) =
      pre ++ [call_event ["ninja"; "install"] (Some bs) (Exited 0 o)].
Proof.
  refine (install_runs_ninja_install_last Demo.linux (working_start false false) _).
  vm_compute. reflexivity.
Defined.

Example install_run :
  let out := install Demo.linux (working_start false false) in
  fst out = Ok tt /\
  map (fun ev => (List.hd "" (ev_cmd ev), ev_cwd ev)) (stage_commands (st_trace (snd out))) =
    [("cmake", Some "/w/.build/bootstrap"); ("ninja", Some "/w/.build/bootstrap");
     ("env", Some "/w"); ("ninja", Some "/w/.build/bootstrap")].
Proof. vm_compute. split; reflexivity. Qed.

(** ** Stage 1 *)

Section Stage1.

Context (h : Host).

(** What a [build_llbuild] that returns has done. *)
Lemma build_llbuild_ok (s s' : state h) :
  build_llbuild h s = (Ok tt, s') ->
  exists td v pre o1 o2,
    st_args s !! "target_dir" = Some (VStr td) /\
    st_args s !! "verbose" = Some v /\
    let d := Path.join td "llbuild" in
    st_args s' = <["llbuild_build_dir" := VStr d]> (st_args s) /\
    st_trace s' =
      st_trace s
      ++ [call_event touch_cmd (Some (Path.join d ".cmake/api/v1/query")) (Exited 0 o1)]
      ++ pre ++ [call_event (ninja_cmd v) (Some d) (Exited 0 o2)] /\
    (pre = [] \/ exists args o0, pre = [call_event ("cmake" :: args) (Some d) (Exited 0 o0)]).
Proof.
  intros H. unfold build_llbuild in H.
  apply bind_ok_inv in H as ([] & s0 & H0 & H).
  pose proof (note_steady h "Building llbuild" s) as [Ha0 Ht0].
  rewrite H0 in Ha0, Ht0. simpl in Ha0, Ht0. clear H0.
  apply bind_ok_inv in H as (tdv & s1 & H1 & H). apply getattr_inv in H1 as [-> Htd].
  apply bind_ok_inv in H as (d & s1 & H1 & H).
  apply path_join_inv in H1 as [-> (td & -> & ->)].
  apply bind_ok_inv in H as ([] & s1 & H1 & H). injection H1 as <-.
  set (s1 := set_args h _ s0) in H.
  apply bind_ok_inv in H as (lbd & s2 & H2 & H). apply getattr_inv in H2 as [-> Hlbd].
  simpl in Hlbd. rewrite lookup_insert_eq in Hlbd. injection Hlbd as <-.
  apply bind_ok_inv in H as (api & s2 & H2 & H).
  apply path_join_inv in H2 as [-> (d & [= <-] & ->)].
  apply bind_ok_inv in H as ([] & s2 & H2 & H).
  pose proof (mkdir_p_steady h (Path.join (Path.join td "llbuild") ".cmake/api/v1/query") s1)
    as [Ha2 Ht2].
  rewrite H2 in Ha2, Ht2. simpl in Ha2, Ht2. clear H2.
  apply bind_ok_inv in H as ([] & s3 & H3 & H).
  apply call_ok_trace in H3 as (dt & o1 & Hd & Ha3 & Htr3).
  destruct dt as [dt|]; [| discriminate Hd]. injection Hd as <-.
  apply bind_ok_inv in H as (sdv & s4 & H4 & H). apply getattr_inv in H4 as [-> _].
  apply bind_ok_inv in H as (lsd & s4 & H4 & H).
  assert (Hs4 : steady h s3 s4).
  { destruct (truthy sdv); [injection H4 as _ <-; apply steady_refl |].
    apply bind_ok_inv in H4 as (p & s5 & H5 & H4). injection H4 as _ <-.
    pose proof (steady_quiet h (get_llbuild_source_path h) s3) as Hq.
    rewrite H5 in Hq. apply Hq. apply quiet_get_llbuild_source_path.
    intros line x Hx; exact Hx. }
  destruct Hs4 as [Ha4 Ht4]. clear H4.
  apply bind_ok_inv in H as (sysroot & s5 & H5 & H).
  apply (unchanged h _ _ _ _ (fun I => quiet_sysroot h I)) in H5. subst s5.
  apply bind_ok_inv in H as (src & s5 & H5 & H). apply as_str_inv in H5 as [-> _].
  apply bind_ok_inv in H as (lbd & s5 & H5 & H). apply getattr_inv in H5 as [-> Hlbd].
  rewrite Ha4, Ha3, Ha2 in Hlbd. simpl in Hlbd. rewrite lookup_insert_eq in Hlbd.
  injection Hlbd as <-.
  apply build_with_cmake_ok in H as (d & v & pre & o2 & [= <-] & Hv & Ha & Htr & Hpre).
  rewrite Ha4, Ha3, Ha2 in Hv. simpl in Hv.
  rewrite lookup_insert_ne in Hv by discriminate. rewrite Ha0 in Hv.
  exists td, v, pre, o1, o2.
  split; [rewrite <- Ha0; exact Htd |]. split; [exact Hv |].
  cbv zeta. split; [rewrite Ha, Ha4, Ha3, Ha2; simpl; rewrite Ha0; reflexivity |].
  split; [| exact Hpre].
  rewrite Htr, Ht4, Htr3, Ht2. simpl. rewrite Ht0, <- !app_assoc. reflexivity.
Qed.

(** X10. A [build_llbuild] that returns has assigned
    [llbuild_build_dir] the directory [<target_dir>/llbuild], for the
    later stages to find, and has run: the [touch] of the query file in
    its query directory, at most one configure step and the compile step,
    both in that directory. *)
Theorem build_llbuild_sets_the_dependency_directory (s : state h) :
  fst (build_llbuild h s) = Ok tt ->
  let s' := snd (build_llbuild h s) in
  exists td v pre o1 o2,
    st_args s !! "target_dir" = Some (VStr td) /\
    st_args s !! "verbose" = Some v /\
    let d := Path.join td "llbuild" in
    st_args s' = <["llbuild_build_dir" := VStr d]> (st_args s) /\
    st_trace s' =
      st_trace s
      ++ [call_event touch_cmd (Some (Path.join d ".cmake/api/v1/query")) (Exited 0 o1)]
      ++ pre ++ [call_event (ninja_cmd v) (Some d) (Exited 0 o2)] /\
    (pre = [] \/ exists args o0, pre = [call_event ("cmake" :: args) (Some d) (Exited 0 o0)]).
Proof.
  intros Hok.
  destruct (build_llbuild h s) as [r s'] eqn:H. simpl in Hok. subst r.
  exact (build_llbuild_ok s s' H).
Qed.

(** X25. A [build] that returns without a pre-built dependency has run
    Stage 1 first and Stage 3 last: its first stage command is the [touch]
    of the query file under [<target_dir>/llbuild], its last the
    [swift-build] child, and the overlay of that child names
    [<target_dir>/llbuild] as the dependency: the directory Stage 1
    assigned is the one the later stages use. *)
Theorem build_runs_stage_1_first (s : state h) lv :
  st_args s !! "llbuild_build_dir" = Some lv ->
  truthy lv = false ->
  fst (build h s) = Ok tt ->
  let s' := snd (build h s) in
  exists c td o1 rest o3,
    has_config h c s' /\
    st_args s' !! "target_dir" = Some (VStr td) /\
    cf_llbuild c = Path.join td "llbuild" /\
    stage_commands (st_trace s') =
      stage_commands (st_trace s)
      ++ [call_event touch_cmd
            (Some (Path.join (Path.join td "llbuild") ".cmake/api/v1/query")) (Exited 0 o1)]
      ++ rest
      ++ [call_event (swift_build_cmd c) (Some (g_project_root h)) (Exited 0 o3)].
Proof.
  intros Hl Ht Hok. cbv zeta.
  destruct (build h s) as [r s'] eqn:H. simpl in Hok. subst r. simpl snd.
  unfold build in H.
  apply bind_ok_inv in H as ([] & s1 & H1 & H).
  apply clean_build_args_ok in H1 as [Hc1 Ha1].
  apply bind_ok_inv in H as (lv' & s2 & H2 & H). apply getattr_inv in H2 as [-> Hlv'].
  rewrite (Ha1 "llbuild_build_dir" eq_refl), Hl in Hlv'. injection Hlv' as <-.
  rewrite Ht in H. simpl negb in H. cbv iota in H.
  apply bind_ok_inv in H as ([] & s2 & H2 & H).
  apply build_llbuild_ok in H2 as (td & v & pre & o1 & o2 & Htd & Hv & Ha2 & Htr2 & Hpre).
  cbv zeta in Ha2, Htr2, Hpre.
  apply bind_ok_inv in H as ([] & s3 & H3 & H).
  apply build_swiftpm_with_cmake_ok in H3
    as (bs & v' & pre' & o2' & Hbs & Hv' & Ha3 & Htr3 & Hpre').
  apply build_swiftpm_with_swiftpm_ok in H as (c & o3 & Hc & Ha4 & Htr4).
  exists c, td, o1,
    (pre ++ [call_event (ninja_cmd v) (Some (Path.join td "llbuild")) (Exited 0 o2)]
     ++ pre' ++ [call_event (ninja_cmd v') (Some bs) (Exited 0 o2')]), o3.
  split; [exact Hc |].
  split; [rewrite Ha4, Ha3, Ha2, lookup_insert_ne by discriminate; exact Htd |].
  split.
  { destruct Hc as (_ & _ & _ & Hld & _).
    rewrite Ha4, Ha3, Ha2, lookup_insert_eq in Hld. congruence. }
  rewrite Htr4, Htr3, Htr2, <- !app_assoc.
  rewrite stage_commands_app, Hc1; [reflexivity |].
  repeat (apply Forall_app; split); repeat constructor;
    [destruct Hpre as [->|(args & o0 & ->)] | destruct Hpre' as [->|(args & o0 & ->)]];
    repeat constructor.
Qed.

End Stage1.

Lemma build_llbuild_sets_the_dependency_directory_witness :
  exists td v pre o1 o2,
    st_args darwin_start !! "target_dir" = Some (VStr td) /\
    st_args darwin_start !! "verbose" = Some v /\
    let d := Path.join td "llbuild" in
    st_args (snd (build_llbuild Demo.darwin darwin_start)) =
      <["llbuild_build_dir" := VStr d]> (st_args darwin_start) /\
    st_trace (snd (build_llbuild Demo.darwin darwin_start)) =
      st_trace darwin_start
      ++ [call_event touch_cmd (Some (Path.join d ".cmake/api/v1/query")) (Exited 0 o1)]
      ++ pre ++ [call_event (ninja_cmd v) (Some d) (Exited 0 o2)] /\
    (pre = [] \/ exists args o0, pre = [call_event ("cmake" :: args) (Some d) (Exited 0 o0)]).
Proof.
  refine (build_llbuild_sets_the_dependency_directory Demo.darwin darwin_start _).
  vm_compute. reflexivity.
Defined.

Lemma build_runs_stage_1_first_witness :
  exists c td o1 rest o3,
    has_config Demo.darwin c (snd (build Demo.darwin darwin_start)) /\
    st_args (snd (build Demo.darwin darwin_start)) !! "target_dir" = Some (VStr td) /\
    cf_llbuild c = Path.join td "llbuild" /\
    stage_commands (st_trace (snd (build Demo.darwin darwin_start))) =
      stage_commands (st_trace darwin_start)
      ++ [call_event touch_cmd
            (Some (Path.join (Path.join td "llbuild") ".cmake/api/v1/query")) (Exited 0 o1)]
      ++ rest
      ++ [call_event (swift_build_cmd c) (Some (g_project_root Demo.darwin)) (Exited 0 o3)].
Proof.
  refine (build_runs_stage_1_first Demo.darwin darwin_start VNone _ _ _);
    vm_compute; reflexivity.
Defined.

Example bootstrap_on_darwin :
  let out := build Demo.darwin darwin_start in
  fst out = Ok tt /\
  map (fun ev => (List.hd "" (ev_cmd ev), ev_cwd ev)) (stage_commands (st_trace (snd out))) =
    [("touch", Some "/w/.build/x86_64-apple-macosx/llbuild/.cmake/api/v1/query");
     ("cmake", Some "/w/.build/x86_64-apple-macosx/llbuild");
     ("ninja", Some "/w/.build/x86_64-apple-macosx/llbuild");
     ("cmake", Some "/w/.build/bootstrap"); ("ninja", Some "/w/.build/bootstrap");
     ("env", Some "/w")].
Proof. vm_compute. split; reflexivity. Qed.

(** ** The exit status of the script

    The parser exits with status 0 or 2; everything else that is raised
    ends the process with status 1. *)

Section ParserExits.

Variable parser : list argument.

Lemma apply_action_exit a v ns e : apply_action a v ns = Raise e -> parser_exit e.
Proof.
  unfold apply_action. destruct (act a); try discriminate.
  - destruct (ns !! dest a) as [[]|]; discriminate.
  - intros [= <-]. left; reflexivity.
Qed.

Lemma apply_actions_exit acts : forall ns e,
  apply_actions acts ns = Raise e -> parser_exit e.
Proof.
  induction acts as [|[a v] acts IH]; simpl; intros ns e; [discriminate |].
  destruct (apply_action a v ns) as [ns1|e1] eqn:H1; [apply IH |].
  intros [= <-]. exact (apply_action_exit _ _ _ _ H1).
Qed.

Lemma usage_error_exit {A} e : @usage_error A = Raise e -> parser_exit e.
Proof. intros [= <-]. right; reflexivity. Qed.

Lemma parse_optionals_exit n : forall argv ns extras e,
  (length argv <= n)%nat ->
  parse_optionals parser argv ns extras = Raise e -> parser_exit e.
Proof.
  induction n as [|n IH]; intros argv ns extras e Hlen.
  - destruct argv; [discriminate | simpl in Hlen; lia].
  - destruct argv as [|t rest]; [discriminate |].
    simpl in Hlen. simpl.
    destruct (String.eqb t "--"); [discriminate |].
    destruct (classify parser t) as [| | |a o [expl|]];
      try (apply IH; lia); try apply usage_error_exit.
    + destruct (Str.startswith "--" o).
      * destruct (takes_value a); [| apply usage_error_exit].
        destruct (apply_action a expl ns) as [ns1|e1] eqn:H1; [apply IH; lia |].
        intros [= <-]. exact (apply_action_exit _ _ _ _ H1).
      * destruct (cluster parser a expl) as [acts|]; [| apply usage_error_exit].
        destruct (apply_actions acts ns) as [ns1|e1] eqn:H1; [apply IH; lia |].
        intros [= <-]. exact (apply_actions_exit _ _ _ H1).
    + destruct (takes_value a).
      * destruct rest as [|v rest']; [apply usage_error_exit |].
        destruct (classify parser v); try apply usage_error_exit.
        destruct (apply_action a v ns) as [ns1|e1] eqn:H1;
          [apply IH; simpl in Hlen; lia |].
        intros [= <-]. exact (apply_action_exit _ _ _ _ H1).
      * destruct (apply_action a "" ns) as [ns1|e1] eqn:H1; [apply IH; lia |].
        intros [= <-]. exact (apply_action_exit _ _ _ _ H1).
Qed.

End ParserExits.

Lemma parse_subcommand_exit f argv extras e :
  parse_subcommand f argv extras = Raise e -> parser_exit e.
Proof.
  unfold parse_subcommand.
  destruct (parse_optionals _ argv _ extras) as [[ns' e']|e1] eqn:Hp.
  - destruct e'; [apply usage_error_exit | discriminate].
  - intros [= <-]. exact (parse_optionals_exit _ _ _ _ _ _ (le_n _) Hp).
Qed.

Lemma parse_args_exit argv : forall extras e,
  parse_args argv extras = Raise e -> parser_exit e.
Proof.
  induction argv as [|t rest IH]; intros extras e; simpl.
  - destruct extras; [apply usage_error_exit | discriminate].
  - destruct (String.eqb t "--").
    + destruct rest as [|c rest'].
      * destruct extras; [apply usage_error_exit | discriminate].
      * destruct (subcommand c); [apply parse_subcommand_exit | apply usage_error_exit].
    + destruct (classify new_parser t) as [| | |a o [expl|]];
        try apply usage_error_exit.
      * destruct (subcommand t); [apply parse_subcommand_exit | apply usage_error_exit].
      * apply IH.
      * destruct (Str.startswith "--" o); [apply usage_error_exit |].
        destruct (cluster new_parser a expl); [| apply usage_error_exit].
        intros [= <-]. left; reflexivity.
      * intros [= <-]. left; reflexivity.
Qed.

Section ExitStatus.

Context (h : Host).

Lemma call_exits_1 cmd cwd :
  keeps h (fun _ => True) (fun e _ => exit_code e = 1) (call h cmd cwd).
Proof.
  intros s _. pose proof (call_cases h cmd cwd s) as Hc.
  destruct (call h cmd cwd s) as [[[]|e] s']; [exact I |].
  destruct Hc as (_ & _ & _ & [(_ & _ & e' & [= <-] & He)|(d & res & _ & _ & _ & _ & Hr)]);
    [exact He |].
  destruct (proc_ok res); [discriminate |]. destruct Hr as [[= ->] _]. reflexivity.
Qed.

Lemma call_func_exits_1 v :
  keeps h (fun _ => True) (fun e _ => exit_code e = 1) (call_func h v).
Proof.
  apply keeps_call_func with (assignable := any_attribute);
    first [ reflexivity | apply call_exits_1 | intros; assumption | intros; exact I ].
Qed.


End ExitStatus.

(** ** Every child

    The invariants of the stages again, for an invariant that a
    [check_output] child may break: the functions that query the host keep
    it as long as the query itself does. *)

Section EveryChild.

Context (h : Host).
Variable I : state h -> Prop.
Variable X : exn -> state h -> Prop.

Hypothesis I_fs : forall f s, I s -> I (set_fs h f s).
Hypothesis I_stdout : forall line s, I s -> I (add_stdout h line s).
Hypothesis I_args : forall k v s, I s -> I (set_args h (<[k := v]> (st_args s)) s).
Hypothesis X_raise : forall e s, exit_code e = 1 -> I s -> X e s.
Hypothesis X_error : forall e line s, X e s -> X (SystemExit 1) (add_stdout h line s).
Hypothesis keeps_call : forall cmd cwd, keeps h I X (call h cmd cwd).
Hypothesis keeps_query : forall cmd cwd, keeps h I X (run_child h CheckOutput cmd cwd).

Local Abbreviation keeps := (keeps h I X).

Lemma I_assign k v s : any_attribute k = true -> I s -> I (set_args h (<[k := v]> (st_args s)) s).
Proof. intros _. apply I_args. Qed.

(** A step that runs no child. *)
Ltac leaf :=
  apply (quiet_keeps h I X X_raise);
  first [ apply quiet_ret | apply quiet_getattr | apply quiet_as_str | apply quiet_as_cwd
        | apply quiet_setattr with (assignable := any_attribute); [exact I_assign | reflexivity]
        | apply quiet_note; exact I_stdout
        | apply quiet_when, quiet_print; exact I_stdout
        | apply quiet_path_join | apply quiet_abspath | apply quiet_getenv
        | apply quiet_realpath | apply quiet_iterate
        | apply quiet_clean_global_args with (assignable := any_attribute);
            [exact I_assign | reflexivity] ].

Ltac walk :=
  repeat lazymatch goal with
         | |- keeps (bind _ _) => apply (keeps_bind h I X); [| intros ?]
         | |- keeps (call _ _ _) => apply keeps_call
         | |- keeps (run_child _ CheckOutput _ _) => apply keeps_query
         | |- keeps (if ?b then _ else _) => destruct b
         | |- keeps (let x := _ in _) => cbv zeta
         | |- keeps _ => first [assumption | leaf]
         end.

Lemma query_call_output cmd cwd : keeps (call_output h cmd cwd).
Proof. unfold call_output, subprocess_check_output. walk. Qed.

Lemma query_get_build_target : keeps (get_build_target h).
Proof.
  unfold get_build_target.
  destruct (is_darwin h); [leaf |].
  apply (keeps_bind h I X); [apply query_call_output | intros ?; leaf].
Qed.

Lemma query_get_swiftc_path : keeps (get_swiftc_path h).
Proof.
  unfold get_swiftc_path.
  apply hoare_try with (Y := X).
  - apply (keeps_bind h I X); [leaf | intros env].
    destruct (truthy (from_option VStr VNone env)); [walk |].
    destruct (is_darwin h);
      (apply (keeps_bind h I X); [apply query_call_output | intros ?; leaf]).
  - intros e s Hs. simpl. apply (X_error e). exact Hs.
Qed.

Lemma query_clean_build_args : keeps (clean_build_args h).
Proof.
  pose proof query_get_build_target. pose proof query_get_swiftc_path.
  unfold clean_build_args. walk.
Qed.

Lemma every_build : keeps (build h).
Proof.
  pose proof query_clean_build_args.
  pose proof (keeps_build_llbuild h I I_fs I_stdout any_attribute I_assign X X_raise
                keeps_call eq_refl).
  pose proof (keeps_build_swiftpm_with_cmake h I I_fs I_stdout X X_raise keeps_call).
  pose proof (keeps_build_swiftpm_with_swiftpm h I I_stdout X X_raise keeps_call).
  unfold build. walk.
Qed.

Lemma every_clean : keeps (clean h).
Proof.
  apply keeps_clean with (assignable := any_attribute);
    first [ reflexivity | assumption | exact I_assign ].
Qed.

Lemma every_test : keeps (test h).
Proof.
  pose proof every_build. pose proof query_clean_build_args.
  pose proof (keeps_call_swiftpm h I X X_raise keeps_call).
  unfold test, clean_test_args. walk. auto.
Qed.

Lemma every_install : keeps (install h).
Proof. pose proof every_build. unfold install. walk. Qed.

Hypothesis I_namespace : forall ns s, I s -> I (set_args h ns s).
Hypothesis I_sysroot : forall g s, I s -> I (set_sysroot h g s).
Hypothesis X_exit : forall c s, I s -> X (SystemExit c) s.

Lemma every_script argv : keeps (script h argv).
Proof.
  unfold script. apply (keeps_bind h I X).
  - unfold module_init. destruct (is_darwin h); [| leaf].
    apply (keeps_bind h I X); [apply keeps_query | intros out].
    intros s Hs. simpl. apply I_sysroot. exact Hs.
  - intros _. unfold main. apply (keeps_bind h I X).
    + intros s Hs. destruct (parse_args argv false) as [ns|e]; simpl; auto.
      destruct e; first [apply X_exit; assumption | apply X_raise; auto].
    + intros _.
      apply (keeps_bind h I X); [leaf | intros f].
      apply (keeps_bind h I X); [leaf | intros _].
      apply (keeps_bind h I X); [leaf | intros f'].
      destruct f' as [| | | |[]]; simpl;
        first [ apply (quiet_keeps h I X X_raise), quiet_raise; reflexivity
              | apply every_clean | apply every_build | apply every_test ].
Qed.

End EveryChild.

Section FirstFailure.

Context (h : Host).

Lemma all_children_ok_split pre ev post :
  all_children_ok (pre ++ ev :: post) -> child_failed ev = false.
Proof. intros H. apply Forall_app in H as [_ H]. inversion H; assumption. Qed.

Lemma no_child_failed_event ev (s : state h) :
  child_failed ev = false -> no_child_failed h s -> no_child_failed h (add_event h ev s).
Proof.
  intros Hev Hs. unfold no_child_failed, all_children_ok. simpl.
  apply Forall_app. split; [exact Hs | constructor; [exact Hev | constructor]].
Qed.

Lemma stopped_event ev (s : state h) :
  child_failed ev = true -> no_child_failed h s -> stopped_at_child h (add_event h ev s).
Proof. intros Hev Hs. exists (st_trace s), ev. auto. Qed.

Lemma call_first_failure cmd cwd :
  keeps h (no_child_failed h) (failed_child_exit h) (call h cmd cwd).
Proof.
  intros s Hs. pose proof (call_cases h cmd cwd s) as Hc.
  destruct (call h cmd cwd s) as [r s'].
  destruct Hc as (_ & _ & _ & [(Htr & _ & e & -> & He)|(d & res & _ & _ & _ & Htr & Hr)]).
  - left. unfold no_child_failed. rewrite Htr. exact Hs.
  - destruct (proc_ok res) eqn:Hok.
    + subst r. unfold no_child_failed, all_children_ok. rewrite Htr.
      apply Forall_app. split; [exact Hs |].
      constructor; [| constructor]. unfold child_failed. simpl. rewrite Hok. reflexivity.
    + destruct Hr as [-> _]. right. split; [discriminate |].
      exists (st_trace s), (call_event cmd d res).
      repeat split; auto. unfold child_failed. simpl. rewrite Hok. reflexivity.
Qed.

Lemma query_first_failure cmd cwd :
  keeps h (no_child_failed h) (failed_child_exit h) (run_child h CheckOutput cmd cwd).
Proof.
  intros s Hs. unfold run_child.
  destruct (spawn h (st_fs s) cmd cwd) as [[status out|n] f].
  - destruct (status =? 0) eqn:Hz.
    + apply Z.eqb_eq in Hz. subst status.
      apply no_child_failed_event; [reflexivity | exact Hs].
    + right. split; [discriminate |].
      apply stopped_event; [| exact Hs].
      unfold child_failed. simpl. destruct status; [discriminate Hz | reflexivity ..].
  - right. split; [discriminate |]. apply stopped_event; [reflexivity | exact Hs].
Qed.

Lemma keeps_first_failure {A} (m : M h A) s :
  keeps h (no_child_failed h) (failed_child_exit h) m ->
  no_child_failed h s -> stops_at_first_failure (m s).
Proof.
  intros Hm Hs pre ev post Htr Hev. specialize (Hm s Hs).
  assert (Hno : ~ no_child_failed h (snd (m s))).
  { unfold no_child_failed. rewrite Htr. intros Hok.
    apply all_children_ok_split in Hok. congruence. }
  destruct (m s) as [[a|e] s']; simpl in *; [contradiction |].
  destruct Hm as [Hok|[He (pre' & ev' & Htr' & Hpre & Hev')]]; [contradiction |].
  split; [| exact He].
  rewrite Htr in Htr'.
  destruct post as [|x post]; [reflexivity |]. exfalso.
  assert (Hin : all_children_ok (pre ++ [ev])).
  { replace (pre ++ ev :: x :: post) with ((pre ++ [ev]) ++ x :: post) in Htr'
      by (rewrite <- app_assoc; reflexivity).
    destruct (exists_last (l := x :: post)) as (post' & y & Hp); [discriminate |].
    rewrite Hp, app_assoc in Htr'.
    apply app_inj_tail in Htr' as [<- _].
    apply Forall_app in Hpre as [Hpre _]. exact Hpre. }
  apply Forall_app in Hin as [_ Hin]. inversion Hin. congruence.
Qed.

End FirstFailure.

(** X23. No command runs after a failed command: in every action, and in
    the whole script, a child of either kind ([check_call] or
    [check_output]) that does not exit with status 0 is the last child
    run, and the process ends with a nonzero exit status. *)
Theorem no_command_runs_after_a_failed_command (h : Host) (s : state h) :
  no_child_failed h s ->
  stops_at_first_failure (clean h s) /\ stops_at_first_failure (build h s) /\
  stops_at_first_failure (test h s) /\ stops_at_first_failure (install h s) /\
  (forall argv, stops_at_first_failure (script h argv s)).
Proof.
  intros Hs.
  assert (Hx : forall e line (s0 : state h),
            failed_child_exit h e s0 ->
            failed_child_exit h (SystemExit 1) (add_stdout h line s0)).
  { intros e line s0 [H|[_ H]]; [left; exact H | right; split; [discriminate | exact H]]. }
  split; [| split; [| split; [| split; [| intros argv]]]];
    (apply keeps_first_failure; [| exact Hs]);
    [ apply every_clean | apply every_build | apply every_test | apply every_install
    | apply every_script ];
    first [ apply call_first_failure | apply query_first_failure | exact Hx
          | intros; assumption | intros; left; assumption ].
Qed.

Lemma no_command_runs_after_a_failed_command_witness :
  no_child_failed no_clang_host no_clang_start /\
  stops_at_first_failure (build no_clang_host no_clang_start).
Proof.
  split; [constructor |].
  exact (proj1 (proj2 (no_command_runs_after_a_failed_command no_clang_host no_clang_start
                         (Forall_nil_2 _)))).
Defined.

Example failing_query_run :
  let out := build no_clang_host no_clang_start in
  fst out = Raise (CalledProcessError 1 ["clang"; "--print-target-triple"]) /\
  map child_failed (st_trace (snd out)) = [true].
Proof. vm_compute. split; reflexivity. Qed.

Section Frame.

Context (h : Host).
Variable s0 : state h.

Lemma call_keeps_attributes cmd cwd :
  keeps h (other_attributes_kept h s0) (fun _ => other_attributes_kept h s0) (call h cmd cwd).
Proof.
  intros s Hs. pose proof (call_cases h cmd cwd s) as Hc.
  destruct (call h cmd cwd s) as [r s']. destruct Hc as (_ & Ha & _).
  assert (Hs' : other_attributes_kept h s0 s')
    by (unfold other_attributes_kept; rewrite Ha; exact Hs).
  destruct r; exact Hs'.
Qed.

Lemma attributes_assign k v (s : state h) :
  assigned k = true -> other_attributes_kept h s0 s ->
  other_attributes_kept h s0 (set_args h (<[k := v]> (st_args s)) s).
Proof.
  intros Hk Hs k' Hk'. simpl. rewrite lookup_insert_ne; [apply Hs; exact Hk' |].
  intros ->. congruence.
Qed.

End Frame.

(** X24. The actions assign six attributes of the namespace and no
    other: [build_dir], [swiftc_path], [target_dir], [conf], [bin_dir] and
    [llbuild_build_dir].  Every other attribute is at the end of [clean],
    [build], [test] and [install] what it was at the start. *)
Theorem actions_assign_six_attributes (h : Host) (s : state h) k :
  assigned k = false ->
  st_args (snd (clean h s)) !! k = st_args s !! k /\
  st_args (snd (build h s)) !! k = st_args s !! k /\
  st_args (snd (test h s)) !! k = st_args s !! k /\
  st_args (snd (install h s)) !! k = st_args s !! k.
Proof.
  intros Hk.
  assert (Hrun : forall (m : M h unit),
            keeps h (other_attributes_kept h s) (fun _ => other_attributes_kept h s) m ->
            st_args (snd (m s)) !! k = st_args s !! k).
  { intros m Hm. specialize (Hm s (fun _ _ => eq_refl)).
    destruct (m s) as [[a|e] s']; exact (Hm k Hk). }
  split; [| split; [| split]]; apply Hrun;
    [ apply keeps_clean with (assignable := assigned)
    | apply keeps_build with (assignable := assigned)
    | apply keeps_test with (assignable := assigned)
    | apply keeps_install with (assignable := assigned) ];
    first [ reflexivity | apply call_keeps_attributes | apply attributes_assign
          | intros; assumption ].
Qed.

Lemma actions_assign_six_attributes_witness :
  st_args (snd (build Demo.linux (working_start false false))) !! "bootstrap_dir"
  = st_args (working_start false false) !! "bootstrap_dir".
Proof.
  exact (proj1 (proj2 (actions_assign_six_attributes Demo.linux (working_start false false)
                         "bootstrap_dir" eq_refl))).
Defined.

(** ** The sources of the dependency *)

Section Sources.

Context (h : Host).

Lemma get_llbuild_source_path_missing (s : state h) :
  path_exists h (st_fs s) (llbuild_checkout h) = false ->
  exists hint,
    get_llbuild_source_path h s =
      (Raise (SystemExit 1),
       add_stdout h (error_line h ("unable to find llbuild source directory at "
                                   +:+ llbuild_checkout h))
         (add_stdout h (note_line h hint) s)).
Proof.
  intros He. unfold get_llbuild_source_path. fold (llbuild_checkout h).
  rewrite (bind_ok h (os_path_exists h _) _ s _ s eq_refl). rewrite He.
  eexists. reflexivity.
Qed.

(** X26. Stage 1 looks for the sources of the dependency only after it has
    made the query directory and run the touch there: with no source
    directory named and no checkout next to the project, [build_llbuild]
    exits with status 1, the touch is the only child it has run, and the
    last line printed is the error that names the path looked at. *)
Theorem stage_1_checks_for_the_sources_after_the_touch (s : state h) td v sd o f :
  st_args s !! "target_dir" = Some (VStr td) ->
  st_args s !! "verbose" = Some v ->
  st_args s !! "llbuild_source_dir" = Some sd ->
  truthy sd = false ->
  let api := Path.join (Path.join td "llbuild") ".cmake/api/v1/query" in
  let made := makedirs h (st_fs s) api in
  fst made = None \/ fst made = Some EEXIST ->
  spawn h (snd made) touch_cmd (Some api) = (Exited 0 o, f) ->
  path_exists h f (llbuild_checkout h) = false ->
  let out := build_llbuild h s in
  fst out = Raise (SystemExit 1) /\
  st_trace (snd out) = st_trace s ++ [call_event touch_cmd (Some api) (Exited 0 o)] /\
  last (st_stdout (snd out)) =
    Some (error_line h ("unable to find llbuild source directory at " +:+ llbuild_checkout h)).
Proof.
  intros Htd Hv Hsd Ht api made Hm Hsp He out.
  assert (Hrun : exists s',
            build_llbuild h s = (Raise (SystemExit 1), s') /\
            st_trace s' = st_trace s ++ [call_event touch_cmd (Some api) (Exited 0 o)] /\
            last (st_stdout s') =
              Some (error_line h ("unable to find llbuild source directory at "
                                  +:+ llbuild_checkout h))).
  2:{ destruct Hrun as (s' & Hr & Htr & Hl). subst out. rewrite Hr. auto. }
  clear out. unfold build_llbuild.
  set (s0 := add_stdout h (note_line h "Building llbuild") s).
  rewrite (bind_ok h (note h _) _ s tt s0 eq_refl).
  rewrite (bind_ok h _ _ _ _ _ (getattr_ok h _ _ s0 Htd)).
  rewrite (bind_ok h _ _ _ _ _ (path_join_str h td "llbuild" s0)).
  rewrite (bind_ok h (setattr h "llbuild_build_dir" _) _ s0 tt
             (set_args h (<["llbuild_build_dir" := VStr (Path.join td "llbuild")]> (st_args s0))
                s0) eq_refl).
  set (s1 := set_args h _ s0).
  rewrite (bind_ok h (getattr h "llbuild_build_dir") _ s1 (VStr (Path.join td "llbuild")) s1)
    by (apply getattr_ok; apply lookup_insert_eq).
  rewrite (bind_ok h _ _ _ _ _ (path_join_str h _ ".cmake/api/v1/query" s1)).
  fold api.
  rewrite (bind_ok h _ _ _ _ _ (mkdir_p_ok h api s1 Hm)). fold made.
  set (s2 := set_fs h (snd made) s1).
  assert (Hv2 : st_args s2 !! "verbose" = Some v)
    by (simpl; rewrite lookup_insert_ne by discriminate; exact Hv).
  change (VStr api) with (cwd_value (Some api)).
  rewrite (bind_ok h _ _ _ _ _ (call_success h touch_cmd (Some api) v s2 o f Hv2 Hsp)).
  set (s3 := add_event h _ _).
  assert (Hsd3 : st_args s3 !! "llbuild_source_dir" = Some sd)
    by (subst s3 s2 s1 s0; destruct (truthy v); simpl;
        rewrite lookup_insert_ne by discriminate; exact Hsd).
  rewrite (bind_ok h _ _ _ _ _ (getattr_ok h _ _ s3 Hsd3)). rewrite Ht.
  assert (He3 : path_exists h (st_fs s3) (llbuild_checkout h) = false) by exact He.
  destruct (get_llbuild_source_path_missing s3 He3) as (hint & Hg).
  unfold bind at 1. unfold bind at 1. rewrite Hg.
  eexists. split; [reflexivity |]. split; [| apply last_snoc].
  subst s3 s2 s1 s0. destruct (truthy v); reflexivity.
Qed.

End Sources.

Lemma stage_1_checks_for_the_sources_after_the_touch_witness :
  fst (build_llbuild Demo.linux no_sources_start) = Raise (SystemExit 1) /\
  st_trace (snd (build_llbuild Demo.linux no_sources_start)) =
    st_trace no_sources_start
    ++ [call_event touch_cmd
          (Some "/w/.build/x86_64-unknown-linux-gnu/llbuild/.cmake/api/v1/query")
          (Exited 0 "")] /\
  last (st_stdout (snd (build_llbuild Demo.linux no_sources_start))) =
    Some (error_line Demo.linux
            ("unable to find llbuild source directory at " +:+ llbuild_checkout Demo.linux)).
Proof.
  refine (stage_1_checks_for_the_sources_after_the_touch Demo.linux no_sources_start
            "/w/.build/x86_64-unknown-linux-gnu" (VBool false) VNone "" [] _ _ _ _ _ _ _);
    first [ left; reflexivity | vm_compute; reflexivity ].
Defined.

Example stage_1_without_sources :
  last (st_stdout (snd (build_llbuild Demo.linux no_sources_start))) =
    Some "--- build-script-helper.py: error: unable to find llbuild source directory at /w/../llbuild".
Proof. vm_compute. reflexivity. Qed.
